(** * Whiteboard analysis pipeline: a shallow embedding and its properties

    The program under study is [whiteboard-to-notes-using-ai.py]: it reads an
    image file, base64-encodes it, sends it to a hosted model, removes
    markdown fences from the reply, parses the reply as JSON and stores the
    result in a timestamped file.

    The development has two parts.  The first part contains the model: Python
    strings, the library functions the program calls ([str.replace],
    [str.strip], [base64], [json], [strftime], the file system) and the five
    functions of the program itself.  The second part contains the lemmas and
    the theorems about them. *)

From Stdlib Require Import ZArith NArith List Lia Ascii String Bool.
From Stdlib Require Import DecimalN DecimalFacts.
From Stdlib.Strings Require Import Byte.
From stdpp Require Import gmap list strings.

#[local] Set Warnings "-register-all".

Local Open Scope N_scope.

(** * Part I: the model *)

(** ** Python strings

    A Python [str] is a sequence of Unicode code points.  Code points are
    natural numbers; the valid ones lie below [0x110000].  Python strings may
    contain lone surrogates ([0xD800] to [0xDFFF]), and so may these. *)

Abbreviation codepoint := N (only parsing).
Abbreviation str := (list N) (only parsing).

(** [lit] turns a Rocq string literal (bytes, used here for ASCII text only)
    into a Python string. *)
Fixpoint lit (s : string) : str :=
  match s with
  | EmptyString => []
  | String a s' => N_of_ascii a :: lit s'
  end.

Definition is_surrogate (c : codepoint) : bool := (0xD800 <=? c) && (c <=? 0xDFFF).
Definition is_scalar (c : codepoint) : bool := (c <? 0x110000) && negb (is_surrogate c).

(** [s.startswith(pre)] *)
Fixpoint startswith (pre s : str) : bool :=
  match pre, s with
  | [], _ => true
  | _ :: _, [] => false
  | p :: pre', c :: s' => (p =? c) && startswith pre' s'
  end.

(** [pat in s], as a proposition and as a test. *)
Definition occurs (pat s : str) : Prop := ∃ a b, s = a ++ pat ++ b.

Fixpoint contains (pat s : str) : bool :=
  startswith pat s || match s with [] => false | _ :: s' => contains pat s' end.

(** [s.replace(old, new)]: the occurrences of [old] are found from left to
    right and do not overlap.  After a match at the head, the scan resumes
    behind the matched text; [skip] counts the characters of a match still to
    be passed over.  With an empty [old], Python puts [new] before every
    character and at the end. *)
Fixpoint replace_from (old new : str) (skip : nat) (s : str) : str :=
  match s with
  | [] => []
  | c :: s' =>
      match skip with
      | S k => replace_from old new k s'
      | O =>
          if startswith old s
          then new ++ replace_from old new (length old - 1) s'
          else c :: replace_from old new 0 s'
      end
  end.

Definition replace (old new s : str) : str :=
  match old with
  | [] => new ++ flat_map (λ c, c :: new) s
  | _ :: _ => replace_from old new 0 s
  end.

(** [str.isspace] on one code point: the characters [str.strip()] removes. *)
Definition isspace (c : codepoint) : bool :=
  ((0x09 <=? c) && (c <=? 0x0D)) || ((0x1C <=? c) && (c <=? 0x20))
  || (c =? 0x85) || (c =? 0xA0) || (c =? 0x1680)
  || ((0x2000 <=? c) && (c <=? 0x200A))
  || (c =? 0x2028) || (c =? 0x2029) || (c =? 0x202F) || (c =? 0x205F)
  || (c =? 0x3000).

Fixpoint lstrip (s : str) : str :=
  match s with
  | [] => []
  | c :: s' => if isspace c then lstrip s' else s
  end.

Definition rstrip (s : str) : str := rev (lstrip (rev s)).

(** [s.strip()] *)
Definition strip (s : str) : str := rstrip (lstrip s).

(** ** The cleaning step of [analysiere_whiteboard]

    [bereinigt = rohtext.replace('```json', '').replace('```', '').strip()] *)

Definition backtick : codepoint := 0x60.
Definition fence : str := lit "```".
Definition fence_json : str := lit "```json".

Definition bereinigt (rohtext : str) : str :=
  strip (replace fence [] (replace fence_json [] rohtext)).

(** [qlit] is [lit] with every apostrophe read as a double quote; it is used
    to write JSON texts. *)
Definition qlit (s : string) : str :=
  map (λ c, if c =? 0x27 then 0x22 else c) (lit s).

(** ** Bytes and base64

    File contents are byte strings.  [base64.b64encode] is RFC 4648 encoding
    with padding: three bytes become four characters of the alphabet.  Its
    result is a [bytes] object of ASCII characters, which [.decode("utf-8")]
    turns into the [str] with the same code points; the model produces that
    [str] directly. *)

Definition byte_of_N (n : N) : byte :=
  match Byte.of_N n with Some b => b | None => x00 end.

Definition b64_alphabet : str :=
  lit "ABCDEFGHIJKLMNOPQRSTUVWXYZabcdefghijklmnopqrstuvwxyz0123456789+/".

Definition b64_pad : codepoint := 0x3D.

Definition b64_char (sextet : N) : codepoint :=
  nth (N.to_nat sextet) b64_alphabet 0.

Fixpoint index_of (c : codepoint) (l : str) : option N :=
  match l with
  | [] => None
  | x :: l' => if x =? c then Some 0 else N.succ <$> index_of c l'
  end.

(** The decoding table: the value of an alphabet character, [None] for any
    other character. *)
Definition b64_value (c : codepoint) : option N := index_of c b64_alphabet.

Fixpoint b64encode (data : list byte) : str :=
  match data with
  | [] => []
  | [a] =>
      let a := Byte.to_N a in
      [b64_char (a / 4); b64_char (a mod 4 * 16); b64_pad; b64_pad]
  | [a; b] =>
      let a := Byte.to_N a in
      let b := Byte.to_N b in
      [b64_char (a / 4); b64_char (a mod 4 * 16 + b / 16);
       b64_char (b mod 16 * 4); b64_pad]
  | a :: b :: c :: rest =>
      let a := Byte.to_N a in
      let b := Byte.to_N b in
      let c := Byte.to_N c in
      [b64_char (a / 4); b64_char (a mod 4 * 16 + b / 16);
       b64_char (b mod 16 * 4 + c / 64); b64_char (c mod 64)]
      ++ b64encode rest
  end.

(** [base64.b64decode(s)] with its default [validate=False] is
    [binascii.a2b_base64] in non-strict mode: a loop over the characters
    with the position in the current quad ([quad_pos]), the bits left over
    from the previous character ([leftchar]) and the number of padding
    characters seen in a row ([pads]).  Characters outside the alphabet are
    skipped; padding that completes a quad ends the decoding; input that ends
    inside a quad is an error ([None]).  [out] holds the decoded bytes, last
    byte first. *)
Fixpoint a2b_base64 (quad_pos : nat) (leftchar : N) (pads : nat)
    (out : list byte) (s : str) : option (list byte) :=
  match s with
  | [] => if (quad_pos =? 0)%nat then Some (rev out) else None
  | ch :: s' =>
      if ch =? b64_pad then
        if (2 <=? quad_pos)%nat then
          if (4 <=? quad_pos + S pads)%nat then Some (rev out)
          else a2b_base64 quad_pos leftchar (S pads) out s'
        else a2b_base64 quad_pos leftchar pads out s'
      else
        match b64_value ch with
        | None => a2b_base64 quad_pos leftchar pads out s'
        | Some v =>
            match quad_pos with
            | 0%nat => a2b_base64 1 v 0 out s'
            | 1%nat =>
                a2b_base64 2 (v mod 16) 0 (byte_of_N (leftchar * 4 + v / 16) :: out) s'
            | 2%nat =>
                a2b_base64 3 (v mod 4) 0 (byte_of_N (leftchar * 16 + v / 4) :: out) s'
            | _ =>
                a2b_base64 0 0 0 (byte_of_N (leftchar * 64 + v) :: out) s'
            end
        end
  end.

(** A [str] argument must be ASCII, otherwise [b64decode] raises
    [ValueError] before decoding. *)
Definition b64decode (s : str) : option (list byte) :=
  if forallb (λ c, c <? 128) s then a2b_base64 0 0 0 [] s else None.

(** ** Local time and [strftime]

    [datetime.now()] reads the system clock, a number of microseconds since
    1970-01-01 00:00:00 UTC, and converts it to local civil time with the UTC
    offset that the time zone of the machine prescribes for that instant.  The
    result is a naive [datetime]: it carries no offset.  [datetime] supports
    the years 1 to 9999 and raises outside that range. *)

Record datetime := {
  year : Z; month : Z; day : Z;
  hour : Z; minute : Z; second : Z; microsecond : Z
}.

Local Open Scope Z_scope.

Definition is_leap (y : Z) : bool :=
  (y mod 4 =? 0) && (negb (y mod 100 =? 0) || (y mod 400 =? 0)).

Definition days_in_month (y m : Z) : Z :=
  if m =? 2 then (if is_leap y then 29 else 28)
  else if (m =? 4) || (m =? 6) || (m =? 9) || (m =? 11) then 30
  else 31.

(** The proleptic Gregorian calendar, one day at a time. *)
Definition next_day (date : Z * Z * Z) : Z * Z * Z :=
  let '(y, m, d) := date in
  if d <? days_in_month y m then (y, m, d + 1)
  else if m <? 12 then (y, m + 1, 1)
  else (y + 1, 1, 1).

(** The date [n] days after 0001-01-01, counted day by day.  For the days
    from 1970-01-01 on, which is day 719162, the count starts there. *)
Definition date_of_days (n : Z) : Z * Z * Z :=
  if n <? 719162 then Nat.iter (Z.to_nat n) next_day (1, 1, 1)
  else Nat.iter (Z.to_nat (n - 719162)) next_day (1970, 1, 1).

(** Seconds from 0001-01-01 00:00:00 to 1970-01-01 00:00:00. *)
Definition epoch_offset : Z := 719162 * 86400.

(** A time zone gives the UTC offset, in seconds, in force at a POSIX time
    in seconds. *)
Abbreviation timezone := (Z → Z) (only parsing).

(** Local civil time at the instant [t_us] (microseconds since the epoch);
    [None] where [datetime] raises because the year is out of range. *)
Definition localtime (tz : timezone) (t_us : Z) : option datetime :=
  let t := t_us / 1000000 in
  let wall := t + tz t + epoch_offset in
  if wall <? 0 then None
  else
    let '(y, m, d) := date_of_days (wall / 86400) in
    let sod := wall mod 86400 in
    if 9999 <? y then None
    else Some {| year := y; month := m; day := d;
                 hour := sod / 3600; minute := sod mod 3600 / 60;
                 second := sod mod 60; microsecond := t_us mod 1000000 |}.

Definition digit (n : Z) : codepoint := Z.to_N (48 + n mod 10).

(** [%m], [%d], [%H], [%M], [%S]: two digits. *)
Definition fmt2 (n : Z) : str := [digit (n / 10); digit n].

(** [%Y]: four digits from year 1000 on.  Below that the C library decides
    whether the year is padded; the model takes glibc's choice (no padding). *)
Definition fmtY (y : Z) : str :=
  (if 1000 <=? y then [digit (y / 1000)] else [])
  ++ (if 100 <=? y then [digit (y / 100)] else [])
  ++ (if 10 <=? y then [digit (y / 10)] else [])
  ++ [digit y].

(** [d.strftime("%Y%m%d_%H%M%S")] *)
Definition strftime_Ymd_HMS (d : datetime) : str :=
  fmtY (year d) ++ fmt2 (month d) ++ fmt2 (day d) ++ lit "_"
  ++ fmt2 (hour d) ++ fmt2 (minute d) ++ fmt2 (second d).

(** Central European time in 2024: UTC+1, and UTC+2 from 31 March 01:00 UTC
    to 27 October 01:00 UTC. *)
Definition europe_berlin_2024 : timezone :=
  λ t, if (1711846800 <=? t) && (t <? 1729990800) then 7200 else 3600.

Local Close Scope Z_scope.

(** ** Python values that [json] handles

    [json.loads] builds values from [None], booleans, integers, floats,
    strings, lists and dicts with string keys.  [json.dump] accepts more:
    tuples, and dict keys that are integers, floats, booleans or [None].

    A float is represented by a literal that Python's [float()] reads
    ([PyFloat (lit "1.5")] is [float("1.5")]); the model never computes with
    floats.  A dict is the list of its items in insertion order. *)

Inductive pykey :=
| KStr (s : str)
| KInt (z : Z)
| KFloat (literal : str)
| KBool (b : bool)
| KNone.

Inductive pyval :=
| PyNone
| PyBool (b : bool)
| PyInt (z : Z)
| PyFloat (literal : str)
| PyStr (s : str)
| PyList (items : list pyval)
| PyTuple (items : list pyval)
| PyDict (items : list (pykey * pyval)).

(** The text of a float as [json]'s encoder writes it ([float.__repr__], or
    [NaN], [Infinity], [-Infinity]) is a parameter of the model. *)
Class FloatRepr := floatstr : str → str.

(** *** Decimal integers: [int.__repr__] and [int()] on digit strings *)

Fixpoint uint_chars (d : Decimal.uint) : str :=
  match d with
  | Decimal.Nil => []
  | Decimal.D0 d => 48 :: uint_chars d
  | Decimal.D1 d => 49 :: uint_chars d
  | Decimal.D2 d => 50 :: uint_chars d
  | Decimal.D3 d => 51 :: uint_chars d
  | Decimal.D4 d => 52 :: uint_chars d
  | Decimal.D5 d => 53 :: uint_chars d
  | Decimal.D6 d => 54 :: uint_chars d
  | Decimal.D7 d => 55 :: uint_chars d
  | Decimal.D8 d => 56 :: uint_chars d
  | Decimal.D9 d => 57 :: uint_chars d
  end.

Definition is_digit (c : codepoint) : bool := (48 <=? c) && (c <=? 57).

(** The digits in [s], which holds digits only. *)
Fixpoint chars_uint (s : str) : Decimal.uint :=
  match s with
  | [] => Decimal.Nil
  | c :: s' =>
      let d := chars_uint s' in
      if c =? 48 then Decimal.D0 d else if c =? 49 then Decimal.D1 d
      else if c =? 50 then Decimal.D2 d else if c =? 51 then Decimal.D3 d
      else if c =? 52 then Decimal.D4 d else if c =? 53 then Decimal.D5 d
      else if c =? 54 then Decimal.D6 d else if c =? 55 then Decimal.D7 d
      else if c =? 56 then Decimal.D8 d else Decimal.D9 d
  end.

Definition int_repr (z : Z) : str :=
  match z with
  | Z0 => lit "0"
  | Zpos p => uint_chars (Pos.to_uint p)
  | Zneg p => lit "-" ++ uint_chars (Pos.to_uint p)
  end.

(** *** The encoder: [json.dump(daten, f, indent=4, ensure_ascii=False)]

    [dump] uses the encoder's [iterencode], which produces the text in
    chunks, and writes each chunk to the file. *)

Definition hex_digit (n : N) : codepoint :=
  nth (N.to_nat n) (lit "0123456789abcdef") 0.

(** [encode_basestring]: the string in double quotes; the quote, the
    backslash and the control characters are escaped, every other character,
    non-ASCII ones included, is kept. *)
Definition escape_char (c : codepoint) : str :=
  if c =? 0x22 then lit "\" ++ [0x22]
  else if c =? 0x5C then lit "\\"
  else if c =? 0x0A then lit "\n"
  else if c =? 0x0D then lit "\r"
  else if c =? 0x09 then lit "\t"
  else if c =? 0x08 then lit "\b"
  else if c =? 0x0C then lit "\f"
  else if c <? 0x20 then lit "\u00" ++ [hex_digit (c / 16); hex_digit (c mod 16)]
  else [c].

Definition encode_basestring (s : str) : str :=
  [0x22] ++ flat_map escape_char s ++ [0x22].

Definition newline_indent (level : nat) : str := 0x0A :: repeat 0x20 (4 * level).

Section Encoder.
Context `{FloatRepr}.

(** Dict keys that are not strings are turned into strings. *)
Definition key_text (k : pykey) : str :=
  match k with
  | KStr s => s
  | KFloat f => floatstr f
  | KBool true => lit "true"
  | KBool false => lit "false"
  | KNone => lit "null"
  | KInt z => int_repr z
  end.

(** The text of a value that is not a container. *)
Definition atom_text (o : pyval) : option str :=
  match o with
  | PyStr s => Some (encode_basestring s)
  | PyNone => Some (lit "null")
  | PyBool true => Some (lit "true")
  | PyBool false => Some (lit "false")
  | PyInt z => Some (int_repr z)
  | PyFloat f => Some (floatstr f)
  | PyList _ | PyTuple _ | PyDict _ => None
  end.

(** [_iterencode(o, level)].  In a list, the opening bracket or the
    separator is one chunk with the item when the item is not a container;
    in a dict, separator, key, colon and value are chunks of their own. *)
Fixpoint iterencode (level : nat) (o : pyval) {struct o} : list str :=
  let iterencode_list (lst : list pyval) : list str :=
    match lst with
    | [] => [lit "[]"]
    | _ :: _ =>
        (fix items (first : bool) (lst : list pyval) {struct lst} : list str :=
           match lst with
           | [] => []
           | value :: lst' =>
               let buf :=
                 (if first then lit "[" else lit ",") ++ newline_indent (S level) in
               match atom_text value with
               | Some text => [buf ++ text]
               | None => buf :: iterencode (S level) value
               end ++ items false lst'
           end) true lst
        ++ [newline_indent level; lit "]"]
    end in
  match o with
  | PyList lst => iterencode_list lst
  | PyTuple lst => iterencode_list lst
  | PyDict dct =>
      match dct with
      | [] => [lit "{}"]
      | _ :: _ =>
          [lit "{"; newline_indent (S level)]
          ++ (fix items (first : bool) (dct : list (pykey * pyval)) {struct dct}
                : list str :=
                match dct with
                | [] => []
                | (key, value) :: dct' =>
                    (if first then [] else [lit "," ++ newline_indent (S level)])
                    ++ [encode_basestring (key_text key); lit ": "]
                    ++ iterencode (S level) value
                    ++ items false dct'
                end) true dct
          ++ [newline_indent level; lit "}"]
      end
  | _ => match atom_text o with Some text => [text] | None => [] end
  end.

(** [json.dumps(o, indent=4, ensure_ascii=False)] *)
Definition json_dumps (o : pyval) : str := concat (iterencode 0 o).
End Encoder.

(** *** The decoder: [json.loads]

    The scanner reads one value at the head of the text and returns it with
    the text behind it.  A scan ends in one of three ways. *)

Inductive scan (A : Type) :=
| Scanned (a : A) (rest : str)
| Malformed              (* the text is not JSON: [JSONDecodeError] *)
| Exhausted.             (* the model ran out of fuel; see [scan_once_fuel] *)
Arguments Scanned {A} a rest.
Arguments Malformed {A}.
Arguments Exhausted {A}.

(** JSON whitespace: space, tab, newline, carriage return. *)
Definition is_json_ws (c : codepoint) : bool :=
  (c =? 0x20) || (c =? 0x09) || (c =? 0x0A) || (c =? 0x0D).

Fixpoint skip_ws (s : str) : str :=
  match s with
  | [] => []
  | c :: s' => if is_json_ws c then skip_ws s' else s
  end.

Definition hex_value (c : codepoint) : option N :=
  if is_digit c then Some (c - 48)
  else if (0x61 <=? c) && (c <=? 0x66) then Some (c - 0x61 + 10)
  else if (0x41 <=? c) && (c <=? 0x46) then Some (c - 0x41 + 10)
  else None.

(** The four hex digits of a [\uXXXX] escape. *)
Definition hex4 (a b c d : codepoint) : option N :=
  a ← hex_value a; b ← hex_value b; c ← hex_value c; d ← hex_value d;
  Some (((a * 16 + b) * 16 + c) * 16 + d).

Definition is_high_surrogate (c : N) : bool := (0xD800 <=? c) && (c <=? 0xDBFF).
Definition is_low_surrogate (c : N) : bool := (0xDC00 <=? c) && (c <=? 0xDFFF).

(** The character a one-letter escape stands for. *)
Definition backslash (esc : codepoint) : option codepoint :=
  if esc =? 0x22 then Some 0x22          (* quote *)
  else if esc =? 0x5C then Some 0x5C     (* backslash *)
  else if esc =? 0x2F then Some 0x2F     (* slash *)
  else if esc =? 0x62 then Some 0x08     (* b *)
  else if esc =? 0x66 then Some 0x0C     (* f *)
  else if esc =? 0x6E then Some 0x0A     (* n *)
  else if esc =? 0x72 then Some 0x0D     (* r *)
  else if esc =? 0x74 then Some 0x09     (* t *)
  else None.

(** [scanstring(s, end, strict=True)]: [s] is the text behind the opening
    quote; the result is the content of the string and the text behind the
    closing quote.  A high surrogate escape directly followed by a low
    surrogate escape is one character; a surrogate escape on its own is kept
    as it is. *)
Fixpoint scanstring (s : str) : option (str * str) :=
  match s with
  | [] => None
  | c :: s1 =>
      if c =? 0x22 then Some ([], s1)
      else if c =? 0x5C then
        match s1 with
        | [] => None
        | esc :: s2 =>
            if esc =? 0x75 then
              match s2 with
              | h1 :: h2 :: h3 :: h4 :: s3 =>
                  match hex4 h1 h2 h3 h4 with
                  | None => None
                  | Some uni =>
                      let single :=
                        match scanstring s3 with
                        | Some (content, rest) => Some (uni :: content, rest)
                        | None => None
                        end in
                      if is_high_surrogate uni then
                        match s3 with
                        | b :: u :: s4 =>
                            if (b =? 0x5C) && (u =? 0x75) then
                              match s4 with
                              | g1 :: g2 :: g3 :: g4 :: s5 =>
                                  match hex4 g1 g2 g3 g4 with
                                  | None => None
                                  | Some uni2 =>
                                      if is_low_surrogate uni2 then
                                        match scanstring s5 with
                                        | Some (content, rest) =>
                                            Some (0x10000 + (uni - 0xD800) * 1024
                                                  + (uni2 - 0xDC00) :: content, rest)
                                        | None => None
                                        end
                                      else single
                                  end
                              | _ => None
                              end
                            else single
                        | _ => single
                        end
                      else single
                  end
              | _ => None
              end
            else
              match backslash esc with
              | None => None
              | Some ch =>
                  match scanstring s2 with
                  | Some (content, rest) => Some (ch :: content, rest)
                  | None => None
                  end
              end
        end
      else if c <? 0x20 then None
      else
        match scanstring s1 with
        | Some (content, rest) => Some (c :: content, rest)
        | None => None
        end
  end.

(** The longest prefix of digits, and the text behind it. *)
Fixpoint span_digits (s : str) : str * str :=
  match s with
  | [] => ([], [])
  | c :: s' =>
      if is_digit c then let '(ds, rest) := span_digits s' in (c :: ds, rest)
      else ([], s)
  end.

(** A number: an optional minus sign; a zero, or a digit from 1 to 9 and
    any digits; optionally a dot and one digit or more; optionally [e] or
    [E], an optional sign and one digit or more.  A number with a fraction or
    an exponent is a float, any other an integer. *)
Definition match_number (s : str) : option (pyval * str) :=
  let '(sign, s1) :=
    match s with
    | c :: s' => if c =? 0x2D then ([c], s') else ([], s)
    | [] => ([], s)
    end in
  match s1 with
  | [] => None
  | c :: s2 =>
      let integer :=
        if c =? 0x30 then Some ([c], s2)
        else if is_digit c then
          let '(ds, rest) := span_digits s2 in Some (c :: ds, rest)
        else None in
      match integer with
      | None => None
      | Some (int_digits, r) =>
          let '(frac, r1) :=
            match r with
            | dot :: r' =>
                if dot =? 0x2E then
                  match span_digits r' with
                  | ([], _) => ([], r)
                  | (ds, rest) => (dot :: ds, rest)
                  end
                else ([], r)
            | [] => ([], r)
            end in
          let '(exp, r2) :=
            match r1 with
            | e :: r' =>
                if (e =? 0x65) || (e =? 0x45) then
                  let '(esign, r'') :=
                    match r' with
                    | sg :: t => if (sg =? 0x2B) || (sg =? 0x2D) then ([sg], t) else ([], r')
                    | [] => ([], r')
                    end in
                  match span_digits r'' with
                  | ([], _) => ([], r1)
                  | (ds, rest) => (e :: esign ++ ds, rest)
                  end
                else ([], r1)
            | [] => ([], r1)
            end in
          match frac, exp with
          | [], [] =>
              let n := Z.of_N (N.of_uint (chars_uint int_digits)) in
              Some (PyInt (match sign with [] => n | _ => - n end)%Z, r2)
          | _, _ => Some (PyFloat (sign ++ int_digits ++ frac ++ exp), r2)
          end
      end
  end.

(** [dict(pairs)]: a key that comes again keeps its place and takes the new
    value. *)
Fixpoint dict_set (key : str) (value : pyval) (items : list (pykey * pyval))
    : list (pykey * pyval) :=
  match items with
  | [] => [(KStr key, value)]
  | (k, v) :: items' =>
      match k with
      | KStr s =>
          if bool_decide (s = key) then (k, value) :: items'
          else (k, v) :: dict_set key value items'
      | _ => (k, v) :: dict_set key value items'
      end
  end.

Definition dict_of_pairs (pairs : list (str * pyval)) : list (pykey * pyval) :=
  fold_left (λ items kv, dict_set kv.1 kv.2 items) pairs [].

(** [scan_once]: one value at the head of [s].  [array_items] and
    [object_items] are the loops of [JSONArray] and [JSONObject] behind the
    first item's position: [values] and [pairs] hold what was read so far,
    last item first. *)
Fixpoint scan_once (fuel : nat) (s : str) {struct fuel} : scan pyval :=
  match fuel with
  | O => Exhausted
  | S fuel =>
      match s with
      | [] => Malformed
      | c :: s' =>
          if c =? 0x22 then
            match scanstring s' with
            | Some (content, rest) => Scanned (PyStr content) rest
            | None => Malformed
            end
          else if c =? 0x7B then
            let s1 := skip_ws s' in
            match s1 with
            | c1 :: s2 =>
                if c1 =? 0x7D then Scanned (PyDict []) s2
                else if c1 =? 0x22 then object_items fuel [] s2
                else Malformed
            | [] => Malformed
            end
          else if c =? 0x5B then
            let s1 := skip_ws s' in
            match s1 with
            | c1 :: s2 =>
                if c1 =? 0x5D then Scanned (PyList []) s2
                else array_items fuel [] s1
            | [] => Malformed
            end
          else if startswith (lit "null") s then Scanned PyNone (drop 4 s)
          else if startswith (lit "true") s then Scanned (PyBool true) (drop 4 s)
          else if startswith (lit "false") s then Scanned (PyBool false) (drop 5 s)
          else
            match match_number s with
            | Some (number, rest) => Scanned number rest
            | None =>
                if startswith (lit "NaN") s
                then Scanned (PyFloat (lit "NaN")) (drop 3 s)
                else if startswith (lit "Infinity") s
                then Scanned (PyFloat (lit "Infinity")) (drop 8 s)
                else if startswith (lit "-Infinity") s
                then Scanned (PyFloat (lit "-Infinity")) (drop 9 s)
                else Malformed
            end
      end
  end

with array_items (fuel : nat) (values : list pyval) (s : str) {struct fuel}
    : scan pyval :=
  match fuel with
  | O => Exhausted
  | S fuel =>
      match scan_once fuel s with
      | Scanned value rest =>
          match skip_ws rest with
          | c :: s1 =>
              if c =? 0x5D then Scanned (PyList (rev (value :: values))) s1
              else if c =? 0x2C then array_items fuel (value :: values) (skip_ws s1)
              else Malformed
          | [] => Malformed
          end
      | Malformed => Malformed
      | Exhausted => Exhausted
      end
  end

(** [s] is the text behind the opening quote of a key. *)
with object_items (fuel : nat) (pairs : list (str * pyval)) (s : str) {struct fuel}
    : scan pyval :=
  match fuel with
  | O => Exhausted
  | S fuel =>
      match scanstring s with
      | None => Malformed
      | Some (key, s1) =>
          match skip_ws s1 with
          | colon :: s2 =>
              if colon =? 0x3A then
                match scan_once fuel (skip_ws s2) with
                | Scanned value rest =>
                    match skip_ws rest with
                    | c :: s3 =>
                        if c =? 0x7D
                        then Scanned (PyDict (dict_of_pairs (rev ((key, value) :: pairs)))) s3
                        else if c =? 0x2C then
                          match skip_ws s3 with
                          | q :: s4 =>
                              if q =? 0x22
                              then object_items fuel ((key, value) :: pairs) s4
                              else Malformed
                          | [] => Malformed
                          end
                        else Malformed
                    | [] => Malformed
                    end
                | Malformed => Malformed
                | Exhausted => Exhausted
                end
              else Malformed
          | [] => Malformed
          end
      end
  end.

(** [json.loads(s)]: a text that starts with a byte order mark is refused;
    whitespace may surround the value and nothing else may follow it.
    [None] is [JSONDecodeError]. *)
Definition json_loads (s : str) : option pyval :=
  if startswith [0xFEFF] s then None
  else
    let s1 := skip_ws s in
    match scan_once (S (length s1)) s1 with
    | Scanned obj rest =>
        match skip_ws rest with
        | [] => Some obj
        | _ :: _ => None
        end
    | Malformed | Exhausted => None
    end.

(** ** UTF-8

    A file opened with [encoding="utf-8"] stores text as UTF-8.  The encoder
    refuses surrogates ([UnicodeEncodeError]); the decoder refuses everything
    that is not the encoding of a scalar value. *)

Definition utf8_encode_char (c : codepoint) : option (list byte) :=
  if c <? 0x80 then Some [byte_of_N c]
  else if c <? 0x800 then
    Some [byte_of_N (0xC0 + c / 64); byte_of_N (0x80 + c mod 64)]
  else if c <? 0x10000 then
    if is_surrogate c then None
    else Some [byte_of_N (0xE0 + c / 4096); byte_of_N (0x80 + c / 64 mod 64);
               byte_of_N (0x80 + c mod 64)]
  else if c <? 0x110000 then
    Some [byte_of_N (0xF0 + c / 262144); byte_of_N (0x80 + c / 4096 mod 64);
          byte_of_N (0x80 + c / 64 mod 64); byte_of_N (0x80 + c mod 64)]
  else None.

Fixpoint utf8_encode (s : str) : option (list byte) :=
  match s with
  | [] => Some []
  | c :: s' =>
      match utf8_encode_char c, utf8_encode s' with
      | Some bs, Some rest => Some (bs ++ rest)
      | _, _ => None
      end
  end.

Definition is_continuation (b : byte) : bool :=
  (0x80 <=? Byte.to_N b) && (Byte.to_N b <? 0xC0).

Definition payload (b : byte) : N := Byte.to_N b - 0x80.

Fixpoint utf8_decode (data : list byte) : option str :=
  match data with
  | [] => Some []
  | b0 :: r0 =>
      let a := Byte.to_N b0 in
      if a <? 0x80 then cons a <$> utf8_decode r0
      else if a <? 0xC2 then None
      else if a <? 0xE0 then
        match r0 with
        | b1 :: r1 =>
            if is_continuation b1
            then cons ((a - 0xC0) * 64 + payload b1) <$> utf8_decode r1
            else None
        | _ => None
        end
      else if a <? 0xF0 then
        match r0 with
        | b1 :: b2 :: r2 =>
            let c := (a - 0xE0) * 4096 + payload b1 * 64 + payload b2 in
            if is_continuation b1 && is_continuation b2
               && (0x800 <=? c) && negb (is_surrogate c)
            then cons c <$> utf8_decode r2
            else None
        | _ => None
        end
      else if a <? 0xF5 then
        match r0 with
        | b1 :: b2 :: b3 :: r3 =>
            let c := (a - 0xF0) * 262144 + payload b1 * 4096
                     + payload b2 * 64 + payload b3 in
            if is_continuation b1 && is_continuation b2 && is_continuation b3
               && (0x10000 <=? c) && (c <? 0x110000)
            then cons c <$> utf8_decode r3
            else None
        | _ => None
        end
      else None
  end.

(** ** The world the program runs in

    The file system maps a path, as the program writes it, to a file or a
    directory; the model resolves neither [.] and [..] nor links, and it has
    no permissions and no quota.  The paths follow POSIX: the separator is
    [/] and a newline is written to a text file as it is.

    The system clock is read through [clock]: its [n]-th reading, in
    microseconds since the epoch, is [clock n].  Nothing is assumed about
    how readings follow each other.

    The hosted model answers a request with the content blocks of its reply,
    or the call fails ([None]).

    [trace] records, in order, what the program asked of its environment. *)

Inductive node :=
| File (content : list byte)
| Directory.

(** A content block of a request. *)
Inductive content_block :=
| TextContent (text : str)
| ImageContent (source_type media_type data : str).

Record message := { role : str; content : list content_block }.

Record request := {
  model : str;
  max_tokens : Z;
  system : str;
  messages : list message
}.

(** A content block of a reply; only text blocks have a [text]. *)
Inductive reply_block :=
| TextBlock (text : str)
| ToolUseBlock.

(** A client handle: [client.messages.create]. *)
Abbreviation Anthropic := (request → option (list reply_block)) (only parsing).

Inductive event :=
| EvOpenRead (pfad : str)
| EvRequest (req : request)
| EvMkdir (pfad : str)
| EvClock
| EvOpenWrite (pfad : str)
| EvWrite (pfad : str) (chunk : str).

Record World := {
  files : gmap (list N) node;
  clock : nat → Z;
  clock_reads : nat;
  tz : Z → Z;
  hosted_model : request → option (list reply_block);
  trace : list event
}.

Inductive exception :=
| FileNotFoundError
| IsADirectoryError
| FileExistsError
| UnicodeEncodeError
| ValueError
| APIError
| IndexError
| AttributeError
| JSONDecodeError.

Inductive result (A : Type) :=
| Ok (a : A)
| Raise (e : exception).
Arguments Ok {A} a.
Arguments Raise {A} e.

(** A computation runs in a world and ends with a value or an exception and
    the world it leaves behind. *)
Definition M (A : Type) : Type := World → result A * World.

Definition ret {A} (a : A) : M A := λ w, (Ok a, w).
Definition raise {A} (e : exception) : M A := λ w, (Raise e, w).
Definition bind {A B} (m : M A) (k : A → M B) : M B :=
  λ w, match m w with
       | (Ok a, w') => k a w'
       | (Raise e, w') => (Raise e, w')
       end.

#[global] Instance M_ret : MRet M := @ret.
#[global] Instance M_bind : MBind M := λ A B k m, bind m k.

Definition log (e : event) (w : World) : World :=
  {| files := files w; clock := clock w; clock_reads := clock_reads w; tz := tz w;
     hosted_model := hosted_model w; trace := trace w ++ [e] |}.

Definition set_files (fs : gmap (list N) node) (w : World) : World :=
  {| files := fs; clock := clock w; clock_reads := clock_reads w; tz := tz w;
     hosted_model := hosted_model w; trace := trace w |}.

(** [open(pfad, "rb")] and [f.read()] *)
Definition read_binary (pfad : str) : M (list byte) :=
  λ w, let w := log (EvOpenRead pfad) w in
       match files w !! pfad with
       | Some (File data) => (Ok data, w)
       | Some Directory => (Raise IsADirectoryError, w)
       | None => (Raise FileNotFoundError, w)
       end.

(** [Path(pfad).mkdir(exist_ok=True)]: the directory is created if nothing
    has that name; a directory of that name is left alone; a file of that
    name is an error. *)
Definition mkdir_exist_ok (pfad : str) : M unit :=
  λ w, let w := log (EvMkdir pfad) w in
       match files w !! pfad with
       | None => (Ok (), set_files (<[pfad := Directory]> (files w)) w)
       | Some Directory => (Ok (), w)
       | Some (File _) => (Raise FileExistsError, w)
       end.

(** The reading that the next look at the clock gives. *)
Definition next_reading (w : World) : Z := clock w (clock_reads w).

(** [datetime.now()] *)
Definition datetime_now : M datetime :=
  λ w, let t := next_reading w in
       let w := {| files := files w; clock := clock w;
                   clock_reads := S (clock_reads w); tz := tz w;
                   hosted_model := hosted_model w;
                   trace := trace w ++ [EvClock] |} in
       match localtime (tz w) t with
       | Some d => (Ok d, w)
       | None => (Raise ValueError, w)
       end.

(** [open(pfad, "w", encoding="utf-8")]: the file is created, or emptied if
    it exists. *)
Definition open_write (pfad : str) : M unit :=
  λ w, let w := log (EvOpenWrite pfad) w in
       match files w !! pfad with
       | Some Directory => (Raise IsADirectoryError, w)
       | _ => (Ok (), set_files (<[pfad := File []]> (files w)) w)
       end.

(** [f.write(chunk)] on the file opened at [pfad]: the chunk is encoded and
    appended.  When the encoding fails the file keeps what it has: leaving
    the [with] block closes it in either case. *)
Definition write (pfad : str) (chunk : str) : M unit :=
  λ w, let w := log (EvWrite pfad chunk) w in
       match utf8_encode chunk with
       | None => (Raise UnicodeEncodeError, w)
       | Some bytes =>
           match files w !! pfad with
           | Some (File old) =>
               (Ok (), set_files (<[pfad := File (old ++ bytes)]> (files w)) w)
           | _ => (Ok (), w)
           end
       end.

(** [client.messages.create(...)] *)
Definition messages_create (client : Anthropic) (req : request) : M (list reply_block) :=
  λ w, let w := log (EvRequest req) w in
       match client req with
       | Some blocks => (Ok blocks, w)
       | None => (Raise APIError, w)
       end.

(** ** The program *)

(** [bild_als_base64]: reads the image file and returns its base64 text. *)
Definition bild_als_base64 (pfad : str) : M str :=
  data ← read_binary pfad;
  mret (b64encode data).

(** [zeitstempel]: the local time, formatted for file names. *)
Definition zeitstempel : M str :=
  now ← datetime_now;
  mret (strftime_Ymd_HMS now).

Section Program.
Context `{FloatRepr}.

(** [json.dump(daten, f, indent=4, ensure_ascii=False)] on the file opened
    at [pfad]: one [write] for each chunk. *)
Fixpoint write_chunks (pfad : str) (chunks : list str) : M unit :=
  match chunks with
  | [] => mret ()
  | chunk :: chunks' => write pfad chunk;; write_chunks pfad chunks'
  end.

Definition json_dump (daten : pyval) (pfad : str) : M unit :=
  write_chunks pfad (iterencode 0 daten).

(** [json_speichern]: stores the result as a JSON file and returns the
    path of the file. *)
Definition json_speichern (daten : pyval) : M str :=
  let out_dir := lit "whiteboard_exports" in
  mkdir_exist_ok out_dir;;
  stempel ← zeitstempel;
  let dateiname := lit "lecture_notes_" ++ stempel ++ lit ".json" in
  let pfad := out_dir ++ lit "/" ++ dateiname in
  open_write pfad;;
  json_dump daten pfad;;
  mret pfad.

(** The system prompt, a text of seven lines. *)
Definition system_prompt : str :=
  [0x0A]
  ++ lit "        Du bist ein didaktischer KI-Assistent f" ++ [0xFC]
  ++ lit "r Hochschullehre." ++ [0x0A]
  ++ [0x0A]
  ++ lit "        Deine Aufgabe:" ++ [0x0A]
  ++ lit "        - Erkenne Inhalte auf einem Vorlesungs-Whiteboard" ++ [0x0A]
  ++ lit "        - Identifiziere Themen, Text, mathematische Formeln und Diagramme"
  ++ [0x0A]
  ++ lit "        - Strukturiere alles logisch und lernfreundlich" ++ [0x0A]
  ++ lit "        - Antworte ausschlie" ++ [0xDF] ++ lit "lich mit validem JSON"
  ++ [0x0A]
  ++ lit "        ".

Definition ziel_schema : pyval :=
  PyDict [
    (KStr (lit "topic"), PyStr (lit "string"));
    (KStr (lit "sections"), PyList [
      PyDict [
        (KStr (lit "title"), PyStr (lit "string"));
        (KStr (lit "content_type"), PyStr (lit "text | formula | diagram"));
        (KStr (lit "content"), PyStr (lit "string"));
        (KStr (lit "key_points"), PyList [PyStr (lit "string")])
      ]
    ]);
    (KStr (lit "flashcards"), PyList [
      PyDict [
        (KStr (lit "question"), PyStr (lit "string"));
        (KStr (lit "answer"), PyStr (lit "string"))
      ]
    ]);
    (KStr (lit "summary"), PyStr (lit "string"))
  ].

(** The arguments of [client.messages.create].  The schema is pretty-printed
    with [json.dumps(ziel_schema, indent=4)]; the schema is ASCII, so the
    default [ensure_ascii=True] of that call changes nothing. *)
Definition anfrage (bild_base64 : str) : request :=
  {| model := lit "claude-3-5-sonnet-20241022";
     max_tokens := 3000;
     system := system_prompt;
     messages := [
       {| role := lit "user";
          content := [
            TextContent
              (lit "Analysiere dieses Whiteboard-Foto aus einer Vorlesung "
               ++ lit "und strukturiere den Inhalt gem" ++ [0xE4; 0xDF]
               ++ lit " folgendem JSON-Schema:" ++ [0x0A; 0x0A]
               ++ json_dumps ziel_schema);
            ImageContent (lit "base64") (lit "image/jpeg") bild_base64
          ] |}
     ] |}.

(** The class [WhiteboardAssistent]: an object with a client handle. *)
Record WhiteboardAssistent := { client : Anthropic }.

(** [WhiteboardAssistent()]: the constructor makes a client for the hosted
    model. *)
Definition WhiteboardAssistent_init : M WhiteboardAssistent :=
  λ w, (Ok {| client := hosted_model w |}, w).

(** [message.content[0].text] *)
Definition first_text (blocks : list reply_block) : M str :=
  match blocks with
  | [] => raise IndexError
  | TextBlock text :: _ => mret text
  | ToolUseBlock :: _ => raise AttributeError
  end.

(** [analysiere_whiteboard]: sends the image to the model and parses the
    reply. *)
Definition analysiere_whiteboard (self : WhiteboardAssistent) (bild_base64 : str)
    : M pyval :=
  message ← messages_create (client self) (anfrage bild_base64);
  rohtext ← first_text message;
  match json_loads (bereinigt rohtext) with
  | Some ergebnis => mret ergebnis
  | None => raise JSONDecodeError
  end.

(** [verarbeite_whiteboard]: the callback of the user interface. *)
Definition verarbeite_whiteboard (bild_datei : str) : M (pyval * str) :=
  assistent ← WhiteboardAssistent_init;
  b64 ← bild_als_base64 bild_datei;
  ergebnis ← analysiere_whiteboard assistent b64;
  speicherort ← json_speichern ergebnis;
  mret (ergebnis, lit "Gespeichert unter: " ++ speicherort).
End Program.

(** ** Reading a stored result back

    What a reader of an export file gets: the file's bytes, decoded as UTF-8
    and parsed as JSON. *)
Definition read_json (w : World) (pfad : str) : option pyval :=
  match files w !! pfad with
  | Some (File data) =>
      match utf8_decode data with
      | Some text => json_loads text
      | None => None
      end
  | _ => None
  end.

Definition is_file (w : World) (pfad : str) : Prop :=
  ∃ data, files w !! pfad = Some (File data).

(** ** Auxiliary definitions for the proofs and the examples *)

(** Dates in calendar order. *)
Definition date_lt (a b : Z * Z * Z) : Prop :=
  let '(y1, m1, n1) := a in
  let '(y2, m2, n2) := b in
  (y1 < y2 ∨ (y1 = y2 ∧ (m1 < m2 ∨ (m1 = m2 ∧ n1 < n2))))%Z.

(** The calendar counted from 0001-01-01 throughout. *)
Definition date_iter (n : nat) : Z * Z * Z := Nat.iter n next_day (1, 1, 1)%Z.

(** The check that a sextet and its character fit together. *)
Definition b64_char_ok (n : N) : bool :=
  match b64_value (b64_char n) with
  | Some m => (m =? n) && negb (b64_char n =? b64_pad) && (b64_char n <? 128)
  | None => false
  end.

(** A machine in the Central European time zone: its files, the readings of
    its clock (zero once they are used up) and a hosted model that answers
    every request with one text block. *)
Definition demo_world (fs : gmap (list N) node) (readings : list Z) (reply : str)
    : World :=
  {| files := fs;
     clock := λ n, nth n readings 0%Z;
     clock_reads := 0;
     tz := europe_berlin_2024;
     hosted_model := λ _, Some [TextBlock reply];
     trace := [] |}.

(** An assistant whose client answers every request with one text block. *)
Definition stub_assistent (reply : str) : WhiteboardAssistent :=
  {| client := λ _, Some [TextBlock reply] |}.

(** In the examples a float is written as its literal. *)
Definition repr_literal : FloatRepr := λ literal, literal.

(** The notes with a topic, a summary, no sections and no flashcards. *)
Definition notes (topic summary : str) : pyval :=
  PyDict [(KStr (lit "topic"), PyStr topic); (KStr (lit "sections"), PyList []);
          (KStr (lit "flashcards"), PyList []); (KStr (lit "summary"), PyStr summary)].

(** The replies of the two scenarios: notes in a [```json] fence on lines of
    their own, and notes without a fence. *)
Definition fenced_reply : str :=
  lit "```json" ++ [0x0A]
  ++ qlit "{'topic':'X','sections':[],'flashcards':[],'summary':'Y'}" ++ [0x0A]
  ++ lit "```".

Definition plain_reply : str :=
  qlit "{'topic':'A','sections':[],'flashcards':[],'summary':'B'}".

(** A reply without fences whose topic holds three backticks. *)
Definition backtick_reply : str :=
  qlit "{'topic':'a```b','sections':[],'flashcards':[],'summary':'Y'}".

(** The directory of the export files and the path of the export file with
    a given time stamp. *)
Definition export_dir : str := lit "whiteboard_exports".

Definition export_path (stempel : str) : str :=
  export_dir ++ lit "/" ++ lit "lecture_notes_" ++ stempel ++ lit ".json".

(** A computation that only adds to the trace. *)
Definition grows {A} (m : M A) : Prop :=
  ∀ w, ∃ t, trace (m w).2 = trace w ++ t.

(** A photo for the examples: the first bytes of a JPEG file. *)
Definition tafel_jpg : list byte := [xff; xd8; xff; xe0].

(** A machine with the photo, one clock reading on 27 October 2024 and a
    hosted model that gives [reply]. *)
Definition tafel_world (reply : str) : World :=
  demo_world {[ lit "tafel.jpg" := File tafel_jpg ]} [1729989000000000%Z] reply.

(** Keys can be told apart. *)
#[global] Instance pykey_eq_dec : EqDecision pykey.
Proof. solve_decision. Defined.

(** The values that [json.loads] gives back as they were stored: no floats
    and no tuples, dicts whose keys are strings, each key once, and strings
    of scalar values, that is without surrogates. *)
Fixpoint json_native (o : pyval) : bool :=
  match o with
  | PyNone | PyBool _ | PyInt _ => true
  | PyFloat _ | PyTuple _ => false
  | PyStr s => forallb is_scalar s
  | PyList lst => forallb json_native lst
  | PyDict dct =>
      forallb (λ item, let '(key, value) := item in
                       match key with
                       | KStr s => forallb is_scalar s && json_native value
                       | _ => false
                       end) dct
      && bool_decide (NoDup (map fst dct))
  end.

(** The fuel that scanning the text of a value takes at most. *)
Fixpoint weight (o : pyval) : nat :=
  match o with
  | PyList lst => S (list_sum (map (λ value, S (weight value)) lst))
  | PyTuple lst => S (list_sum (map (λ value, S (weight value)) lst))
  | PyDict dct => S (list_sum (map (λ item, let '(_, value) := item in S (weight value)) dct))
  | _ => 1
  end.

(** What may stand behind a value in the encoder's text: nothing, a comma or
    a newline. *)
Definition delimited (rest : str) : Prop :=
  match rest with
  | [] => True
  | c :: _ => c = 0x2C ∨ c = 0x0A
  end.

(** The text of a value at an indentation level. *)
Definition json_text `{FloatRepr} (level : nat) (o : pyval) : str :=
  concat (iterencode level o).

(** The items of a dict as the decoder collects them. *)
Definition pairs_of `{FloatRepr} (dct : list (pykey * pyval)) : list (str * pyval) :=
  map (λ item, (key_text item.1, item.2)) dct.

(** What is to be shown of a value: the decoder reads its text back, at any
    indentation level, with fuel for its weight, before any delimited rest. *)
Definition reads_back `{FloatRepr} (o : pyval) : Prop :=
  ∀ level fuel rest,
    (weight o ≤ fuel)%nat → delimited rest →
    scan_once fuel (json_text level o ++ rest) = Scanned o rest.

Definition item_weights (lst : list pyval) : nat :=
  list_sum (map (λ value, S (weight value)) lst).


(** ** Further definitions for the properties of Part II *)

(** The paths the program writes to: the export directory and what lies
    below it. *)
Definition under_exports (pfad : str) : bool := startswith export_dir pfad.

(** A computation that leaves the clock, the time zone and the hosted model
    as they are. *)
Definition steady {A} (m : M A) : Prop :=
  ∀ w, clock (m w).2 = clock w ∧ tz (m w).2 = tz w
       ∧ hosted_model (m w).2 = hosted_model w.

(** A dict as it is stored: every key is the string it is written as. *)
Definition keys_as_text `{FloatRepr} (dct : list (pykey * pyval))
    : list (pykey * pyval) :=
  map (λ item, (KStr (key_text item.1), item.2)) dct.

(** A machine without files whose clock has two readings. *)
Definition two_readings (first second : Z) : World := demo_world ∅ [first; second] [].

(** A text in a [```json] fence, the fences on lines of their own. *)
Definition fenced (text : str) : str :=
  fence_json ++ [0x0A] ++ text ++ [0x0A] ++ fence.

(** What storing asks of the environment: to make a directory, to read the
    clock, to open a file for writing and to write to it. *)
Definition is_store_event (e : event) : bool :=
  match e with
  | EvMkdir _ | EvClock | EvOpenWrite _ | EvWrite _ _ => true
  | EvOpenRead _ | EvRequest _ => false
  end.

(** A computation that asks nothing else. *)
Definition stores {A} (m : M A) : Prop :=
  ∀ w, ∃ t, trace (m w).2 = trace w ++ t ∧ forallb is_store_event t = true.

(** The errors of reading the image and of analysing it that storing does
    not raise. *)
Definition raised_before_storing (e : exception) : bool :=
  match e with
  | FileNotFoundError | APIError | IndexError | AttributeError | JSONDecodeError => true
  | IsADirectoryError | FileExistsError | UnicodeEncodeError | ValueError => false
  end.

(** The values of JSON: no tuples, and in a dict every key is a string and
    no key comes twice. *)
Fixpoint json_value (o : pyval) : bool :=
  match o with
  | PyNone | PyBool _ | PyInt _ | PyFloat _ | PyStr _ => true
  | PyTuple _ => false
  | PyList lst => forallb json_value lst
  | PyDict dct =>
      forallb (λ item, let '(key, value) := item in
                       match key with
                       | KStr _ => json_value value
                       | _ => false
                       end) dct
      && bool_decide (NoDup (map fst dct))
  end.

(** The values without floats whose strings, keys included, hold no
    surrogates. *)
Fixpoint plain (o : pyval) : bool :=
  match o with
  | PyNone | PyBool _ | PyInt _ => true
  | PyFloat _ => false
  | PyStr s => forallb is_scalar s
  | PyList lst => forallb plain lst
  | PyTuple lst => forallb plain lst
  | PyDict dct =>
      forallb (λ item, let '(key, value) := item in
                       match key with
                       | KStr s => forallb is_scalar s
                       | KFloat _ => false
                       | _ => true
                       end && plain value) dct
  end.

(** [a <= b] on strings, as Python compares them and as a listing of a
    directory sorts names: code point by code point, a beginning of a string
    before the string. *)
Fixpoint str_le (a b : str) : bool :=
  match a, b with
  | [], _ => true
  | _ :: _, [] => false
  | x :: a', y :: b' => (x <? y) || ((x =? y) && str_le a' b')
  end.

(** The characters a JSON text can begin with: the quote of a string, the
    bracket of a dict or a list, the minus sign or a digit of a number, and
    the first letters of [null], [true], [false], [NaN] and [Infinity]. *)
Definition json_start (c : codepoint) : bool :=
  (c =? 0x22) || (c =? 0x7B) || (c =? 0x5B) || (c =? 0x2D) || is_digit c
  || (c =? 0x6E) || (c =? 0x74) || (c =? 0x66) || (c =? 0x4E) || (c =? 0x49).

(** The values whose text is a number. *)
Definition is_number (o : pyval) : bool :=
  match o with
  | PyInt _ | PyFloat _ => true
  | _ => false
  end.

(** A text that begins with a character no number goes on with. *)
Definition stops (rest : str) : Prop :=
  match rest with
  | [] => False
  | c :: _ => is_digit c = false ∧ c ≠ 0x2E ∧ c ≠ 0x65 ∧ c ≠ 0x45
  end.

(** * Part II: properties *)

Ltac N_bools :=
  repeat match goal with
  | H : (_ && _) = true |- _ => apply andb_true_iff in H; destruct H
  | H : (_ || _) = false |- _ => apply orb_false_iff in H; destruct H
  | H : (_ =? _) = true |- _ => apply N.eqb_eq in H
  | H : (_ =? _) = false |- _ => apply N.eqb_neq in H
  | H : (_ <=? _) = true |- _ => apply N.leb_le in H
  | H : (_ <=? _) = false |- _ => apply N.leb_gt in H
  | H : (_ <? _) = true |- _ => apply N.ltb_lt in H
  | H : (_ <? _) = false |- _ => apply N.ltb_ge in H
  | H : negb _ = true |- _ => apply negb_true_iff in H
  | H : negb _ = false |- _ => apply negb_false_iff in H
  end.

(** ** Strings: [startswith], [replace], [strip] *)

Lemma startswith_app (pre s : str) : startswith pre (pre ++ s) = true.
Proof.
  induction pre as [|p pre IH]; simpl; [done|].
  by rewrite N.eqb_refl, IH.
Qed.

Lemma startswith_spec (pre s : str) :
  startswith pre s = true ↔ ∃ t, s = pre ++ t.
Proof.
  split.
  - revert s. induction pre as [|p pre IH]; intros s Hs.
    + by exists s.
    + destruct s as [|c s]; simpl in Hs; [done|].
      N_bools. subst c. destruct (IH s) as [t ->]; [done|]. by exists t.
  - intros [t ->]. apply startswith_app.
Qed.

Lemma occurs_cons (pat : str) (c : codepoint) (s : str) :
  occurs pat s → occurs pat (c :: s).
Proof. intros (a & b & ->). by exists (c :: a), b. Qed.

Lemma occurs_head (pat s : str) : startswith pat s = true → occurs pat s.
Proof. intros [t ->]%startswith_spec. by exists [], t. Qed.

Lemma occurs_inv (pat : str) (c : codepoint) (s : str) :
  occurs pat (c :: s) → startswith pat (c :: s) = true ∨ occurs pat s.
Proof.
  intros (a & b & E). destruct a as [|x a]; simpl in E.
  - left. rewrite E. apply startswith_app.
  - right. injection E as -> ->. by exists a, b.
Qed.

Lemma contains_spec (pat s : str) : contains pat s = true ↔ occurs pat s.
Proof.
  induction s as [|c s IH].
  - simpl. rewrite orb_false_r. split.
    + apply occurs_head.
    + intros (a & b & E). symmetry in E.
      apply app_eq_nil in E as [-> E]. apply app_eq_nil in E as [-> _].
      done.
  - simpl. rewrite orb_true_iff, IH. split.
    + intros [Hh|Ht]; [by apply occurs_head | by apply occurs_cons].
    + apply occurs_inv.
Qed.

(** Passing over [skip] characters is dropping them. *)
Lemma replace_from_skip (old new : str) (skip : nat) (s : str) :
  replace_from old new skip s = replace_from old new 0 (drop skip s).
Proof.
  revert skip. induction s as [|c s IH]; intros [|k]; try done.
  simpl. apply IH.
Qed.

Lemma replace_from_match (old new : str) (c : codepoint) (s : str) :
  startswith old (c :: s) = true →
  replace_from old new 0 (c :: s)
  = new ++ replace_from old new 0 (drop (length old - 1) s).
Proof.
  intros Hm. cbn [replace_from]. rewrite Hm.
  by rewrite replace_from_skip.
Qed.

Lemma replace_from_no_match (old new : str) (c : codepoint) (s : str) :
  startswith old (c :: s) = false →
  replace_from old new 0 (c :: s) = c :: replace_from old new 0 s.
Proof. intros Hm. cbn [replace_from]. by rewrite Hm. Qed.

(** A text in which [old] does not occur is left as it is. *)
Lemma replace_from_absent (old new s : str) :
  ¬ occurs old s → replace_from old new 0 s = s.
Proof.
  induction s as [|c s IH]; intros Hno; [done|].
  rewrite replace_from_no_match.
  - f_equal. apply IH. intros Ho. apply Hno. by apply occurs_cons.
  - destruct (startswith old (c :: s)) eqn:E; [|done].
    destruct Hno. by apply occurs_head.
Qed.

(** The scan passes over a stretch that is free of the first character of
    [old]. *)
Lemma replace_from_prefix (old new : str) (o : codepoint) (old' a s : str) :
  old = o :: old' →
  Forall (λ c, c ≠ o) a →
  replace_from old new 0 (a ++ s) = a ++ replace_from old new 0 s.
Proof.
  intros -> Ha. induction Ha as [|c a Hc Ha IH]; [done|].
  rewrite <- !app_comm_cons. rewrite replace_from_no_match.
  - by rewrite IH.
  - simpl. apply N.eqb_neq in Hc. rewrite N.eqb_sym in Hc. by rewrite Hc.
Qed.

Lemma lstrip_spaces (a s : str) :
  forallb isspace a = true → lstrip (a ++ s) = lstrip s.
Proof.
  induction a as [|c a IH]; simpl; [done|].
  intros [Hc Ha]%andb_true_iff. rewrite Hc. by apply IH.
Qed.

Lemma lstrip_suffix (s : str) : ∃ a, s = a ++ lstrip s.
Proof.
  induction s as [|c s [a IH]]; simpl.
  - by exists [].
  - destruct (isspace c).
    + exists (c :: a). simpl. by rewrite <- IH.
    + by exists [].
Qed.

Lemma lstrip_app_nonspace (s t : str) (c : codepoint) :
  isspace c = false → lstrip (s ++ c :: t) = lstrip s ++ c :: t.
Proof.
  intros Hc. induction s as [|x s IH]; simpl.
  - by rewrite Hc.
  - destruct (isspace x); [apply IH | done].
Qed.

Lemma rstrip_spaces (s b : str) :
  forallb isspace b = true → rstrip (s ++ b) = rstrip s.
Proof.
  intros Hb. unfold rstrip. rewrite rev_app_distr.
  rewrite lstrip_spaces; [done|].
  rewrite forallb_forall in *. intros x Hx. apply Hb. by apply in_rev.
Qed.

Lemma rstrip_prefix (s : str) : ∃ b, s = rstrip s ++ b.
Proof.
  unfold rstrip. destruct (lstrip_suffix (rev s)) as [a E].
  exists (rev a). rewrite <- rev_app_distr, <- E. by rewrite rev_involutive.
Qed.

(** What [strip] returns is a piece of the text. *)
Lemma strip_infix (s : str) : ∃ a b, s = a ++ strip s ++ b.
Proof.
  unfold strip. destruct (lstrip_suffix s) as [a Ea].
  destruct (rstrip_prefix (lstrip s)) as [b Eb].
  exists a, b. by rewrite <- Eb.
Qed.

Lemma lstrip_all_spaces (s : str) : forallb isspace s = true → lstrip s = [].
Proof.
  intros Hs. rewrite <- (app_nil_r s). by rewrite lstrip_spaces.
Qed.

Lemma split_nonspace (s : str) :
  forallb isspace s = false →
  ∃ s1 c s2, s = s1 ++ c :: s2 ∧ isspace c = false.
Proof.
  induction s as [|x s IH]; simpl; [done|].
  destruct (isspace x) eqn:Hx; simpl.
  - intros (s1 & c & s2 & -> & Hc)%IH. by exists (x :: s1), c, s2.
  - intros _. by exists [], x, s.
Qed.

Lemma strip_spaces (a s b : str) :
  forallb isspace a = true → forallb isspace b = true →
  strip (a ++ s ++ b) = strip s.
Proof.
  intros Ha Hb. unfold strip. rewrite lstrip_spaces by done.
  destruct (forallb isspace s) eqn:Hs.
  - rewrite !lstrip_all_spaces; [done|done|].
    rewrite forallb_app. by rewrite Hs, Hb.
  - apply split_nonspace in Hs as (s1 & c & s2 & -> & Hc).
    rewrite <- app_assoc, <- app_comm_cons.
    rewrite !lstrip_app_nonspace by done.
    rewrite app_comm_cons, app_assoc.
    by apply rstrip_spaces.
Qed.

Lemma occurs_infix (pat a s b : str) : occurs pat s → occurs pat (a ++ s ++ b).
Proof.
  intros (x & y & ->). exists (a ++ x), (y ++ b).
  by rewrite <- !app_assoc.
Qed.

(** ** The cleaning step *)

Lemma fence_eq : fence = [backtick; backtick; backtick].
Proof. reflexivity. Qed.

Lemma fence_json_eq : fence_json = fence ++ lit "json".
Proof. reflexivity. Qed.

Lemma bereinigt_eq (rohtext : str) :
  bereinigt rohtext
  = strip (replace_from fence [] 0 (replace_from fence_json [] 0 rohtext)).
Proof. reflexivity. Qed.

Lemma isspace_not_backtick (c : codepoint) : isspace c = true → c ≠ backtick.
Proof. intros Hc ->. vm_compute in Hc. discriminate. Qed.

Lemma isspace_not_j (c : codepoint) : isspace c = true → c ≠ 0x6A.
Proof. intros Hc ->. vm_compute in Hc. discriminate. Qed.

Lemma spaces_no_backtick (s : str) :
  forallb isspace s = true → Forall (λ c, c ≠ backtick) s.
Proof.
  rewrite forallb_forall, Forall_forall. intros Hs c Hc.
  apply isspace_not_backtick, Hs. by apply list_elem_of_In.
Qed.

Lemma startswith_cons (p : codepoint) (pre : str) (c : codepoint) (s : str) :
  startswith (p :: pre) (c :: s) = (p =? c) && startswith pre s.
Proof. reflexivity. Qed.

Lemma startswith_one (p c : codepoint) (s : str) :
  startswith [p] (c :: s) = (p =? c).
Proof. cbn. apply andb_true_r. Qed.

(** After [replace('```', '')] a text that did not begin with one or two
    backticks does not begin with them either, and no fence is left. *)
Lemma delete_fence_head1 (s : str) :
  startswith [backtick] s = false →
  startswith [backtick] (replace_from fence [] 0 s) = false.
Proof.
  destruct s as [|c s]; [done|]. intros Hc.
  rewrite replace_from_no_match; [done|].
  rewrite fence_eq, startswith_cons. rewrite startswith_one in Hc.
  by rewrite Hc.
Qed.

Lemma delete_fence_head2 (s : str) :
  startswith [backtick; backtick] s = false →
  startswith [backtick; backtick] (replace_from fence [] 0 s) = false.
Proof.
  destruct s as [|c s]; [done|]. rewrite startswith_cons. intros Hc.
  assert (startswith fence (c :: s) = false) as Hm.
  { rewrite fence_eq, startswith_cons.
    destruct (backtick =? c); [|done]. cbn [andb] in *.
    destruct s as [|c' s]; [done|]. rewrite startswith_cons.
    rewrite startswith_one in Hc. by rewrite Hc. }
  rewrite replace_from_no_match by done.
  rewrite startswith_cons. destruct (backtick =? c); [|done]. cbn [andb] in *.
  by apply delete_fence_head1.
Qed.

Lemma delete_fence_none (s : str) : ¬ occurs fence (replace_from fence [] 0 s).
Proof.
  remember (length s) as n eqn:Hn. revert s Hn.
  induction n as [n IH] using lt_wf_ind. intros s ->.
  destruct s as [|c s].
  - cbn. intros (a & b & E). by destruct a.
  - destruct (startswith fence (c :: s)) eqn:Hm.
    + rewrite replace_from_match by done. cbn [app].
      eapply IH; [|done]. rewrite length_drop. cbn [length]. lia.
    + rewrite replace_from_no_match by done.
      intros [Hh|Ht]%occurs_inv.
      * rewrite fence_eq, startswith_cons in Hh, Hm.
        destruct (backtick =? c); [|done]. cbn [andb] in *.
        rewrite delete_fence_head2 in Hh; done.
      * revert Ht. eapply IH; [|done]. cbn [length]. lia.
Qed.

(** A run of backticks that is not followed by the letter j holds no
    [```json]. *)
Lemma keep_ticks_json (ticks s : str) :
  Forall (λ c, c = backtick) ticks →
  startswith [backtick] s = false →
  startswith [0x6A] s = false →
  replace_from fence_json [] 0 (ticks ++ s)
  = ticks ++ replace_from fence_json [] 0 s.
Proof.
  intros Ht Hb Hj. induction Ht as [|c ticks -> Ht IH]; [done|].
  rewrite <- !app_comm_cons. rewrite replace_from_no_match; [by rewrite IH|].
  clear IH. change fence_json with (backtick :: backtick :: backtick :: 0x6A :: lit "son").
  rewrite startswith_cons, N.eqb_refl. cbn [andb].
  destruct Ht as [|c1 t1 -> Ht]; cbn [app].
  { destruct s as [|x s]; [done|]. rewrite startswith_cons.
    rewrite startswith_one in Hb. by rewrite Hb. }
  rewrite startswith_cons, N.eqb_refl. cbn [andb].
  destruct Ht as [|c2 t2 -> Ht]; cbn [app].
  { destruct s as [|x s]; [done|]. rewrite startswith_cons.
    rewrite startswith_one in Hb. by rewrite Hb. }
  rewrite startswith_cons, N.eqb_refl. cbn [andb].
  destruct Ht as [|c3 t3 -> Ht]; cbn [app].
  { destruct s as [|x s]; [done|]. rewrite startswith_cons.
    rewrite startswith_one in Hj. by rewrite Hj. }
  by rewrite startswith_cons.
Qed.

Lemma startswith_nil_or_space (pre : codepoint) (s : str) :
  forallb isspace s = true → isspace pre = false → startswith [pre] s = false.
Proof.
  destruct s as [|c s]; [done|]. cbn [forallb]. rewrite startswith_one.
  intros [Hc _]%andb_true_iff Hp.
  apply N.eqb_neq. intros ->; congruence.
Qed.

Lemma startswith_no_backtick (s : str) :
  Forall (λ c, c ≠ backtick) s → startswith [backtick] s = false.
Proof.
  intros [|c s' Hc _]; [done|]. rewrite startswith_one.
  apply N.eqb_neq. congruence.
Qed.

Lemma startswith_app_head (pre : codepoint) (s t : str) :
  startswith [pre] s = false → startswith [pre] t = false →
  startswith [pre] (s ++ t) = false.
Proof. by destruct s. Qed.

Lemma replace_from_clean (old new : str) (o : codepoint) (old' a : str) :
  old = o :: old' → Forall (λ c, c ≠ o) a → replace_from old new 0 a = a.
Proof.
  intros Ho Ha. rewrite <- (app_nil_r a) at 1.
  rewrite (replace_from_prefix old new o old' a []) by done.
  apply app_nil_r.
Qed.

Lemma delete_fence_head (s : str) :
  replace_from fence [] 0 (fence ++ s) = replace_from fence [] 0 s.
Proof.
  change (fence ++ s) with (backtick :: backtick :: backtick :: s).
  rewrite replace_from_match; [reflexivity|].
  apply (startswith_app fence).
Qed.

Lemma delete_json_head (s : str) :
  replace_from fence_json [] 0 (fence_json ++ s) = replace_from fence_json [] 0 s.
Proof.
  change (fence_json ++ s) with (backtick :: (tl fence_json ++ s)).
  rewrite replace_from_match; [reflexivity|].
  apply (startswith_app fence_json).
Qed.

(** The two passes over a body without backticks, a closing fence or none,
    and trailing whitespace. *)
Lemma delete_json_tail (body closing w2 : str) :
  Forall (λ c, c ≠ backtick) body →
  closing = [] ∨ closing = fence →
  forallb isspace w2 = true →
  replace_from fence_json [] 0 (body ++ closing ++ w2) = body ++ closing ++ w2.
Proof.
  intros Hbody Hcl Hw2.
  rewrite (replace_from_prefix fence_json [] backtick (tl fence_json)) by done.
  rewrite keep_ticks_json.
  - rewrite (replace_from_clean fence_json [] backtick (tl fence_json)); [done..|].
    by apply spaces_no_backtick.
  - destruct Hcl as [-> | ->]; [constructor|]. rewrite fence_eq. by repeat constructor.
  - by apply startswith_nil_or_space.
  - by apply startswith_nil_or_space.
Qed.

Lemma delete_fence_tail (body closing w2 : str) :
  Forall (λ c, c ≠ backtick) body →
  closing = [] ∨ closing = fence →
  forallb isspace w2 = true →
  replace_from fence [] 0 (body ++ closing ++ w2) = body ++ w2.
Proof.
  intros Hbody Hcl Hw2.
  rewrite (replace_from_prefix fence [] backtick (tl fence)) by done.
  f_equal. apply spaces_no_backtick in Hw2.
  destruct Hcl as [-> | ->].
  - by apply (replace_from_clean fence [] backtick (tl fence)).
  - rewrite delete_fence_head.
    by apply (replace_from_clean fence [] backtick (tl fence)).
Qed.




(** ** Base64 *)

Ltac Zify.zify_post_hook ::= Z.to_euclidean_division_equations.

Lemma list_ind3 {A} (P : list A → Prop) :
  P [] → (∀ a, P [a]) → (∀ a b, P [a; b]) →
  (∀ a b c l, P l → P (a :: b :: c :: l)) →
  ∀ l, P l.
Proof.
  intros H0 H1 H2 H3. fix IH 1.
  intros [|a [|b [|c l]]]; [done..|]. apply H3, IH.
Qed.

Lemma byte_of_to_N (b : byte) : byte_of_N (Byte.to_N b) = b.
Proof. unfold byte_of_N. by rewrite Byte.of_to_N. Qed.

Lemma to_N_byte_of (n : N) : n < 256 → Byte.to_N (byte_of_N n) = n.
Proof.
  intros Hn. unfold byte_of_N.
  pose proof (Byte.to_of_N_option_map n) as E.
  replace (n <=? 255) with true in E by (symmetry; apply N.leb_le; lia).
  destruct (Byte.of_N n); simpl in E; congruence.
Qed.

Lemma to_N_lt (b : byte) : Byte.to_N b < 256.
Proof. pose proof (Byte.to_N_bounded b). lia. Qed.

(** The alphabet: every sextet has a character, which is ASCII, is not the
    padding character, and has the sextet as its value. *)
Lemma b64_char_spec (n : N) :
  n < 64 →
  b64_value (b64_char n) = Some n
  ∧ (b64_char n =? b64_pad) = false
  ∧ (b64_char n <? 128) = true.
Proof.
  intros Hn.
  assert (forallb b64_char_ok (map N.of_nat (seq 0 64)) = true) as Hall
    by (vm_compute; reflexivity).
  rewrite forallb_forall in Hall.
  assert (In n (map N.of_nat (seq 0 64))) as Hin.
  { apply in_map_iff. exists (N.to_nat n). split; [lia|]. apply in_seq. lia. }
  apply Hall in Hin. unfold b64_char_ok in Hin.
  destruct (b64_value (b64_char n)) as [m|]; [|done].
  apply andb_true_iff in Hin as [Hin Ha].
  apply andb_true_iff in Hin as [Hm Hp].
  apply N.eqb_eq in Hm as ->. by apply negb_true_iff in Hp.
Qed.

Lemma b64_char_ascii (n : N) : n < 64 → (b64_char n <? 128) = true.
Proof. by intros (_ & _ & ?)%b64_char_spec. Qed.

(** One character of data in the decoding loop. *)
Lemma a2b_base64_char (n : N) (quad_pos : nat) (leftchar : N) (pads : nat)
    (out : list byte) (s : str) :
  n < 64 →
  a2b_base64 quad_pos leftchar pads out (b64_char n :: s)
  = match quad_pos with
    | 0%nat => a2b_base64 1 n 0 out s
    | 1%nat => a2b_base64 2 (n mod 16) 0 (byte_of_N (leftchar * 4 + n / 16) :: out) s
    | 2%nat => a2b_base64 3 (n mod 4) 0 (byte_of_N (leftchar * 16 + n / 4) :: out) s
    | _ => a2b_base64 0 0 0 (byte_of_N (leftchar * 64 + n) :: out) s
    end.
Proof.
  intros (Hv & Hp & _)%b64_char_spec. cbn [a2b_base64]. by rewrite Hp, Hv.
Qed.

Lemma a2b_base64_b64encode (data out : list byte) :
  a2b_base64 0 0 0 out (b64encode data) = Some (rev out ++ data).
Proof.
  revert out. induction data as [|a|a b|a b c data IH] using list_ind3; intros out.
  - cbn. by rewrite app_nil_r.
  - cbn [b64encode]. pose proof (to_N_lt a).
    rewrite !a2b_base64_char by lia. cbn.
    replace (_ + _) with (Byte.to_N a) by lia.
    by rewrite byte_of_to_N.
  - cbn [b64encode]. pose proof (to_N_lt a). pose proof (to_N_lt b).
    rewrite !a2b_base64_char by lia. cbn.
    replace (Byte.to_N a / 4 * 4 + _) with (Byte.to_N a) by lia.
    replace (_ mod 16 * 16 + _) with (Byte.to_N b) by lia.
    by rewrite !byte_of_to_N, <- ?app_assoc.
  - cbn [b64encode app]. pose proof (to_N_lt a). pose proof (to_N_lt b).
    pose proof (to_N_lt c).
    rewrite !a2b_base64_char by lia. rewrite IH. cbn [rev].
    replace (Byte.to_N a / 4 * 4 + _) with (Byte.to_N a) by lia.
    replace (_ mod 16 * 16 + _) with (Byte.to_N b) by lia.
    replace (_ mod 4 * 64 + _) with (Byte.to_N c) by lia.
    by rewrite !byte_of_to_N, <- ?app_assoc.
Qed.

Lemma b64encode_ascii (data : list byte) :
  forallb (λ c, c <? 128) (b64encode data) = true.
Proof.
  induction data as [|a|a b|a b c data IH] using list_ind3.
  - done.
  - cbn [b64encode forallb]. pose proof (to_N_lt a).
    rewrite !b64_char_ascii by lia. done.
  - cbn [b64encode forallb]. pose proof (to_N_lt a). pose proof (to_N_lt b).
    rewrite !b64_char_ascii by lia. done.
  - cbn [b64encode forallb app]. pose proof (to_N_lt a). pose proof (to_N_lt b).
    pose proof (to_N_lt c).
    rewrite !b64_char_ascii by lia. by rewrite IH.
Qed.

(** Decoding what was encoded gives the bytes back. *)
Lemma b64decode_b64encode (data : list byte) :
  b64decode (b64encode data) = Some data.
Proof.
  unfold b64decode. rewrite b64encode_ascii. apply a2b_base64_b64encode.
Qed.

(** ** Local time and its format *)

Section Calendar.
Local Open Scope Z_scope.

Lemma date_lt_trans (a b c : Z * Z * Z) : date_lt a b → date_lt b c → date_lt a c.
Proof.
  destruct a as [[y1 m1] n1], b as [[y2 m2] n2], c as [[y3 m3] n3].
  unfold date_lt. lia.
Qed.

Lemma date_lt_irrefl (a : Z * Z * Z) : ¬ date_lt a a.
Proof. destruct a as [[y m] d]. unfold date_lt. lia. Qed.

Lemma next_day_lt (a : Z * Z * Z) : date_lt a (next_day a).
Proof.
  destruct a as [[y m] d]. unfold next_day.
  destruct (d <? days_in_month y m) eqn:Hd; [unfold date_lt; lia|].
  destruct (m <? 12) eqn:Hm; unfold date_lt; lia.
Qed.

Lemma date_iter_S (n : nat) : date_iter (S n) = next_day (date_iter n).
Proof. reflexivity. Qed.

Lemma date_iter_lt (n m : nat) : (n < m)%nat → date_lt (date_iter n) (date_iter m).
Proof.
  induction 1 as [|m Hm IH]; rewrite date_iter_S.
  - apply next_day_lt.
  - eapply date_lt_trans; [exact IH | apply next_day_lt].
Qed.

Lemma date_iter_inj (n m : nat) : date_iter n = date_iter m → n = m.
Proof.
  intros E. destruct (Nat.lt_trichotomy n m) as [Hlt | [-> | Hlt]]; [|done|].
  - apply date_iter_lt in Hlt. rewrite E in Hlt. by apply date_lt_irrefl in Hlt.
  - apply date_iter_lt in Hlt. rewrite E in Hlt. by apply date_lt_irrefl in Hlt.
Qed.

Lemma days_in_month_range (y m : Z) : 28 ≤ days_in_month y m ≤ 31.
Proof.
  unfold days_in_month.
  destruct (m =? 2); [destruct (is_leap y); lia|].
  destruct ((m =? 4) || (m =? 6) || (m =? 9) || (m =? 11))%bool; lia.
Qed.

Lemma date_iter_range (n : nat) :
  let '(y, m, d) := date_iter n in
  1 ≤ m ≤ 12 ∧ 1 ≤ d ≤ days_in_month y m.
Proof.
  induction n as [|n IH]; [by cbn|].
  rewrite date_iter_S. destruct (date_iter n) as [[y m] d].
  unfold next_day.
  destruct (d <? days_in_month y m) eqn:Hd; [lia|].
  pose proof (days_in_month_range y (m + 1)).
  pose proof (days_in_month_range (y + 1) 1).
  destruct (m <? 12) eqn:Hm; lia.
Qed.

(** Day 719162 is 1970-01-01, so both counts agree. *)
Lemma date_iter_epoch : Nat.iter (Z.to_nat 719162) next_day (1, 1, 1) = (1970, 1, 1).
Proof. vm_compute. reflexivity. Qed.

Lemma date_of_days_iter (n : Z) : date_of_days n = date_iter (Z.to_nat n).
Proof.
  unfold date_of_days. destruct (n <? 719162) eqn:Hn; [done|].
  replace (Z.to_nat n) with (Z.to_nat (n - 719162) + Z.to_nat 719162)%nat by lia.
  unfold date_iter. rewrite Nat.iter_add. by rewrite date_iter_epoch.
Qed.

(** Different days have different dates. *)
Lemma date_of_days_inj (n m : Z) :
  0 ≤ n → 0 ≤ m → date_of_days n = date_of_days m → n = m.
Proof.
  intros Hn Hm. rewrite !date_of_days_iter. intros E%date_iter_inj. lia.
Qed.

(** Month and day of a date are in range. *)
Lemma date_of_days_range (n : Z) :
  let '(y, m, d) := date_of_days n in
  1 ≤ m ≤ 12 ∧ 1 ≤ d ≤ days_in_month y m.
Proof. rewrite date_of_days_iter. apply date_iter_range. Qed.

Lemma digit_inj (a b : Z) : digit a = digit b → a mod 10 = b mod 10.
Proof. unfold digit. lia. Qed.

Lemma fmt2_inj (a b : Z) : 0 ≤ a < 100 → 0 ≤ b < 100 → fmt2 a = fmt2 b → a = b.
Proof.
  intros Ha Hb E. unfold fmt2 in E.
  injection E as E1%digit_inj E2%digit_inj. lia.
Qed.

Lemma fmtY_four (y : Z) :
  1000 ≤ y → fmtY y = [digit (y / 1000); digit (y / 100); digit (y / 10); digit y].
Proof.
  intros Hy. unfold fmtY.
  by rewrite !(proj2 (Z.leb_le _ _)) by lia.
Qed.

Lemma fmtY_inj (a b : Z) :
  1000 ≤ a ≤ 9999 → 1000 ≤ b ≤ 9999 → fmtY a = fmtY b → a = b.
Proof.
  intros Ha Hb E. rewrite !fmtY_four in E by lia.
  injection E as E1%digit_inj E2%digit_inj E3%digit_inj E4%digit_inj. lia.
Qed.

(** A time that [localtime] returns has its fields in range. *)
Lemma localtime_range (zone : timezone) (t : Z) (d : datetime) :
  localtime zone t = Some d →
  year d ≤ 9999 ∧ 1 ≤ month d ≤ 12 ∧ 1 ≤ day d ≤ 31
  ∧ 0 ≤ hour d < 24 ∧ 0 ≤ minute d < 60 ∧ 0 ≤ second d < 60.
Proof.
  unfold localtime.
  set (wall := t / 1000000 + zone (t / 1000000) + epoch_offset).
  destruct (wall <? 0) eqn:Hw; [done|].
  pose proof (date_of_days_range (wall / 86400)) as Hr.
  destruct (date_of_days _) as [[y m] dd].
  destruct (9999 <? y) eqn:Hy; [done|].
  intros [= <-]. cbn.
  pose proof (days_in_month_range y m). lia.
Qed.

(** The format determines the fields it shows. *)
Lemma strftime_inj (a b : datetime) :
  1000 ≤ year a ≤ 9999 → 1000 ≤ year b ≤ 9999 →
  0 ≤ month a < 100 → 0 ≤ month b < 100 →
  0 ≤ day a < 100 → 0 ≤ day b < 100 →
  0 ≤ hour a < 100 → 0 ≤ hour b < 100 →
  0 ≤ minute a < 100 → 0 ≤ minute b < 100 →
  0 ≤ second a < 100 → 0 ≤ second b < 100 →
  strftime_Ymd_HMS a = strftime_Ymd_HMS b →
  year a = year b ∧ month a = month b ∧ day a = day b
  ∧ hour a = hour b ∧ minute a = minute b ∧ second a = second b.
Proof.
  intros Hya Hyb Hma Hmb Hda Hdb Hha Hhb Hia Hib Hsa Hsb E.
  unfold strftime_Ymd_HMS in E. rewrite !fmtY_four in E by lia.
  unfold fmt2 in E. cbn [app lit] in E.
  injection E as Y1%digit_inj Y2%digit_inj Y3%digit_inj Y4%digit_inj
    M1%digit_inj M2%digit_inj D1%digit_inj D2%digit_inj
    H1%digit_inj H2%digit_inj I1%digit_inj I2%digit_inj
    S1%digit_inj S2%digit_inj.
  repeat split; lia.
Qed.

Lemma strftime_length (d : datetime) :
  1000 ≤ year d → length (strftime_Ymd_HMS d) = 15%nat.
Proof.
  intros Hy. unfold strftime_Ymd_HMS. by rewrite fmtY_four.
Qed.

(** Two instants under the same UTC offset whose local times are shown
    alike lie in the same second. *)
Lemma localtime_same_second (zone zone' : timezone) (t t' : Z) (d d' : datetime) :
  localtime zone t = Some d →
  localtime zone' t' = Some d' →
  zone (t / 1000000) = zone' (t' / 1000000) →
  1000 ≤ year d → 1000 ≤ year d' →
  strftime_Ymd_HMS d = strftime_Ymd_HMS d' →
  t / 1000000 = t' / 1000000.
Proof.
  intros Hd Hd' Hoff Hy Hy' E.
  pose proof (localtime_range _ _ _ Hd) as R.
  pose proof (localtime_range _ _ _ Hd') as R'.
  apply strftime_inj in E; [|lia..].
  destruct E as (Ey & Em & Eday & Eh & Emi & Es).
  clear R R'. unfold localtime in Hd, Hd'. rewrite <- Hoff in Hd'.
  set (off := zone (t / 1000000)) in *.
  set (wall := t / 1000000 + off + epoch_offset) in *.
  set (wall' := t' / 1000000 + off + epoch_offset) in *.
  destruct (wall <? 0) eqn:Hw; [done|].
  destruct (wall' <? 0) eqn:Hw'; [done|].
  destruct (date_of_days (wall / 86400)) as [[y m] dd] eqn:Hdate.
  destruct (date_of_days (wall' / 86400)) as [[y' m'] dd'] eqn:Hdate'.
  destruct (9999 <? y); [done|]. destruct (9999 <? y'); [done|].
  injection Hd as <-. injection Hd' as <-. cbn in *.
  assert (wall / 86400 = wall' / 86400) as Hdays.
  { apply date_of_days_inj; [lia..|]. rewrite Hdate, Hdate'. congruence. }
  assert (wall = wall') by lia. lia.
Qed.
End Calendar.

(** ** Running the program *)

Lemma bind_eq {A B} (m : M A) (k : A → M B) (w : World) :
  (m ≫= k) w
  = match m w with
    | (Ok a, w') => k a w'
    | (Raise e, w') => (Raise e, w')
    end.
Proof. reflexivity. Qed.

Lemma mret_eq {A} (a : A) (w : World) : (mret a : M A) w = (Ok a, w).
Proof. reflexivity. Qed.

Lemma bild_als_base64_eq (pfad : str) (data : list byte) (w : World) :
  files w !! pfad = Some (File data) →
  bild_als_base64 pfad w = (Ok (b64encode data), log (EvOpenRead pfad) w).
Proof.
  intros Hf. unfold bild_als_base64. rewrite bind_eq.
  unfold read_binary. cbn [files log]. by rewrite Hf.
Qed.

(** C5.  For a path that names a file, [bild_als_base64] returns a text that
    base64 decoding turns back into the bytes of the file. *)
Theorem bild_als_base64_roundtrip (pfad : str) (data : list byte) (w : World) :
  files w !! pfad = Some (File data) →
  ∃ text w', bild_als_base64 pfad w = (Ok text, w') ∧ b64decode text = Some data.
Proof.
  intros Hf. eexists _, _. split; [by apply bild_als_base64_eq|].
  apply b64decode_b64encode.
Qed.

Lemma bild_als_base64_roundtrip_witness :
  let w := demo_world {[ lit "tafel.jpg" := File [xff; xd8; xff; xe0] ]} [] [] in
  ∃ text w', bild_als_base64 (lit "tafel.jpg") w = (Ok text, w')
             ∧ b64decode text = Some [xff; xd8; xff; xe0].
Proof.
  apply (bild_als_base64_roundtrip (lit "tafel.jpg") [xff; xd8; xff; xe0]).
  vm_compute. reflexivity.
Defined.

Lemma zeitstempel_eq (w : World) (d : datetime) :
  localtime (tz w) (next_reading w) = Some d →
  (zeitstempel w).1 = Ok (strftime_Ymd_HMS d).
Proof.
  intros Hd. unfold zeitstempel. rewrite bind_eq.
  unfold datetime_now. cbn [tz]. by rewrite Hd.
Qed.

Lemma strftime_layout (d : datetime) :
  (1000 ≤ year d)%Z →
  strftime_Ymd_HMS d
  = [digit (year d / 1000); digit (year d / 100); digit (year d / 10); digit (year d);
     digit (month d / 10); digit (month d); digit (day d / 10); digit (day d);
     0x5F;
     digit (hour d / 10); digit (hour d); digit (minute d / 10); digit (minute d);
     digit (second d / 10); digit (second d)].
Proof. intros Hy. unfold strftime_Ymd_HMS. by rewrite fmtY_four. Qed.

Lemma localtime_in_second (zone zone' : timezone) (t t' : Z) (d d' : datetime) :
  localtime zone t = Some d →
  localtime zone' t' = Some d' →
  zone (t / 1000000)%Z = zone' (t' / 1000000)%Z →
  (t / 1000000 = t' / 1000000)%Z →
  strftime_Ymd_HMS d = strftime_Ymd_HMS d'.
Proof.
  unfold localtime. intros Hd Hd' Hoff Hsec. rewrite <- Hoff, <- Hsec in Hd'.
  destruct (_ <? 0)%Z; [done|].
  destruct (date_of_days _) as [[y m] dd]. destruct (9999 <? y)%Z; [done|].
  injection Hd as <-. by injection Hd' as <-.
Qed.




(** ** The analysis client and the callback *)

Section Pipeline.
Context `{FloatRepr}.

Lemma analysiere_whiteboard_eq (self : WhiteboardAssistent) (bild_base64 reply : str)
    (more : list reply_block) (w : World) :
  client self (anfrage bild_base64) = Some (TextBlock reply :: more) →
  analysiere_whiteboard self bild_base64 w
  = (match json_loads (bereinigt reply) with
     | Some ergebnis => Ok ergebnis
     | None => Raise JSONDecodeError
     end, log (EvRequest (anfrage bild_base64)) w).
Proof.
  intros Hc. unfold analysiere_whiteboard. rewrite bind_eq.
  unfold messages_create. rewrite Hc. rewrite bind_eq. cbn [first_text].
  rewrite mret_eq. by destruct (json_loads _).
Qed.

Lemma analysiere_whiteboard_trace (self : WhiteboardAssistent) (bild_base64 : str)
    (w : World) :
  (analysiere_whiteboard self bild_base64 w).2
  = log (EvRequest (anfrage bild_base64)) w.
Proof.
  unfold analysiere_whiteboard. rewrite bind_eq. unfold messages_create.
  destruct (client self _) as [[|[text|] more]|]; try done.
  rewrite bind_eq. cbn [first_text]. rewrite mret_eq. by destruct (json_loads _).
Qed.

(** C8.  Whatever the image text and the reply, [analysiere_whiteboard] sends
    one request; its budget of output tokens is 3000 and its image block
    declares the media type image/jpeg. *)
Theorem analysiere_whiteboard_request (self : WhiteboardAssistent)
    (bild_base64 : str) (w : World) :
  ∃ req text,
    trace (analysiere_whiteboard self bild_base64 w).2 = trace w ++ [EvRequest req]
    ∧ max_tokens req = 3000%Z
    ∧ messages req
      = [ {| role := lit "user";
             content := [TextContent text;
                         ImageContent (lit "base64") (lit "image/jpeg") bild_base64] |} ].
Proof.
  eexists (anfrage bild_base64), _. rewrite analysiere_whiteboard_trace.
  split; [reflexivity|]. split; reflexivity.
Qed.

(** C3.  When the reply is the fenced text of the first scenario, the
    analysis client returns the notes with topic X and summary Y; when it is
    the unfenced text of the second scenario, it returns the notes with topic
    A and summary B, which is what the reply parses to as it stands. *)
Theorem analysiere_whiteboard_scenarios (self : WhiteboardAssistent)
    (bild_base64 reply : str) (more : list reply_block) (w : World) :
  client self (anfrage bild_base64) = Some (TextBlock reply :: more) →
  (reply = fenced_reply →
   (analysiere_whiteboard self bild_base64 w).1 = Ok (notes (lit "X") (lit "Y")))
  ∧ (reply = plain_reply →
     (analysiere_whiteboard self bild_base64 w).1 = Ok (notes (lit "A") (lit "B"))
     ∧ json_loads reply = Some (notes (lit "A") (lit "B"))).
Proof.
  intros Hc. rewrite (analysiere_whiteboard_eq _ _ _ _ _ Hc).
  split; intros ->; [|split]; by vm_compute.
Qed.

(** *** The trace only grows *)

Lemma grows_ret {A} (a : A) : grows (mret a : M A).
Proof. intros w. exists []. by rewrite app_nil_r. Qed.

Lemma grows_raise {A} (e : exception) : grows (raise e : M A).
Proof. intros w. exists []. by rewrite app_nil_r. Qed.

Lemma grows_bind {A B} (m : M A) (k : A → M B) :
  grows m → (∀ a, grows (k a)) → grows (m ≫= k).
Proof.
  intros Hm Hk w. rewrite bind_eq. destruct (Hm w) as [t Ht].
  destruct (m w) as [[a|e] w1]; cbn [snd] in *.
  - destruct (Hk a w1) as [t' Ht']. exists (t ++ t').
    by rewrite Ht', Ht, app_assoc.
  - by exists t.
Qed.

Lemma grows_read_binary (pfad : str) : grows (read_binary pfad).
Proof.
  intros w. exists [EvOpenRead pfad]. unfold read_binary.
  by destruct (files (log _ w) !! pfad) as [[|]|].
Qed.

Lemma grows_mkdir_exist_ok (pfad : str) : grows (mkdir_exist_ok pfad).
Proof.
  intros w. exists [EvMkdir pfad]. unfold mkdir_exist_ok.
  by destruct (files (log _ w) !! pfad) as [[|]|].
Qed.

Lemma grows_datetime_now : grows datetime_now.
Proof.
  intros w. exists [EvClock]. unfold datetime_now. cbn [tz].
  by destruct (localtime _ _).
Qed.

Lemma grows_open_write (pfad : str) : grows (open_write pfad).
Proof.
  intros w. exists [EvOpenWrite pfad]. unfold open_write.
  by destruct (files (log _ w) !! pfad) as [[|]|].
Qed.

Lemma grows_write (pfad chunk : str) : grows (write pfad chunk).
Proof.
  intros w. exists [EvWrite pfad chunk]. unfold write.
  destruct (utf8_encode chunk); [|done].
  by destruct (files (log _ w) !! pfad) as [[|]|].
Qed.

Lemma grows_write_chunks (pfad : str) (chunks : list str) :
  grows (write_chunks pfad chunks).
Proof.
  induction chunks as [|chunk chunks IH]; [apply grows_ret|].
  cbn [write_chunks]. apply grows_bind; [apply grows_write | done].
Qed.

Lemma grows_zeitstempel : grows zeitstempel.
Proof.
  apply grows_bind; [apply grows_datetime_now | intros; apply grows_ret].
Qed.

(** The first thing [json_speichern] does is to make the directory. *)
Lemma json_speichern_trace (daten : pyval) (w : World) :
  ∃ t, trace (json_speichern daten w).2 = trace w ++ EvMkdir export_dir :: t.
Proof.
  unfold json_speichern. rewrite bind_eq.
  assert (∃ r w1, mkdir_exist_ok (lit "whiteboard_exports") w = (r, w1)
                  ∧ trace w1 = trace w ++ [EvMkdir export_dir]) as (r & w1 & -> & Hw1).
  { unfold mkdir_exist_ok.
    destruct (files (log _ w) !! _) as [[|]|]; by eexists _, _. }
  destruct r as [[]|e]; cbn [snd].
  - match goal with |- context [?k w1] => assert (grows k) as Hk end.
    { apply grows_bind; [apply grows_zeitstempel|]. intros stempel.
      apply grows_bind; [apply grows_open_write|]. intros _.
      apply grows_bind; [apply grows_write_chunks|]. intros _. apply grows_ret. }
    destruct (Hk w1) as [t Ht]. exists t. rewrite Ht, Hw1.
    by rewrite <- app_assoc.
  - exists []. by rewrite Hw1.
Qed.


(** C9.  When the callback succeeds, it has run [bild_als_base64], then
    [analysiere_whiteboard] on its result, then [json_speichern] on the
    result of that, each in the world the one before left behind; it returns
    the parsed result and a status text that ends with the path
    [json_speichern] returned. *)
Theorem verarbeite_whiteboard_sequence (bild_datei : str) (w : World)
    (ergebnis : pyval) (status : str) :
  (verarbeite_whiteboard bild_datei w).1 = Ok (ergebnis, status) →
  ∃ b64 w1 w2 speicherort t,
    bild_als_base64 bild_datei w = (Ok b64, w1)
    ∧ analysiere_whiteboard {| client := hosted_model w |} b64 w1 = (Ok ergebnis, w2)
    ∧ json_speichern ergebnis w2
      = (Ok speicherort, (verarbeite_whiteboard bild_datei w).2)
    ∧ status = lit "Gespeichert unter: " ++ speicherort
    ∧ trace (verarbeite_whiteboard bild_datei w).2
      = trace w ++ [EvOpenRead bild_datei; EvRequest (anfrage b64);
                    EvMkdir export_dir] ++ t.
Proof.
  unfold verarbeite_whiteboard. rewrite bind_eq. cbn [WhiteboardAssistent_init].
  rewrite bind_eq.
  destruct (bild_als_base64 bild_datei w) as [[b64|e] w1] eqn:E1; [|done].
  rewrite bind_eq.
  destruct (analysiere_whiteboard _ b64 w1) as [[erg|e] w2] eqn:E2; [|done].
  rewrite bind_eq.
  destruct (json_speichern erg w2) as [[ort|e] w3] eqn:E3; [|done].
  rewrite mret_eq. cbn [fst snd]. intros [= -> <-].
  destruct (json_speichern_trace ergebnis w2) as [t Ht]. rewrite E3 in Ht.
  exists b64, w1, w2, ort, t. repeat split; try done.
  cbn [snd] in Ht. rewrite Ht.
  pose proof (analysiere_whiteboard_trace {| client := hosted_model w |} b64 w1) as H2.
  rewrite E2 in H2. cbn [snd] in H2. rewrite H2. cbn [trace log].
  assert (trace w1 = trace w ++ [EvOpenRead bild_datei]) as ->.
  { unfold bild_als_base64 in E1. rewrite bind_eq in E1. unfold read_binary in E1.
    destruct (files (log _ w) !! bild_datei) as [[|]|]; try done.
    rewrite mret_eq in E1. by injection E1 as _ <-. }
  by rewrite <- !app_assoc.
Qed.
End Pipeline.

(** *** The scenarios run *)

Lemma bereinigt_no_fence (rohtext : str) : ¬ occurs fence (bereinigt rohtext).
Proof.
  rewrite bereinigt_eq. intros Ho.
  destruct (strip_infix (replace_from fence [] 0 (replace_from fence_json [] 0 rohtext)))
    as (a & b & E).
  apply (delete_fence_none (replace_from fence_json [] 0 rohtext)).
  rewrite E. by apply occurs_infix.
Qed.


Lemma analysiere_whiteboard_scenarios_witness :
  (analysiere_whiteboard (H := repr_literal) (stub_assistent fenced_reply)
     (b64encode tafel_jpg) (tafel_world fenced_reply)).1
  = Ok (notes (lit "X") (lit "Y")).
Proof.
  apply (analysiere_whiteboard_scenarios (H := repr_literal)
           (stub_assistent fenced_reply) (b64encode tafel_jpg) fenced_reply []
           (tafel_world fenced_reply)); reflexivity.
Defined.


Lemma verarbeite_whiteboard_sequence_witness :
  let w := tafel_world fenced_reply in
  let run := verarbeite_whiteboard (H := repr_literal) (lit "tafel.jpg") w in
  ∃ b64 w1 w2 t,
    bild_als_base64 (lit "tafel.jpg") w = (Ok b64, w1)
    ∧ analysiere_whiteboard (H := repr_literal) {| client := hosted_model w |} b64 w1
      = (Ok (notes (lit "X") (lit "Y")), w2)
    ∧ json_speichern (H := repr_literal) (notes (lit "X") (lit "Y")) w2
      = (Ok (export_path (lit "20241027_023000")), run.2)
    ∧ trace run.2
      = trace w ++ [EvOpenRead (lit "tafel.jpg"); EvRequest (anfrage (H := repr_literal) b64);
                    EvMkdir export_dir] ++ t.
Proof.
  intros w run.
  destruct (verarbeite_whiteboard_sequence (H := repr_literal) (lit "tafel.jpg") w
              (notes (lit "X") (lit "Y"))
              (lit "Gespeichert unter: " ++ export_path (lit "20241027_023000")))
    as (b64 & w1 & w2 & ort & t & E1 & E2 & E3 & Es & Et).
  - vm_compute. reflexivity.
  - apply app_inv_head in Es as <-. exists b64, w1, w2, t.
    exact (conj E1 (conj E2 (conj E3 Et))).
Defined.

(** ** UTF-8 *)

Lemma utf8_encode_app (a b : str) :
  utf8_encode (a ++ b)
  = match utf8_encode a, utf8_encode b with
    | Some x, Some y => Some (x ++ y)
    | _, _ => None
    end.
Proof.
  induction a as [|c a IH]; cbn [app utf8_encode].
  - by destruct (utf8_encode b).
  - rewrite IH. destruct (utf8_encode_char c), (utf8_encode a), (utf8_encode b);
      try done. by rewrite app_assoc.
Qed.

Lemma utf8_encode_scalar (s : str) :
  forallb is_scalar s = true → is_Some (utf8_encode s).
Proof.
  induction s as [|c s IH]; cbn [forallb utf8_encode]; [done|].
  intros [Hc Hs]%andb_true_iff. destruct (IH Hs) as [rest ->].
  unfold is_scalar in Hc. apply andb_true_iff in Hc as [Hlt Hsur].
  apply negb_true_iff in Hsur. unfold utf8_encode_char. rewrite Hsur, Hlt.
  by repeat case_match.
Qed.

Lemma utf8_encode_some_scalar (s : str) (data : list byte) :
  utf8_encode s = Some data → forallb is_scalar s = true.
Proof.
  revert data. induction s as [|c s IH]; intros data; cbn [forallb utf8_encode]; [done|].
  destruct (utf8_encode_char c) as [bs|] eqn:Hc; [|done].
  destruct (utf8_encode s) as [rest|]; [|done]. intros _.
  rewrite (IH rest) by done. rewrite andb_true_r.
  unfold utf8_encode_char, is_scalar in *.
  destruct (is_surrogate c) eqn:Hs.
  - unfold is_surrogate in Hs. N_bools.
    repeat case_match; N_bools; try done; lia.
  - repeat case_match; N_bools; try done; cbn; apply andb_true_iff; split; try done;
      apply N.ltb_lt; lia.
Qed.

(** The decoder reads back one encoded character. *)
Lemma utf8_decode_encode_char (c : codepoint) (bs rest : list byte) :
  utf8_encode_char c = Some bs →
  utf8_decode (bs ++ rest) = cons c <$> utf8_decode rest.
Proof.
  unfold utf8_encode_char. intros Hc.
  destruct (c <? 0x80) eqn:H1.
  { injection Hc as <-. N_bools. cbn [app utf8_decode].
    rewrite to_N_byte_of by lia.
    by replace (c <? 0x80) with true by (symmetry; apply N.ltb_lt; lia). }
  destruct (c <? 0x800) eqn:H2.
  { injection Hc as <-. N_bools. cbn [app utf8_decode].
    unfold is_continuation, payload. rewrite !to_N_byte_of by lia.
    replace (0xC0 + c / 64 <? 0x80) with false by (symmetry; apply N.ltb_ge; lia).
    replace (0xC0 + c / 64 <? 0xC2) with false by (symmetry; apply N.ltb_ge; lia).
    replace (0xC0 + c / 64 <? 0xE0) with true by (symmetry; apply N.ltb_lt; lia).
    replace (0x80 <=? 0x80 + c mod 64) with true by (symmetry; apply N.leb_le; lia).
    replace (0x80 + c mod 64 <? 0xC0) with true by (symmetry; apply N.ltb_lt; lia).
    cbn [andb]. do 2 f_equal. lia. }
  destruct (c <? 0x10000) eqn:H3.
  { destruct (is_surrogate c) eqn:Hs; [done|]. injection Hc as <-. N_bools.
    cbn [app utf8_decode].
    unfold is_continuation, payload. rewrite !to_N_byte_of by lia.
    replace (0xE0 + c / 4096 <? 0x80) with false by (symmetry; apply N.ltb_ge; lia).
    replace (0xE0 + c / 4096 <? 0xC2) with false by (symmetry; apply N.ltb_ge; lia).
    replace (0xE0 + c / 4096 <? 0xE0) with false by (symmetry; apply N.ltb_ge; lia).
    replace (0xE0 + c / 4096 <? 0xF0) with true by (symmetry; apply N.ltb_lt; lia).
    replace (0x80 <=? 0x80 + c / 64 mod 64) with true by (symmetry; apply N.leb_le; lia).
    replace (0x80 + c / 64 mod 64 <? 0xC0) with true by (symmetry; apply N.ltb_lt; lia).
    replace (0x80 <=? 0x80 + c mod 64) with true by (symmetry; apply N.leb_le; lia).
    replace (0x80 + c mod 64 <? 0xC0) with true by (symmetry; apply N.ltb_lt; lia).
    replace ((0xE0 + c / 4096 - 0xE0) * 4096 + (0x80 + c / 64 mod 64 - 0x80) * 64
             + (0x80 + c mod 64 - 0x80)) with c by lia.
    rewrite Hs. by replace (0x800 <=? c) with true by (symmetry; apply N.leb_le; lia). }
  destruct (c <? 0x110000) eqn:H4; [|done].
  injection Hc as <-. N_bools. cbn [app utf8_decode].
  unfold is_continuation, payload. rewrite !to_N_byte_of by lia.
  replace (0xF0 + c / 262144 <? 0x80) with false by (symmetry; apply N.ltb_ge; lia).
  replace (0xF0 + c / 262144 <? 0xC2) with false by (symmetry; apply N.ltb_ge; lia).
  replace (0xF0 + c / 262144 <? 0xE0) with false by (symmetry; apply N.ltb_ge; lia).
  replace (0xF0 + c / 262144 <? 0xF0) with false by (symmetry; apply N.ltb_ge; lia).
  replace (0xF0 + c / 262144 <? 0xF5) with true by (symmetry; apply N.ltb_lt; lia).
  replace (0x80 <=? 0x80 + c / 4096 mod 64) with true by (symmetry; apply N.leb_le; lia).
  replace (0x80 + c / 4096 mod 64 <? 0xC0) with true by (symmetry; apply N.ltb_lt; lia).
  replace (0x80 <=? 0x80 + c / 64 mod 64) with true by (symmetry; apply N.leb_le; lia).
  replace (0x80 + c / 64 mod 64 <? 0xC0) with true by (symmetry; apply N.ltb_lt; lia).
  replace (0x80 <=? 0x80 + c mod 64) with true by (symmetry; apply N.leb_le; lia).
  replace (0x80 + c mod 64 <? 0xC0) with true by (symmetry; apply N.ltb_lt; lia).
  replace ((0xF0 + c / 262144 - 0xF0) * 262144 + (0x80 + c / 4096 mod 64 - 0x80) * 4096
           + (0x80 + c / 64 mod 64 - 0x80) * 64 + (0x80 + c mod 64 - 0x80))
    with c by lia.
  replace (0x10000 <=? c) with true by (symmetry; apply N.leb_le; lia).
  by replace (c <? 0x110000) with true by (symmetry; apply N.ltb_lt; lia).
Qed.

(** Decoding what was encoded gives the text back. *)
Lemma utf8_decode_encode (s : str) (data : list byte) :
  utf8_encode s = Some data → utf8_decode data = Some s.
Proof.
  revert data. induction s as [|c s IH]; intros data; cbn [utf8_encode].
  - by intros [= <-].
  - destruct (utf8_encode_char c) as [bs|] eqn:Hc; [|done].
    destruct (utf8_encode s) as [rest|]; [|done]. intros [= <-].
    rewrite (utf8_decode_encode_char c bs rest Hc). by rewrite (IH rest).
Qed.

(** ** Storing the result *)

Section Persister.
Context `{FloatRepr}.

(** Writing the chunks appends their encodings to the file, up to the first
    chunk that cannot be encoded. *)
Lemma write_chunks_run (pfad : str) (chunks : list str) (w : World) (old : list byte) :
  files w !! pfad = Some (File old) →
  ∃ n bytes,
    files (write_chunks pfad chunks w).2 = <[pfad := File (old ++ bytes)]> (files w)
    ∧ clock_reads (write_chunks pfad chunks w).2 = clock_reads w
    ∧ trace (write_chunks pfad chunks w).2
      = trace w ++ map (EvWrite pfad) (take n chunks)
    ∧ match utf8_encode (concat chunks) with
      | Some encoded => (write_chunks pfad chunks w).1 = Ok () ∧ bytes = encoded
      | None => (write_chunks pfad chunks w).1 = Raise UnicodeEncodeError
      end.
Proof.
  revert w old. induction chunks as [|chunk chunks IH]; intros w old Hf.
  - exists 0%nat, []. cbn. rewrite !app_nil_r. by rewrite insert_id.
  - cbn [write_chunks concat]. rewrite bind_eq, utf8_encode_app.
    unfold write. cbn [files log]. destruct (utf8_encode chunk) as [b1|] eqn:Hb1.
    + rewrite Hf.
      set (w1 := set_files _ _).
      destruct (IH w1 (old ++ b1)) as (n & bytes & Hfiles & Hclock & Htrace & Hout).
      { subst w1. cbn. apply lookup_insert_eq. }
      exists (S n), (b1 ++ bytes). rewrite Hfiles, Hclock, Htrace. subst w1. cbn.
      rewrite insert_insert_eq, <- !app_assoc. repeat split.
      destruct (utf8_encode (concat chunks)) as [b2|]; [|done].
      destruct Hout as [-> ->]. done.
    + exists 1%nat, []. cbn. rewrite app_nil_r. by rewrite insert_id.
Qed.

Lemma export_path_not_dir (stempel : str) : export_path stempel ≠ export_dir.
Proof.
  unfold export_path. intros E.
  rewrite <- (app_nil_r export_dir) in E at 2. by apply app_inv_head in E.
Qed.

(** Writing the text into the file just opened, and returning its path. *)
Lemma json_dump_run (daten : pyval) (pfad : str) (w : World) :
  files w !! pfad = Some (File []) →
  ∃ content,
    files ((json_dump daten pfad ≫= λ _, mret pfad) w).2
    = <[pfad := File content]> (files w)
    ∧ clock_reads ((json_dump daten pfad ≫= λ _, mret pfad) w).2 = clock_reads w
    ∧ match utf8_encode (json_dumps daten) with
      | Some encoded =>
          ((json_dump daten pfad ≫= λ _, mret pfad) w).1 = Ok pfad ∧ content = encoded
      | None =>
          ((json_dump daten pfad ≫= λ _, mret pfad) w).1 = Raise UnicodeEncodeError
      end.
Proof.
  intros Hf. rewrite bind_eq. unfold json_dump, json_dumps.
  destruct (write_chunks_run pfad (iterencode 0 daten) w [] Hf)
    as (n & bytes & Hfiles & Hclock & _ & Hout).
  exists bytes.
  destruct (write_chunks pfad (iterencode 0 daten) w) as [[[]|e] w3] eqn:Ew;
    cbn [fst snd] in *.
  - rewrite mret_eq. cbn [fst snd]. repeat split; try done.
    destruct (utf8_encode (concat (iterencode 0 daten))); [|done].
    by destruct Hout as [_ ->].
  - repeat split; try done.
    destruct (utf8_encode (concat (iterencode 0 daten)));
      [by destruct Hout as [[=] _] | by injection Hout as ->].
Qed.

(** What [json_speichern] does when the name of the directory is not taken
    by a file, the clock can be read and the name of the export file is not
    taken by a directory: the directory exists afterwards, the export file
    holds the encoded text, or its beginning when the text cannot be encoded,
    and nothing else has changed. *)
Lemma json_speichern_run (daten : pyval) (w : World) (d : datetime) :
  (∀ content, files w !! export_dir ≠ Some (File content)) →
  localtime (tz w) (next_reading w) = Some d →
  files w !! export_path (strftime_Ymd_HMS d) ≠ Some Directory →
  ∃ content,
    files (json_speichern daten w).2
    = <[export_path (strftime_Ymd_HMS d) := File content]>
        (<[export_dir := Directory]> (files w))
    ∧ clock_reads (json_speichern daten w).2 = S (clock_reads w)
    ∧ match utf8_encode (json_dumps daten) with
      | Some encoded =>
          (json_speichern daten w).1 = Ok (export_path (strftime_Ymd_HMS d))
          ∧ content = encoded
      | None => (json_speichern daten w).1 = Raise UnicodeEncodeError
      end.
Proof.
  intros Hdir Hd Hpath. set (pfad := export_path (strftime_Ymd_HMS d)) in *.
  assert (∃ w1, mkdir_exist_ok (lit "whiteboard_exports") w = (Ok (), w1)
                ∧ files w1 = <[export_dir := Directory]> (files w)
                ∧ clock w1 = clock w ∧ clock_reads w1 = clock_reads w
                ∧ tz w1 = tz w) as (w1 & Hmk & Hf1 & Hc1 & Hr1 & Hz1).
  { unfold mkdir_exist_ok. cbn [files log].
    destruct (files w !! lit "whiteboard_exports") as [[content|]|] eqn:E.
    - by destruct (Hdir content).
    - eexists. split; [reflexivity|]. cbn. by rewrite insert_id.
    - eexists. split; [reflexivity|]. done. }
  unfold json_speichern. rewrite bind_eq, Hmk. rewrite bind_eq.
  unfold zeitstempel. rewrite bind_eq. unfold datetime_now, next_reading in *.
  cbn [tz]. rewrite Hz1, Hc1, Hr1, Hd. rewrite mret_eq.
  fold export_dir. fold (export_path (strftime_Ymd_HMS d)). fold pfad.
  rewrite bind_eq. unfold open_write. cbn [files log]. rewrite Hf1.
  rewrite lookup_insert_ne by (symmetry; apply export_path_not_dir).
  destruct (files w !! pfad) as [[old|]|] eqn:Epf; [|done|].
  all: set (w2 := set_files _ _).
  all: destruct (json_dump_run daten pfad w2) as (content & Hfiles & Hclock & Hout);
    [subst w2; cbn; apply lookup_insert_eq|].
  all: exists content; rewrite Hfiles, Hclock; subst w2; cbn.
  all: by rewrite insert_insert_eq.
Qed.

End Persister.


(** ** The decoder: progress and fuel *)

Lemma skip_ws_length (s : str) : (length (skip_ws s) ≤ length s)%nat.
Proof.
  induction s as [|c s IH]; cbn [skip_ws]; [done|].
  destruct (is_json_ws c); cbn [length]; lia.
Qed.

Lemma span_digits_app (s ds rest : str) :
  span_digits s = (ds, rest) → s = ds ++ rest.
Proof.
  revert ds rest. induction s as [|c s IH]; intros ds rest; cbn [span_digits].
  - by intros [= <- <-].
  - destruct (is_digit c); [|by intros [= <- <-]].
    destruct (span_digits s) as [ds' rest'] eqn:E. intros [= <- <-].
    cbn. f_equal. by apply IH.
Qed.

Lemma span_digits_length (s ds rest : str) :
  span_digits s = (ds, rest) → (length rest ≤ length s)%nat.
Proof. intros ->%span_digits_app. rewrite length_app. lia. Qed.

Ltac use_span_digits :=
  repeat match goal with
  | Hs : span_digits _ = (_, _) |- _ => apply span_digits_length in Hs
  end.

(** A string that is read ends before the text does. *)
Lemma scanstring_length (s content rest : str) :
  scanstring s = Some (content, rest) → (length rest < length s)%nat.
Proof.
  remember (length s) as n eqn:Hn. revert s content rest Hn.
  induction n as [n IH] using lt_wf_ind. intros s content rest -> Hs.
  destruct s as [|c s1]; [done|]. cbn [scanstring] in Hs.
  repeat case_match; simplify_eq; cbn [length] in *;
    repeat match goal with
    | Hr : scanstring ?x = Some (_, _) |- _ =>
        apply (λ Hlt, IH (length x) Hlt x _ _ eq_refl) in Hr; [|cbn [length]; lia]
    end; cbn [length] in *; lia.
Qed.

(** A number that is read takes at least one character. *)
Lemma match_number_length (s rest : str) (number : pyval) :
  match_number s = Some (number, rest) → (length rest < length s)%nat.
Proof.
  unfold match_number. intros Hm.
  repeat case_match; simplify_eq; use_span_digits; cbn [length] in *; lia.
Qed.

(** Turns what is known about scans into facts about lengths. *)
Ltac scan_lengths IHs IHa IHo :=
  repeat match goal with
  | Hs : scanstring _ = Some (_, _) |- _ => apply scanstring_length in Hs
  | Hs : match_number _ = Some (_, _) |- _ => apply match_number_length in Hs
  | Hs : scan_once _ _ = Scanned _ _ |- _ => apply IHs in Hs
  | Hs : array_items _ _ _ = Scanned _ _ |- _ => apply IHa in Hs
  | Hs : object_items _ _ _ = Scanned _ _ |- _ => apply IHo in Hs
  | Hs : skip_ws ?x = _ |- _ =>
      let L := fresh "L" in
      pose proof (skip_ws_length x) as L; rewrite Hs in L; clear Hs
  end;
  repeat match goal with
  | Hs : context [length (skip_ws ?x)] |- _ =>
      let L := fresh "L" in
      pose proof (skip_ws_length x) as L;
      generalize dependent (skip_ws x); intros
  | |- context [length (skip_ws ?x)] =>
      let L := fresh "L" in
      pose proof (skip_ws_length x) as L;
      generalize dependent (skip_ws x); intros
  end.

(** A value that is read takes at least one character. *)
Lemma scan_length (fuel : nat) :
  (∀ s v rest, scan_once fuel s = Scanned v rest → (length rest < length s)%nat)
  ∧ (∀ values s v rest,
       array_items fuel values s = Scanned v rest → (length rest < length s)%nat)
  ∧ (∀ pairs s v rest,
       object_items fuel pairs s = Scanned v rest → (length rest < length s)%nat).
Proof.
  induction fuel as [|fuel (IHs & IHa & IHo)]; [done|].
  split; [|split].
  - intros s v rest Hs. cbn [scan_once] in Hs. destruct s as [|c s']; [done|].
    repeat case_match; simplify_eq;
      scan_lengths IHs IHa IHo; cbn [length] in *; rewrite ?length_drop; lia.
  - intros values s v rest Hs. cbn [array_items] in Hs.
    repeat case_match; simplify_eq;
      scan_lengths IHs IHa IHo; cbn [length] in *; lia.
  - intros pairs s v rest Hs. cbn [object_items] in Hs.
    repeat case_match; simplify_eq;
      scan_lengths IHs IHa IHo; cbn [length] in *; lia.
Qed.

(** A scan that gives a value gives it with as much fuel as it reads
    characters: the brackets pay for the nesting. *)
Lemma scan_enough (fuel : nat) :
  (∀ s v rest f,
     scan_once fuel s = Scanned v rest → (length s - length rest ≤ f)%nat →
     scan_once f s = Scanned v rest)
  ∧ (∀ values s v rest f,
       array_items fuel values s = Scanned v rest → (length s - length rest ≤ f)%nat →
       array_items f values s = Scanned v rest)
  ∧ (∀ pairs s v rest f,
       object_items fuel pairs s = Scanned v rest → (length s - length rest ≤ f)%nat →
       object_items f pairs s = Scanned v rest).
Proof.
  induction fuel as [|fuel (IHs & IHa & IHo)]; [done|].
  destruct (scan_length fuel) as (Ls & La & Lo).
  destruct (scan_length (S fuel)) as (Ls' & La' & Lo').
  split; [|split].
  - intros s v rest f Hs Hf. pose proof (Ls' _ _ _ Hs) as Hl.
    destruct f as [|f]; [lia|]. cbn [scan_once] in Hs |- *.
    destruct s as [|c s']; [done|]. cbn [length] in Hf.
    repeat case_match; simplify_eq; try done.
    + apply IHo; [done|]. scan_lengths Ls La Lo. cbn [length] in *. lia.
    + apply IHa; [done|]. scan_lengths Ls La Lo. cbn [length] in *. lia.
  - intros values s v rest f Hs Hf. pose proof (La' _ _ _ _ Hs) as Hl.
    destruct f as [|f]; [lia|]. cbn [array_items] in Hs |- *.
    destruct (scan_once fuel s) as [value rest1| |] eqn:Es; [|done..].
    assert (length rest < length rest1)%nat as Hlt.
    { repeat case_match; simplify_eq; scan_lengths Ls La Lo; cbn [length] in *; lia. }
    rewrite (IHs _ _ _ f Es) by lia.
    repeat case_match; simplify_eq; try done.
    apply IHa; [done|]. scan_lengths Ls La Lo. cbn [length] in *. lia.
  - intros pairs s v rest f Hs Hf. pose proof (Lo' _ _ _ _ Hs) as Hl.
    destruct f as [|f]; [lia|]. cbn [object_items] in Hs |- *.
    destruct (scanstring s) as [[key s1]|] eqn:Ek; [|done].
    destruct (skip_ws s1) as [|colon s2] eqn:E1; [done|].
    destruct (colon =? 0x3A); [|done].
    destruct (scan_once fuel (skip_ws s2)) as [value rest1| |] eqn:Es; [|done..].
    assert (length rest < length rest1)%nat as Hlt.
    { repeat case_match; simplify_eq; scan_lengths Ls La Lo; cbn [length] in *; lia. }
    assert (length (skip_ws s2) < length s)%nat as Hl2.
    { pose proof (scanstring_length _ _ _ Ek). pose proof (skip_ws_length s1) as L1.
      rewrite E1 in L1. pose proof (skip_ws_length s2). cbn [length] in *. lia. }
    rewrite (IHs _ _ _ f Es) by lia.
    repeat case_match; simplify_eq; try done.
    apply IHo; [done|]. scan_lengths Ls La Lo. cbn [length] in *. lia.
Qed.

(** The fuel of [json_loads] is enough: what any fuel gives, it gives. *)
Lemma scan_once_fuel (fuel : nat) (s : str) (v : pyval) (rest : str) :
  scan_once fuel s = Scanned v rest → scan_once (S (length s)) s = Scanned v rest.
Proof. intros Hs. apply (proj1 (scan_enough fuel) _ _ _ _ Hs). lia. Qed.

(** ** Reading back what the encoder wrote: strings and numbers *)

Lemma small_cases (c : N) (bound : nat) :
  c < N.of_nat bound → In c (map N.of_nat (seq 0 bound)).
Proof.
  intros Hc. apply in_map_iff. exists (N.to_nat c). split; [lia|].
  apply in_seq. lia.
Qed.

(** One character and its escape. *)
Lemma scanstring_escape_char (c : codepoint) (t : str) :
  scanstring (escape_char c ++ t)
  = match scanstring t with
    | Some (content, rest) => Some (c :: content, rest)
    | None => None
    end.
Proof.
  destruct (c <? 0x20) eqn:Hsmall.
  - apply N.ltb_lt in Hsmall. apply (small_cases c 32) in Hsmall.
    cbn [seq map] in Hsmall.
    repeat (destruct Hsmall as [<-|Hsmall]; [reflexivity|]). done.
  - destruct (c =? 0x22) eqn:Hq; [apply N.eqb_eq in Hq as ->; reflexivity|].
    destruct (c =? 0x5C) eqn:Hb; [apply N.eqb_eq in Hb as ->; reflexivity|].
    unfold escape_char. rewrite Hq, Hb, Hsmall.
    N_bools.
    replace (c =? 0x0A) with false by (symmetry; apply N.eqb_neq; lia).
    replace (c =? 0x0D) with false by (symmetry; apply N.eqb_neq; lia).
    replace (c =? 0x09) with false by (symmetry; apply N.eqb_neq; lia).
    replace (c =? 0x08) with false by (symmetry; apply N.eqb_neq; lia).
    replace (c =? 0x0C) with false by (symmetry; apply N.eqb_neq; lia).
    cbn [app scanstring].
    replace (c =? 0x22) with false by (symmetry; apply N.eqb_neq; lia).
    replace (c =? 0x5C) with false by (symmetry; apply N.eqb_neq; lia).
    by replace (c <? 0x20) with false by (symmetry; apply N.ltb_ge; lia).
Qed.

(** The decoder reads an encoded string back. *)
Lemma scanstring_encode (s rest : str) :
  scanstring (flat_map escape_char s ++ 0x22 :: rest) = Some (s, rest).
Proof.
  induction s as [|c s IH]; [reflexivity|].
  cbn [flat_map]. rewrite <- app_assoc, scanstring_escape_char. by rewrite IH.
Qed.

Lemma encode_basestring_eq (s : str) :
  encode_basestring s = 0x22 :: flat_map escape_char s ++ [0x22].
Proof. reflexivity. Qed.

(** Digits. *)
Lemma uint_chars_digits (d : Decimal.uint) : forallb is_digit (uint_chars d) = true.
Proof. induction d; cbn [uint_chars forallb]; by rewrite ?IHd. Qed.

Lemma chars_uint_chars (d : Decimal.uint) : chars_uint (uint_chars d) = d.
Proof. induction d; cbn [uint_chars chars_uint]; by rewrite ?IHd. Qed.

Lemma delimited_not_digit (rest : str) :
  delimited rest →
  match rest with
  | [] => True
  | c :: _ => is_digit c = false ∧ (c =? 0x2E) = false ∧ (c =? 0x65) = false
              ∧ (c =? 0x45) = false
  end.
Proof. destruct rest as [|c rest]; [done|]. by intros [-> | ->]. Qed.

Lemma span_digits_all (ds rest : str) :
  forallb is_digit ds = true → delimited rest → span_digits (ds ++ rest) = (ds, rest).
Proof.
  intros Hds Hrest. induction ds as [|c ds IH]; cbn [app span_digits].
  - apply delimited_not_digit in Hrest. destruct rest as [|c rest]; [done|].
    cbn [span_digits]. by destruct Hrest as [-> _].
  - cbn [forallb] in Hds. apply andb_true_iff in Hds as [-> Hds]. by rewrite IH.
Qed.

Lemma nzhead_not_zero (d u : Decimal.uint) : Decimal.nzhead d ≠ Decimal.D0 u.
Proof. induction d; cbn; done. Qed.

(** The digits of a positive number do not begin with a zero. *)
Lemma to_uint_head (p : positive) (u : Decimal.uint) : Pos.to_uint p ≠ Decimal.D0 u.
Proof.
  intros E.
  pose proof (DecimalPos.Unsigned.to_of (Pos.to_uint p)) as Hn.
  rewrite DecimalPos.Unsigned.of_to in Hn. cbn [N.to_uint] in Hn.
  rewrite E in Hn. unfold Decimal.unorm in Hn. cbn [Decimal.nzhead] in Hn.
  destruct (Decimal.nzhead u) eqn:Hu; try done.
  - injection Hn as ->. by apply (DecimalPos.Unsigned.to_uint_nonzero p).
  - by apply nzhead_not_zero in Hu.
Qed.

(** The decoder reads an integer back. *)
Lemma match_number_int_repr (z : Z) (rest : str) :
  delimited rest → match_number (int_repr z ++ rest) = Some (PyInt z, rest).
Proof.
  intros Hrest. pose proof (delimited_not_digit rest Hrest) as Hnd.
  assert (∀ p sign,
            (sign = [] ∨ sign = [0x2D]) →
            match_number (sign ++ uint_chars (Pos.to_uint p) ++ rest)
            = Some (PyInt (match sign with [] => Z.pos p | _ => Z.neg p end), rest))
    as Hpos.
  { intros p sign Hsign.
    pose proof (to_uint_head p) as Hhead.
    pose proof (DecimalPos.Unsigned.to_uint_nonnil p) as Hnil.
    pose proof (DecimalPos.Unsigned.of_to p) as Hof.
    pose proof (uint_chars_digits (Pos.to_uint p)) as Hdig.
    pose proof (chars_uint_chars (Pos.to_uint p)) as Hback.
    destruct (uint_chars (Pos.to_uint p)) as [|c ds] eqn:Hchars.
    { destruct (Pos.to_uint p); done. }
    assert ((c =? 0x30) = false ∧ (c =? 0x2D) = false) as [Hc0 Hcm].
    { destruct (Pos.to_uint p) eqn:Hp; cbn in Hchars; try done;
        injection Hchars as <- _; try done. by destruct (Hhead u). }
    cbn [forallb] in Hdig. apply andb_true_iff in Hdig as [Hc Hds].
    unfold match_number.
    destruct Hsign as [-> | ->]; cbn [app]; rewrite ?Hcm; cbn [N.eqb Pos.eqb];
      rewrite Hc0, Hc, (span_digits_all ds rest Hds Hrest).
    all: destruct rest as [|r rest]; [|destruct Hnd as (_ & -> & -> & ->)];
      cbn [orb]; rewrite Hback; unfold N.of_uint; rewrite Hof; reflexivity. }
  destruct z as [|p|p]; cbn [int_repr].
  - destruct rest as [|r rest]; [reflexivity|].
    destruct Hrest as [-> | ->]; reflexivity.
  - apply (Hpos p []). by left.
  - apply (Hpos p [0x2D]). by right.
Qed.

(** ** The text the encoder writes *)

Section EncoderText.
Context `{FloatRepr}.

Lemma json_dumps_text (o : pyval) : json_dumps o = json_text 0 o.
Proof. reflexivity. Qed.

Lemma json_text_atom (level : nat) (o : pyval) (text : str) :
  atom_text o = Some text → json_text level o = text.
Proof.
  unfold json_text. intros E.
  destruct o as [|[]| | | | | |]; try done;
    cbn [iterencode atom_text concat] in *; rewrite app_nil_r; congruence.
Qed.

(** An item of a list: in one chunk or in several, the text is the same. *)
Lemma list_item_text (level : nat) (buf : str) (value : pyval) :
  concat (match atom_text value with
          | Some text => [buf ++ text]
          | None => buf :: iterencode level value
          end)
  = buf ++ json_text level value.
Proof.
  destruct (atom_text value) as [text|] eqn:E.
  - rewrite (json_text_atom level value text E). cbn. by rewrite app_nil_r.
  - reflexivity.
Qed.

Lemma json_text_list_nil (level : nat) : json_text level (PyList []) = lit "[]".
Proof. reflexivity. Qed.

Lemma json_text_list_cons (level : nat) (value : pyval) (lst : list pyval) :
  json_text level (PyList (value :: lst))
  = lit "[" ++ newline_indent (S level) ++ json_text (S level) value
    ++ flat_map (λ item, lit "," ++ newline_indent (S level)
                         ++ json_text (S level) item) lst
    ++ newline_indent level ++ lit "]".
Proof.
  unfold json_text at 1. cbn [iterencode].
  match goal with
  | |- context [?items false lst] =>
      assert (∀ l, concat (items false l)
                   = flat_map (λ item, lit "," ++ newline_indent (S level)
                                       ++ json_text (S level) item) l) as Hitems
  end.
  { induction l as [|item l IH]; [reflexivity|].
    lazy beta iota zeta fix. rewrite concat_app, list_item_text, IH.
    cbn [flat_map]. by rewrite <- !app_assoc. }
  rewrite !concat_app, list_item_text, Hitems. cbn [concat].
  by rewrite <- !app_assoc, app_nil_r.
Qed.

Lemma json_text_dict_nil (level : nat) : json_text level (PyDict []) = lit "{}".
Proof. reflexivity. Qed.

Lemma json_text_dict_cons (level : nat) (key : pykey) (value : pyval)
    (dct : list (pykey * pyval)) :
  json_text level (PyDict ((key, value) :: dct))
  = lit "{" ++ newline_indent (S level)
    ++ encode_basestring (key_text key) ++ lit ": " ++ json_text (S level) value
    ++ flat_map (λ item, lit "," ++ newline_indent (S level)
                         ++ encode_basestring (key_text item.1) ++ lit ": "
                         ++ json_text (S level) item.2) dct
    ++ newline_indent level ++ lit "}".
Proof.
  unfold json_text at 1. cbn [iterencode].
  match goal with
  | |- context [?items false dct] =>
      assert (∀ l, concat (items false l)
                   = flat_map (λ item, lit "," ++ newline_indent (S level)
                                       ++ encode_basestring (key_text item.1)
                                       ++ lit ": " ++ json_text (S level) item.2) l)
        as Hitems
  end.
  { induction l as [|[k v] l IH]; [reflexivity|].
    lazy beta iota zeta fix. rewrite !concat_app, IH.
    cbn [flat_map concat fst snd]. unfold json_text.
    by rewrite <- !app_assoc, ?app_nil_r. }
  rewrite !concat_app, Hitems. cbn [concat app].
  unfold json_text. by rewrite <- !app_assoc, ?app_nil_r.
Qed.
End EncoderText.

(** ** Reading back what the encoder wrote: values *)

(** Induction on values, with the property known for the items of lists,
    tuples and dicts. *)
Lemma pyval_ind' (P : pyval → Prop) :
  P PyNone →
  (∀ b, P (PyBool b)) →
  (∀ z, P (PyInt z)) →
  (∀ literal, P (PyFloat literal)) →
  (∀ s, P (PyStr s)) →
  (∀ lst, Forall P lst → P (PyList lst)) →
  (∀ lst, Forall P lst → P (PyTuple lst)) →
  (∀ dct, Forall (λ item, P item.2) dct → P (PyDict dct)) →
  ∀ o, P o.
Proof.
  intros HNone HBool HInt HFloat HStr HList HTuple HDict.
  fix IH 1. intros [|b|z|literal|s|lst|lst|dct].
  - apply HNone.
  - apply HBool.
  - apply HInt.
  - apply HFloat.
  - apply HStr.
  - apply HList.
    exact ((fix go (l : list pyval) : Forall P l :=
              match l with
              | [] => @List.Forall_nil _ P
              | x :: l' => @List.Forall_cons _ P x l' (IH x) (go l')
              end) lst).
  - apply HTuple.
    exact ((fix go (l : list pyval) : Forall P l :=
              match l with
              | [] => @List.Forall_nil _ P
              | x :: l' => @List.Forall_cons _ P x l' (IH x) (go l')
              end) lst).
  - apply HDict.
    exact ((fix go (l : list (pykey * pyval)) : Forall (λ item, P item.2) l :=
              match l with
              | [] => @List.Forall_nil _ _
              | x :: l' => @List.Forall_cons _ (λ item, P item.2) x l' (IH x.2) (go l')
              end) dct).
Qed.

Lemma skip_ws_newline_indent (level : nat) (s : str) :
  skip_ws (newline_indent level ++ s) = skip_ws s.
Proof.
  unfold newline_indent. cbn [app skip_ws is_json_ws N.eqb Pos.eqb orb].
  induction (4 * level)%nat as [|n IH]; [done|]. by cbn.
Qed.

Lemma skip_ws_head (c : codepoint) (s : str) :
  is_json_ws c = false → skip_ws (c :: s) = c :: s.
Proof. intros Hc. cbn [skip_ws]. by rewrite Hc. Qed.

Lemma int_repr_head (z : Z) :
  ∃ c t, int_repr z = c :: t ∧ (is_digit c = true ∨ c = 0x2D).
Proof.
  assert (∀ p, ∃ c t, uint_chars (Pos.to_uint p) = c :: t ∧ is_digit c = true) as Hp.
  { intros p. pose proof (uint_chars_digits (Pos.to_uint p)) as Hd.
    pose proof (DecimalPos.Unsigned.to_uint_nonnil p) as Hn.
    destruct (uint_chars (Pos.to_uint p)) as [|c t] eqn:E.
    - destruct (Pos.to_uint p); done.
    - exists c, t. split; [done|]. cbn [forallb] in Hd.
      by apply andb_true_iff in Hd as [? _]. }
  destruct z as [|p|p]; cbn [int_repr].
  - exists 0x30, []. split; [done|]. by left.
  - destruct (Hp p) as (c & t & -> & Hc). exists c, t. split; [done|]. by left.
  - eexists 0x2D, _. split; [reflexivity|]. by right.
Qed.

(** A text that begins with a digit or a minus sign can only be a number. *)
Lemma scan_once_number (fuel : nat) (c : codepoint) (s rest : str) (number : pyval) :
  is_digit c = true ∨ c = 0x2D →
  match_number (c :: s) = Some (number, rest) →
  scan_once (S fuel) (c :: s) = Scanned number rest.
Proof.
  intros Hc Hm. cbn [scan_once]. rewrite Hm.
  assert (c ≠ 0x22 ∧ c ≠ 0x7B ∧ c ≠ 0x5B ∧ c ≠ 0x6E ∧ c ≠ 0x74 ∧ c ≠ 0x66)
    as (H1 & H2 & H3 & H4 & H5 & H6).
  { destruct Hc as [Hc | ->]; [|done]. unfold is_digit in Hc. N_bools.
    repeat split; lia. }
  apply N.eqb_neq in H1, H2, H3. rewrite H1, H2, H3.
  change (lit "null") with (0x6E :: lit "ull").
  change (lit "true") with (0x74 :: lit "rue").
  change (lit "false") with (0x66 :: lit "alse").
  rewrite !startswith_cons.
  apply not_eq_sym in H4, H5, H6. apply N.eqb_neq in H4, H5, H6.
  by rewrite H4, H5, H6.
Qed.

(** *** Dicts *)

Lemma dict_set_fresh (key : str) (value : pyval) (items : list (pykey * pyval)) :
  KStr key ∉ map fst items → dict_set key value items = items ++ [(KStr key, value)].
Proof.
  induction items as [|[k v] items IH]; [done|].
  cbn [map fst]. intros [Hk Hitems]%not_elem_of_cons.
  cbn [dict_set app]. destruct k as [s| | | |]; try by rewrite IH.
  rewrite bool_decide_eq_false_2 by congruence. by rewrite IH.
Qed.

Lemma dict_of_pairs_fresh (pairs : list (str * pyval)) (items : list (pykey * pyval)) :
  NoDup (map fst items ++ map (λ kv, KStr kv.1) pairs) →
  fold_left (λ items kv, dict_set kv.1 kv.2 items) pairs items
  = items ++ map (λ kv, (KStr kv.1, kv.2)) pairs.
Proof.
  revert items. induction pairs as [|[k v] pairs IH]; intros items Hnd.
  - by rewrite app_nil_r.
  - cbn [fold_left map fst snd] in *.
    apply NoDup_app in Hnd as (Hnd1 & Hdisj & Hnd2).
    apply NoDup_cons in Hnd2 as [Hk Hnd2].
    rewrite dict_set_fresh by (intros Hin; apply (Hdisj _ Hin); left).
    rewrite IH.
    + by rewrite <- app_assoc.
    + rewrite map_app. cbn [map fst]. rewrite <- app_assoc. cbn [app].
      apply NoDup_app. repeat split; [done| |by apply NoDup_cons].
      intros x Hx [->|Hx']%elem_of_cons; [|by apply (Hdisj x); [|right]].
      apply (Hdisj (KStr k)); [done|left].
Qed.

Section Roundtrip.
Context `{FloatRepr}.

(** The items of a dict with string keys, each once, come back as they
    were. *)
Lemma dict_of_pairs_of (dct : list (pykey * pyval)) :
  Forall (λ item, ∃ s, item.1 = KStr s) dct →
  NoDup (map fst dct) →
  dict_of_pairs (pairs_of dct) = dct.
Proof.
  intros Hkeys Hnd. unfold dict_of_pairs, pairs_of.
  assert (map (λ kv : str * pyval, KStr kv.1)
            (map (λ item : pykey * pyval, (key_text item.1, item.2)) dct)
          = map fst dct
          ∧ map (λ kv : str * pyval, (KStr kv.1, kv.2))
              (map (λ item : pykey * pyval, (key_text item.1, item.2)) dct)
            = dct)
    as [E1 E2].
  { clear Hnd. induction Hkeys as [|[k v] dct [s Hs] Hkeys [IH1 IH2]]; [done|].
    cbn [fst] in Hs. subst k. cbn [map fst snd key_text]. by rewrite IH1, IH2. }
  rewrite dict_of_pairs_fresh; [by rewrite E2|]. by rewrite E1.
Qed.

Lemma list_sum_cons (x : nat) (l : list nat) : list_sum (x :: l) = (x + list_sum l)%nat.
Proof. reflexivity. Qed.

Lemma list_sum_nil : list_sum [] = 0%nat.
Proof. reflexivity. Qed.

(** The text of a value begins with a character that is neither whitespace
    nor a closing bracket. *)
Lemma json_text_head (level : nat) (o : pyval) :
  json_native o = true →
  ∃ c t, json_text level o = c :: t ∧ is_json_ws c = false ∧ (c =? 0x5D) = false
         ∧ c < 0x80.
Proof.
  intros Hn. destruct o as [|[]|z| |s|[|value lst]| |[|[key value] dct]]; try done.
  - by eexists _, _.
  - by eexists _, _.
  - by eexists _, _.
  - rewrite (json_text_atom level (PyInt z) (int_repr z)) by done.
    destruct (int_repr_head z) as (c & t & -> & Hc). exists c, t.
    split; [done|]. destruct Hc as [Hc | ->]; [|done].
    unfold is_digit in Hc. N_bools. unfold is_json_ws.
    split; [|split; [apply N.eqb_neq; lia | lia]].
    repeat (apply orb_false_iff; split); apply N.eqb_neq; lia.
  - by eexists _, _.
  - by eexists _, _.
  - rewrite json_text_list_cons. by eexists _, _.
  - by eexists _, _.
  - rewrite json_text_dict_cons. by eexists _, _.
Qed.

(** The loop over the items of a list. *)
Lemma array_items_text (lst : list pyval) :
  Forall (λ o, json_native o = true ∧ reads_back o) lst →
  ∀ value values fuel level rest,
    json_native value = true → reads_back value →
    (S (weight value) + item_weights lst ≤ fuel)%nat →
    array_items fuel values
      (json_text (S level) value
       ++ flat_map (λ item, lit "," ++ newline_indent (S level)
                            ++ json_text (S level) item) lst
       ++ newline_indent level ++ lit "]" ++ rest)
    = Scanned (PyList (rev values ++ value :: lst)) rest.
Proof.
  induction 1 as [|item lst [Hnat Hitem] Hlst IH];
    intros value values fuel level rest Hn Hvalue Hfuel.
  - destruct fuel as [|fuel]; [lia|]. cbn [array_items flat_map app].
    rewrite Hvalue; [|unfold item_weights in Hfuel; cbn [map] in Hfuel; rewrite ?list_sum_cons, ?list_sum_nil in Hfuel; lia|by right].
    rewrite skip_ws_newline_indent. cbn. done.
  - destruct fuel as [|fuel]; [lia|]. cbn [array_items flat_map].
    unfold item_weights in *. cbn [map] in Hfuel. rewrite ?list_sum_cons, ?list_sum_nil in Hfuel.
    rewrite <- !app_assoc.
    rewrite Hvalue; [|lia|by left].
    change (lit "," ++ ?x) with (0x2C :: x).
    rewrite skip_ws_head by done.
    cbn [N.eqb Pos.eqb]. rewrite skip_ws_newline_indent.
    destruct (json_text_head (S level) item Hnat) as (c & t & Ht & Hws & _ & _).
    rewrite Ht, <- app_comm_cons, skip_ws_head, app_comm_cons, <- Ht by done.
    rewrite (IH item (value :: values) fuel level rest Hnat Hitem) by lia.
    cbn [rev]. by rewrite <- app_assoc.
Qed.

(** The loop over the items of a dict; the text begins behind the opening
    quote of the first key. *)
Lemma object_items_text (dct : list (pykey * pyval)) :
  Forall (λ item, json_native item.2 = true ∧ reads_back item.2) dct →
  ∀ key value pairs fuel level rest,
    json_native value = true → reads_back value →
    (S (weight value) + item_weights (map snd dct) ≤ fuel)%nat →
    object_items fuel pairs
      (flat_map escape_char key ++ [0x22] ++ lit ": " ++ json_text (S level) value
       ++ flat_map (λ item, lit "," ++ newline_indent (S level)
                            ++ encode_basestring (key_text item.1) ++ lit ": "
                            ++ json_text (S level) item.2) dct
       ++ newline_indent level ++ lit "}" ++ rest)
    = Scanned (PyDict (dict_of_pairs (rev pairs ++ (key, value) :: pairs_of dct))) rest.
Proof.
  induction 1 as [|[k v] dct [Hnat Hitem] Hdct IH];
    intros key value pairs fuel level rest Hn Hvalue Hfuel.
  - destruct fuel as [|fuel]; [lia|]. cbn [object_items flat_map].
    change ([0x22] ++ ?x) with (0x22 :: x). rewrite scanstring_encode.
    change (lit ": " ++ ?x) with (0x3A :: 0x20 :: x).
    rewrite skip_ws_head by done. cbn [N.eqb Pos.eqb].
    destruct (json_text_head (S level) value Hn) as (c & t & Ht & Hws & _ & _).
    assert (skip_ws (0x20 :: json_text (S level) value
                     ++ [] ++ newline_indent level ++ lit "}" ++ rest)
            = json_text (S level) value
              ++ newline_indent level ++ lit "}" ++ rest) as ->.
    { cbn [skip_ws is_json_ws N.eqb Pos.eqb orb app].
      by rewrite Ht, <- app_comm_cons, skip_ws_head. }
    rewrite Hvalue; [|unfold item_weights in Hfuel; cbn [map] in Hfuel; rewrite ?list_sum_cons, ?list_sum_nil in Hfuel; lia|by right].
    rewrite skip_ws_newline_indent. cbn. done.
  - destruct fuel as [|fuel]; [lia|]. cbn [object_items flat_map].
    unfold item_weights in *. cbn [map snd] in Hfuel. rewrite ?list_sum_cons, ?list_sum_nil in Hfuel.
    change ([0x22] ++ ?x) with (0x22 :: x). rewrite scanstring_encode.
    change (lit ": " ++ ?x) with (0x3A :: 0x20 :: x).
    rewrite skip_ws_head by done. cbn [N.eqb Pos.eqb].
    destruct (json_text_head (S level) value Hn) as (c & t & Ht & Hws & _ & _).
    rewrite <- !app_assoc.
    match goal with
    | |- context [skip_ws (0x20 :: json_text (S level) value ++ ?tail)] =>
        assert (skip_ws (0x20 :: json_text (S level) value ++ tail)
                = json_text (S level) value ++ tail) as ->
    end.
    { cbn [skip_ws is_json_ws N.eqb Pos.eqb orb].
      by rewrite Ht, <- app_comm_cons, skip_ws_head. }
    rewrite Hvalue; [|lia|by left].
    change (lit "," ++ ?x) with (0x2C :: x).
    rewrite skip_ws_head by done.
    cbn [N.eqb Pos.eqb]. rewrite skip_ws_newline_indent.
    cbn [fst snd]. rewrite encode_basestring_eq, <- app_comm_cons.
    rewrite skip_ws_head by done. cbn [N.eqb Pos.eqb].
    rewrite <- !app_assoc.
    rewrite (IH (key_text k) v ((key, value) :: pairs) fuel level rest Hnat Hitem) by lia.
    cbn [rev pairs_of map fst snd]. by rewrite <- app_assoc.
Qed.

Lemma forallb_Forall_and {A} (f : A → bool) (P : A → Prop) (l : list A) :
  forallb f l = true → Forall (λ x, f x = true → P x) l →
  Forall (λ x, f x = true ∧ P x) l.
Proof.
  intros Hf HP. induction HP as [|x l Hx HP IH]; [done|].
  cbn [forallb] in Hf. apply andb_true_iff in Hf as [Hfx Hf].
  constructor; [by split; [|apply Hx] | by apply IH].
Qed.

(** The decoder reads back the text of every native value. *)
Lemma scan_json_text (o : pyval) : json_native o = true → reads_back o.
Proof.
  induction o as [|b|z|literal|s|lst IH|lst IH|dct IH] using pyval_ind';
    intros Hn level fuel rest Hfuel Hrest; try done.
  - destruct fuel as [|fuel]; [cbn in Hfuel; lia|]. reflexivity.
  - destruct fuel as [|fuel]; [cbn in Hfuel; lia|]. by destruct b.
  - destruct fuel as [|fuel]; [cbn in Hfuel; lia|].
    rewrite (json_text_atom level (PyInt z) (int_repr z)) by done.
    pose proof (match_number_int_repr z rest Hrest) as Hm.
    destruct (int_repr_head z) as (c & t & E & Hc). rewrite E in *.
    by apply scan_once_number.
  - destruct fuel as [|fuel]; [cbn in Hfuel; lia|].
    rewrite (json_text_atom level (PyStr s) (encode_basestring s)) by done.
    rewrite encode_basestring_eq. cbn [app scan_once N.eqb Pos.eqb].
    rewrite <- app_assoc. cbn [app]. by rewrite scanstring_encode.
  - destruct lst as [|value lst].
    + destruct fuel as [|fuel]; [cbn in Hfuel; lia|]. reflexivity.
    + cbn [json_native] in Hn.
      pose proof (forallb_Forall_and _ _ _ Hn IH) as Hall.
      apply Forall_cons in Hall as [[Hnv Hvalue] Hall].
      destruct fuel as [|fuel]; [cbn in Hfuel; lia|].
      cbn [weight map] in Hfuel; rewrite ?list_sum_cons, ?list_sum_nil in Hfuel.
      rewrite json_text_list_cons.
      change (lit "[" ++ ?x) with (0x5B :: x).
      cbn [app scan_once N.eqb Pos.eqb]. rewrite <- !app_assoc.
      rewrite skip_ws_newline_indent.
      destruct (json_text_head (S level) value Hnv) as (c & t & Ht & Hws & Hc & _).
      rewrite Ht, <- app_comm_cons, skip_ws_head by done. rewrite Hc.
      rewrite app_comm_cons, <- Ht.
      by rewrite (array_items_text lst Hall value [] fuel level rest Hnv Hvalue)
        by (unfold item_weights; lia).
  - destruct dct as [|[key value] dct].
    + destruct fuel as [|fuel]; [cbn in Hfuel; lia|]. reflexivity.
    + cbn [json_native] in Hn. apply andb_true_iff in Hn as [Hitems Hnd].
      apply bool_decide_eq_true in Hnd.
      assert (Forall (λ item, (∃ s, item.1 = KStr s) ∧ json_native item.2 = true
                              ∧ reads_back item.2) ((key, value) :: dct)) as Hall.
      { clear Hnd Hfuel. induction IH as [|[k v] l Hv IH IHl]; [done|].
        cbn [forallb] in Hitems. apply andb_true_iff in Hitems as [Hkv Hitems].
        constructor; [|by apply IHl].
        destruct k as [s| | | |]; try done.
        apply andb_true_iff in Hkv as [_ Hv']. cbn [fst snd] in *.
        split; [by exists s|]. split; [done|]. by apply Hv. }
      assert (Forall (λ item, ∃ s, item.1 = KStr s) ((key, value) :: dct)) as Hkeys
        by (eapply Forall_impl; [exact Hall|]; by intros ? [? _]).
      rewrite <- (dict_of_pairs_of ((key, value) :: dct) Hkeys Hnd) at 2.
      apply Forall_cons in Hall as [(_ & Hnv & Hvalue) Hall].
      destruct fuel as [|fuel]; [cbn in Hfuel; lia|].
      cbn [weight map] in Hfuel; rewrite ?list_sum_cons, ?list_sum_nil in Hfuel.
      rewrite json_text_dict_cons.
      change (lit "{" ++ ?x) with (0x7B :: x).
      cbn [app scan_once N.eqb Pos.eqb]. rewrite <- !app_assoc.
      rewrite skip_ws_newline_indent.
      rewrite encode_basestring_eq, <- app_comm_cons.
      rewrite skip_ws_head by done. cbn [N.eqb Pos.eqb].
      rewrite <- !app_assoc.
      rewrite (object_items_text dct) with (pairs := []); [done| |done..|].
      * eapply Forall_impl; [exact Hall|]. by intros ? (_ & ? & ?).
      * unfold item_weights. rewrite map_map. cbn [snd].
        erewrite map_ext; [exact (le_S_n _ _ Hfuel)|]. by intros [].
Qed.

(** [json.loads] gives back what [json.dumps] wrote. *)
Lemma json_loads_dumps (o : pyval) :
  json_native o = true → json_loads (json_dumps o) = Some o.
Proof.
  intros Hn. rewrite json_dumps_text. unfold json_loads.
  destruct (json_text_head 0 o Hn) as (c & t & Ht & Hws & _ & Hc).
  pose proof (scan_json_text o Hn 0%nat (weight o) [] (le_n _) I) as Hscan.
  rewrite app_nil_r in Hscan. rewrite Ht in *.
  rewrite startswith_one.
  replace (0xFEFF =? c) with false by (symmetry; apply N.eqb_neq; lia).
  rewrite skip_ws_head by done.
  by rewrite (scan_once_fuel _ _ _ _ Hscan).
Qed.

(** *** The text of a native value is made of scalar values *)

Lemma forallb_flat_map {A} (f : codepoint → bool) (g : A → str) (l : list A) :
  Forall (λ x, forallb f (g x) = true) l → forallb f (flat_map g l) = true.
Proof.
  induction 1 as [|x l Hx Hl IH]; [done|].
  cbn [flat_map]. by rewrite forallb_app, Hx, IH.
Qed.

Lemma escape_char_scalar (c : codepoint) :
  is_scalar c = true → forallb is_scalar (escape_char c) = true.
Proof.
  intros Hc. destruct (c <? 0x20) eqn:Hsmall.
  - apply N.ltb_lt in Hsmall. apply (small_cases c 32) in Hsmall.
    cbn [seq map] in Hsmall.
    repeat (destruct Hsmall as [<-|Hsmall]; [reflexivity|]). done.
  - unfold escape_char. rewrite Hsmall.
    repeat case_match; try reflexivity. cbn [forallb]. by rewrite Hc.
Qed.

Lemma encode_basestring_scalar (s : str) :
  forallb is_scalar s = true → forallb is_scalar (encode_basestring s) = true.
Proof.
  intros Hs. unfold encode_basestring. rewrite !forallb_app.
  rewrite forallb_flat_map; [done|].
  rewrite forallb_forall in Hs. apply Forall_forall. intros c Hc.
  apply escape_char_scalar, Hs. by apply list_elem_of_In.
Qed.

Lemma newline_indent_scalar (level : nat) :
  forallb is_scalar (newline_indent level) = true.
Proof.
  unfold newline_indent. cbn [forallb]. induction (4 * level)%nat; [done|]. by cbn.
Qed.

Lemma int_repr_scalar (z : Z) : forallb is_scalar (int_repr z) = true.
Proof.
  assert (∀ d, forallb is_scalar (uint_chars d) = true) as Hd.
  { induction d; cbn [uint_chars forallb]; by rewrite ?IHd. }
  destruct z; cbn [int_repr]; [done|apply Hd|].
  rewrite forallb_app. by rewrite Hd.
Qed.

Lemma json_text_scalar (o : pyval) :
  json_native o = true → ∀ level, forallb is_scalar (json_text level o) = true.
Proof.
  induction o as [|b|z|literal|s|lst IH|lst IH|dct IH] using pyval_ind';
    intros Hn level; try done.
  - by destruct b.
  - rewrite (json_text_atom level (PyInt z) (int_repr z)) by done.
    apply int_repr_scalar.
  - rewrite (json_text_atom level (PyStr s) (encode_basestring s)) by done.
    by apply encode_basestring_scalar.
  - destruct lst as [|value lst]; [done|]. cbn [json_native] in Hn.
    pose proof (forallb_Forall_and _ _ _ Hn IH) as Hall.
    apply Forall_cons in Hall as [[Hnv Hvalue] Hall].
    rewrite json_text_list_cons, !forallb_app.
    rewrite !newline_indent_scalar, Hvalue by done.
    rewrite forallb_flat_map; [done|].
    eapply Forall_impl; [exact Hall|]. intros item [Hni Hitem].
    by rewrite !forallb_app, newline_indent_scalar, Hitem.
  - destruct dct as [|[key value] dct]; [done|]. cbn [json_native] in Hn.
    apply andb_true_iff in Hn as [Hitems _].
    assert (Forall (λ item, forallb is_scalar (key_text item.1) = true
                            ∧ ∀ level, forallb is_scalar (json_text level item.2) = true)
              ((key, value) :: dct)) as Hall.
    { induction IH as [|[k v] l Hv IH IHl]; [done|].
      cbn [forallb] in Hitems. apply andb_true_iff in Hitems as [Hkv Hitems].
      constructor; [|by apply IHl].
      destruct k as [s| | | |]; try done.
      apply andb_true_iff in Hkv as [Hs Hv']. cbn [fst snd key_text] in *.
      split; [done|]. by apply Hv. }
    apply Forall_cons in Hall as [[Hkey Hvalue] Hall]. cbn [fst snd] in *.
    rewrite json_text_dict_cons, !forallb_app.
    rewrite !newline_indent_scalar, Hvalue, encode_basestring_scalar by done.
    rewrite forallb_flat_map; [done|].
    eapply Forall_impl; [exact Hall|]. intros item [Hk Hitem].
    by rewrite !forallb_app, newline_indent_scalar, Hitem, encode_basestring_scalar.
Qed.

End Roundtrip.

(** An example of a value that cannot be stored.  The dict that
    [json.loads] makes of a reply with the escape of a lone surrogate can be
    written as JSON text, but the text cannot be encoded: [json_speichern]
    raises, and the file it leaves behind holds the beginning of the text,
    which is not JSON. *)
Lemma json_speichern_surrogate :
  let daten := PyDict [(KStr (lit "topic"), PyStr [0xD800])] in
  let run := json_speichern (H := repr_literal) daten (tafel_world []) in
  json_loads (qlit "{'topic': '\ud800'}") = Some daten
  ∧ run.1 = Raise UnicodeEncodeError
  ∧ read_json run.2 (export_path (lit "20241027_023000")) = None.
Proof. vm_compute. done. Qed.

(** A dict with an integer key is stored with the key as a string. *)
Lemma json_speichern_int_key :
  let daten := PyDict [(KInt 1, PyStr (lit "a"))] in
  let run := json_speichern (H := repr_literal) daten (tafel_world []) in
  read_json run.2 (export_path (lit "20241027_023000"))
  = Some (PyDict [(KStr (lit "1"), PyStr (lit "a"))]).
Proof. vm_compute. reflexivity. Qed.


(** ** Reading the image *)


Lemma b64_char_alphabet (n : N) : n < 64 → In (b64_char n) b64_alphabet.
Proof.
  intros Hn. unfold b64_char. apply nth_In.
  change (length b64_alphabet) with 64%nat. lia.
Qed.

Lemma b64encode_shape (data : list byte) :
  length (b64encode data) = (4 * ((length data + 2) / 3))%nat
  ∧ Forall (λ c, In c b64_alphabet ∨ c = b64_pad) (b64encode data).
Proof.
  assert (∀ n, n < 64 → In (b64_char n) b64_alphabet ∨ b64_char n = b64_pad) as Hc
    by (intros n Hn; left; by apply b64_char_alphabet).
  assert (In b64_pad b64_alphabet ∨ b64_pad = b64_pad) as Hp by (by right).
  induction data as [|a|a b|a b c data [IHl IHa]] using list_ind3.
  - split; [reflexivity|constructor].
  - pose proof (to_N_lt a). split; [reflexivity|]. cbn [b64encode].
    repeat (apply List.Forall_cons; [first [exact Hp | apply Hc; lia]|]).
    apply List.Forall_nil.
  - pose proof (to_N_lt a). pose proof (to_N_lt b). split; [reflexivity|].
    cbn [b64encode].
    repeat (apply List.Forall_cons; [first [exact Hp | apply Hc; lia]|]).
    apply List.Forall_nil.
  - pose proof (to_N_lt a). pose proof (to_N_lt b). pose proof (to_N_lt c).
    cbn [b64encode]. split.
    + rewrite length_app, IHl. cbn [length].
      replace (S (S (S (length data))) + 2)%nat with (1 * 3 + (length data + 2))%nat
        by lia.
      rewrite Nat.div_add_l by lia. lia.
    + cbn [app].
      repeat (apply List.Forall_cons; [apply Hc; lia|]). exact IHa.
Qed.

(** X2.  The text that [bild_als_base64] returns for a file of [n] bytes has
    four characters for every three bytes begun, and it is made of the
    characters of the base64 alphabet and the padding character only; an
    empty file gives the empty text. *)
Theorem bild_als_base64_shape (pfad : str) (data : list byte) (w : World) :
  files w !! pfad = Some (File data) →
  ∃ text,
    (bild_als_base64 pfad w).1 = Ok text
    ∧ length text = (4 * ((length data + 2) / 3))%nat
    ∧ Forall (λ c, In c b64_alphabet ∨ c = b64_pad) text
    ∧ (text = [] ↔ data = []).
Proof.
  intros Hf. exists (b64encode data). rewrite (bild_als_base64_eq _ _ _ Hf).
  destruct (b64encode_shape data) as [Hl Ha].
  split; [done|]. split; [done|]. split; [done|].
  split; [|by intros ->].
  intros E. destruct data as [|a [|b [|c data]]]; [done|done..|].
  discriminate E.
Qed.

Lemma bild_als_base64_shape_witness :
  ∃ text,
    (bild_als_base64 (lit "tafel.jpg") (tafel_world [])).1 = Ok text
    ∧ length text = 8%nat.
Proof.
  destruct (bild_als_base64_shape (lit "tafel.jpg") tafel_jpg (tafel_world []))
    as (text & Hrun & Hl & _); [vm_compute; reflexivity|].
  exists text. exact (conj Hrun Hl).
Defined.

(** X3.  Files with different contents give different texts: from the text
    that [bild_als_base64] returns the content of the file can be told. *)
Theorem bild_als_base64_injective (pfad pfad' : str) (data data' : list byte)
    (w w' : World) :
  files w !! pfad = Some (File data) →
  files w' !! pfad' = Some (File data') →
  (bild_als_base64 pfad w).1 = (bild_als_base64 pfad' w').1 →
  data = data'.
Proof.
  intros Hf Hf'. rewrite (bild_als_base64_eq _ _ _ Hf), (bild_als_base64_eq _ _ _ Hf').
  cbn [fst]. intros [= E].
  apply (f_equal b64decode) in E. rewrite !b64decode_b64encode in E. by injection E.
Qed.

Lemma bild_als_base64_injective_witness :
  let w := tafel_world [] in
  let w' := demo_world {[ lit "kopie.jpg" := File tafel_jpg ]} [] [] in
  (bild_als_base64 (lit "tafel.jpg") w).1 = (bild_als_base64 (lit "kopie.jpg") w').1
  ∧ tafel_jpg = tafel_jpg.
Proof.
  intros w w'.
  assert ((bild_als_base64 (lit "tafel.jpg") w).1
          = (bild_als_base64 (lit "kopie.jpg") w').1) as E
    by (vm_compute; reflexivity).
  split; [exact E|].
  apply (bild_als_base64_injective (lit "tafel.jpg") (lit "kopie.jpg")
           tafel_jpg tafel_jpg w w'); [vm_compute; reflexivity..|exact E].
Defined.

(** ** The clock, the time zone and the hosted model stay as they are *)

Lemma steady_ret {A} (a : A) : steady (mret a : M A).
Proof. by intros w. Qed.

Lemma steady_raise {A} (e : exception) : steady (raise e : M A).
Proof. by intros w. Qed.

Lemma steady_bind {A B} (m : M A) (k : A → M B) :
  steady m → (∀ a, steady (k a)) → steady (m ≫= k).
Proof.
  intros Hm Hk w. rewrite bind_eq. destruct (Hm w) as (Hc & Hz & Hh).
  destruct (m w) as [[a|e] w1]; cbn [snd] in *; [|done].
  destruct (Hk a w1) as (Hc' & Hz' & Hh'). by rewrite Hc', Hz', Hh'.
Qed.

Lemma steady_read_binary (pfad : str) : steady (read_binary pfad).
Proof.
  intros w. unfold read_binary. by destruct (files (log _ w) !! pfad) as [[|]|].
Qed.

Lemma steady_mkdir_exist_ok (pfad : str) : steady (mkdir_exist_ok pfad).
Proof.
  intros w. unfold mkdir_exist_ok. by destruct (files (log _ w) !! pfad) as [[|]|].
Qed.

Lemma steady_datetime_now : steady datetime_now.
Proof. intros w. unfold datetime_now. cbn [tz]. by destruct (localtime _ _). Qed.

Lemma steady_open_write (pfad : str) : steady (open_write pfad).
Proof.
  intros w. unfold open_write. by destruct (files (log _ w) !! pfad) as [[|]|].
Qed.

Lemma steady_write (pfad chunk : str) : steady (write pfad chunk).
Proof.
  intros w. unfold write. destruct (utf8_encode chunk); [|done].
  by destruct (files (log _ w) !! pfad) as [[|]|].
Qed.

Lemma steady_messages_create (client : Anthropic) (req : request) :
  steady (messages_create client req).
Proof. intros w. unfold messages_create. by destruct (client req). Qed.

Lemma steady_zeitstempel : steady zeitstempel.
Proof.
  apply steady_bind; [apply steady_datetime_now | intros; apply steady_ret].
Qed.

Lemma steady_bild_als_base64 (pfad : str) : steady (bild_als_base64 pfad).
Proof.
  apply steady_bind; [apply steady_read_binary | intros; apply steady_ret].
Qed.

(** ** The time stamp *)


(** ** Storing: every outcome *)

Section Outcomes.
Context `{FloatRepr}.

Lemma steady_write_chunks (pfad : str) (chunks : list str) :
  steady (write_chunks pfad chunks).
Proof.
  induction chunks as [|chunk chunks IH]; [apply steady_ret|].
  cbn [write_chunks]. apply steady_bind; [apply steady_write | done].
Qed.

Lemma steady_json_speichern (daten : pyval) : steady (json_speichern daten).
Proof.
  apply steady_bind; [apply steady_mkdir_exist_ok|]. intros _.
  apply steady_bind; [apply steady_zeitstempel|]. intros stempel.
  apply steady_bind; [apply steady_open_write|]. intros _.
  apply steady_bind; [apply steady_write_chunks|]. intros _. apply steady_ret.
Qed.

(** The name of the directory is taken by a file. *)
Lemma json_speichern_file_in_the_way (daten : pyval) (w : World) (content : list byte) :
  files w !! export_dir = Some (File content) →
  json_speichern daten w = (Raise FileExistsError, log (EvMkdir export_dir) w).
Proof.
  intros Hdir. unfold json_speichern. rewrite bind_eq.
  unfold mkdir_exist_ok. cbn [files log]. fold export_dir. by rewrite Hdir.
Qed.

(** The clock cannot be read as a local time. *)
Lemma json_speichern_no_time (daten : pyval) (w : World) :
  (∀ content, files w !! export_dir ≠ Some (File content)) →
  localtime (tz w) (next_reading w) = None →
  (json_speichern daten w).1 = Raise ValueError
  ∧ files (json_speichern daten w).2 = <[export_dir := Directory]> (files w).
Proof.
  intros Hdir Hd. unfold json_speichern. rewrite bind_eq.
  unfold mkdir_exist_ok. cbn [files log]. fold export_dir.
  destruct (files w !! export_dir) as [[content|]|] eqn:E.
  - by destruct (Hdir content).
  - rewrite bind_eq. unfold zeitstempel. rewrite bind_eq.
    unfold datetime_now, next_reading in *. cbn [tz log clock clock_reads].
    rewrite Hd. cbn. by rewrite insert_id.
  - rewrite bind_eq. unfold zeitstempel. rewrite bind_eq.
    unfold datetime_now, next_reading in *.
    cbn [tz log clock clock_reads set_files]. by rewrite Hd.
Qed.

(** The name of the export file is taken by a directory. *)
Lemma json_speichern_dir_in_the_way (daten : pyval) (w : World) (d : datetime) :
  (∀ content, files w !! export_dir ≠ Some (File content)) →
  localtime (tz w) (next_reading w) = Some d →
  files w !! export_path (strftime_Ymd_HMS d) = Some Directory →
  (json_speichern daten w).1 = Raise IsADirectoryError
  ∧ files (json_speichern daten w).2 = <[export_dir := Directory]> (files w).
Proof.
  intros Hdir Hd Hpath. unfold json_speichern. rewrite bind_eq.
  unfold mkdir_exist_ok. cbn [files log]. fold export_dir.
  destruct (files w !! export_dir) as [[content|]|] eqn:E.
  - by destruct (Hdir content).
  - rewrite bind_eq. unfold zeitstempel. rewrite bind_eq.
    unfold datetime_now, next_reading in *. cbn [tz log clock clock_reads].
    rewrite Hd, mret_eq. fold (export_path (strftime_Ymd_HMS d)).
    rewrite bind_eq. unfold open_write. cbn [files log]. rewrite Hpath.
    cbn. by rewrite insert_id.
  - rewrite bind_eq. unfold zeitstempel. rewrite bind_eq.
    unfold datetime_now, next_reading in *. cbn [tz log clock clock_reads set_files].
    rewrite Hd, mret_eq. fold (export_path (strftime_Ymd_HMS d)).
    rewrite bind_eq. unfold open_write. cbn [files log set_files].
    rewrite lookup_insert_ne by (symmetry; apply export_path_not_dir).
    by rewrite Hpath.
Qed.

(** The four ways a call of [json_speichern] can go. *)
Lemma json_speichern_result (daten : pyval) (w : World) :
  (∃ content, files w !! export_dir = Some (File content)
              ∧ json_speichern daten w
                = (Raise FileExistsError, log (EvMkdir export_dir) w))
  ∨ ((∀ content, files w !! export_dir ≠ Some (File content))
     ∧ ((localtime (tz w) (next_reading w) = None
         ∧ (json_speichern daten w).1 = Raise ValueError
         ∧ files (json_speichern daten w).2 = <[export_dir := Directory]> (files w))
        ∨ ∃ d, localtime (tz w) (next_reading w) = Some d
               ∧ ((files w !! export_path (strftime_Ymd_HMS d) = Some Directory
                   ∧ (json_speichern daten w).1 = Raise IsADirectoryError
                   ∧ files (json_speichern daten w).2
                     = <[export_dir := Directory]> (files w))
                  ∨ (files w !! export_path (strftime_Ymd_HMS d) ≠ Some Directory
                     ∧ ∃ content,
                         files (json_speichern daten w).2
                         = <[export_path (strftime_Ymd_HMS d) := File content]>
                             (<[export_dir := Directory]> (files w))
                         ∧ match utf8_encode (json_dumps daten) with
                           | Some encoded =>
                               (json_speichern daten w).1
                               = Ok (export_path (strftime_Ymd_HMS d))
                               ∧ content = encoded
                           | None =>
                               (json_speichern daten w).1 = Raise UnicodeEncodeError
                           end)))).
Proof.
  destruct (files w !! export_dir) as [[content|]|] eqn:Edir.
  { left. exists content. split; [done|].
    by apply (json_speichern_file_in_the_way daten w content). }
  all: right.
  all: assert (∀ content, files w !! export_dir ≠ Some (File content)) as Hdir
    by (intros content; by rewrite Edir).
  all: split; [done|].
  all: destruct (localtime (tz w) (next_reading w)) as [d|] eqn:Hd;
    [right; exists d; split; [done|]
    |left; split; [done|]; by apply json_speichern_no_time].
  all: assert (files w !! export_path (strftime_Ymd_HMS d) = Some Directory
               ∨ files w !! export_path (strftime_Ymd_HMS d) ≠ Some Directory)
    as [Hpath|Hpath]
    by (destruct (files w !! export_path _) as [[|]|]; [by right|by left|by right]);
    [left; split; [done|]; by apply (json_speichern_dir_in_the_way daten w d)|].
  all: right; split; [done|].
  all: destruct (json_speichern_run daten w d Hdir Hd Hpath)
    as (content & Hfiles & _ & Hout).
  all: by exists content.
Qed.

(** A call that returns has written the encoded text to the path it
    returns. *)
Lemma json_speichern_ok (daten : pyval) (w : World) (pfad : str) :
  (json_speichern daten w).1 = Ok pfad →
  ∃ d encoded,
    localtime (tz w) (next_reading w) = Some d
    ∧ pfad = export_path (strftime_Ymd_HMS d)
    ∧ utf8_encode (json_dumps daten) = Some encoded
    ∧ files (json_speichern daten w).2
      = <[pfad := File encoded]> (<[export_dir := Directory]> (files w)).
Proof.
  intros Hok.
  destruct (json_speichern_result daten w)
    as [(content & _ & E)
       | (_ & [(_ & E & _) | (d & Hd & [(_ & E & _) | (_ & content & Hfiles & Hout)])])].
  - rewrite E in Hok. done.
  - rewrite E in Hok. done.
  - rewrite E in Hok. done.
  - destruct (utf8_encode (json_dumps daten)) as [encoded|]; [|congruence].
    destruct Hout as [E ->]. rewrite E in Hok. injection Hok as <-.
    by exists d, encoded.
Qed.

(** A call changes nothing outside the export directory. *)
Lemma json_speichern_frame (daten : pyval) (w : World) (pfad : str) :
  under_exports pfad = false →
  files (json_speichern daten w).2 !! pfad = files w !! pfad.
Proof.
  intros Hout.
  assert (pfad ≠ export_dir) as Hne1.
  { intros ->. unfold under_exports in Hout.
    rewrite <- (app_nil_r export_dir) in Hout at 2.
    by rewrite startswith_app in Hout. }
  assert (∀ stempel, pfad ≠ export_path stempel) as Hne2.
  { intros stempel ->. unfold under_exports, export_path in Hout.
    by rewrite startswith_app in Hout. }
  destruct (json_speichern_result daten w)
    as [(content & _ & ->)
       | (_ & [(_ & _ & ->) | (d & _ & [(_ & _ & ->) | (_ & content & -> & _)])])].
  - done.
  - by rewrite lookup_insert_ne.
  - by rewrite lookup_insert_ne.
  - rewrite lookup_insert_ne by (apply not_eq_sym, Hne2). by rewrite lookup_insert_ne.
Qed.

End Outcomes.

(** ** Storing twice *)

Section Calls.
Context `{FloatRepr}.

Lemma export_path_inj (s t : str) : export_path s = export_path t → s = t.
Proof.
  unfold export_path. intros E.
  apply app_inv_head in E. apply app_inv_head in E. apply app_inv_head in E.
  by apply app_inv_tail in E.
Qed.

(** The world a first call leaves to a second one. *)
Lemma json_speichern_next (daten : pyval) (w : World) (d : datetime) :
  (∀ content, files w !! export_dir ≠ Some (File content)) →
  localtime (tz w) (next_reading w) = Some d →
  files w !! export_path (strftime_Ymd_HMS d) ≠ Some Directory →
  ∃ content,
    files (json_speichern daten w).2
    = <[export_path (strftime_Ymd_HMS d) := File content]>
        (<[export_dir := Directory]> (files w))
    ∧ (∀ encoded, utf8_encode (json_dumps daten) = Some encoded →
                  (json_speichern daten w).1 = Ok (export_path (strftime_Ymd_HMS d))
                  ∧ content = encoded)
    ∧ (∀ content', files (json_speichern daten w).2 !! export_dir
                   ≠ Some (File content'))
    ∧ tz (json_speichern daten w).2 = tz w
    ∧ next_reading (json_speichern daten w).2 = clock w (S (clock_reads w)).
Proof.
  intros Hdir Hd Hpath.
  destruct (json_speichern_run daten w d Hdir Hd Hpath)
    as (content & Hfiles & Hreads & Hout).
  destruct (steady_json_speichern daten w) as (Hclock & Htz & _).
  exists content. split; [done|]. split; [|split; [|split]].
  - intros encoded E. by rewrite E in Hout.
  - intros content'. rewrite Hfiles.
    rewrite lookup_insert_ne by apply export_path_not_dir.
    by rewrite lookup_insert_eq.
  - done.
  - unfold next_reading. by rewrite Hclock, Hreads.
Qed.

(** X6.  Two calls of [json_speichern] whose clock readings have the same
    time stamp write to the same file: the second call returns the path of
    the first, and afterwards the file holds the second value only; the files
    are what the second call alone would have left. *)
Theorem json_speichern_overwrites (daten1 daten2 : pyval) (w : World)
    (d d' : datetime) (encoded2 : list byte) :
  (∀ content, files w !! export_dir ≠ Some (File content)) →
  localtime (tz w) (next_reading w) = Some d →
  files w !! export_path (strftime_Ymd_HMS d) ≠ Some Directory →
  localtime (tz w) (clock w (S (clock_reads w))) = Some d' →
  strftime_Ymd_HMS d' = strftime_Ymd_HMS d →
  utf8_encode (json_dumps daten2) = Some encoded2 →
  (json_speichern daten2 (json_speichern daten1 w).2).1
  = Ok (export_path (strftime_Ymd_HMS d))
  ∧ files (json_speichern daten2 (json_speichern daten1 w).2).2
    = <[export_path (strftime_Ymd_HMS d) := File encoded2]>
        (<[export_dir := Directory]> (files w))
  ∧ files (json_speichern daten2 (json_speichern daten1 w).2).2
    = files (json_speichern daten2 w).2.
Proof.
  intros Hdir Hd Hpath Hd' Hsame Henc.
  destruct (json_speichern_next daten1 w d Hdir Hd Hpath)
    as (content1 & Hfiles1 & _ & Hdir1 & Htz1 & Hnext1).
  set (w1 := (json_speichern daten1 w).2) in *.
  assert (localtime (tz w1) (next_reading w1) = Some d') as Hd1
    by (by rewrite Htz1, Hnext1).
  assert (files w1 !! export_path (strftime_Ymd_HMS d') ≠ Some Directory) as Hpath1.
  { rewrite Hsame, Hfiles1, lookup_insert_eq. done. }
  destruct (json_speichern_next daten2 w1 d' Hdir1 Hd1 Hpath1)
    as (content2 & Hfiles2 & Hout2 & _).
  destruct (Hout2 encoded2 Henc) as [Hrun2 ->].
  destruct (json_speichern_next daten2 w d Hdir Hd Hpath)
    as (content & Hfiles & Hout & _).
  destruct (Hout encoded2 Henc) as [_ ->].
  rewrite Hrun2, Hfiles2, Hfiles, Hfiles1, Hsame.
  split; [done|].
  rewrite (insert_insert_ne _ export_dir (export_path (strftime_Ymd_HMS d)))
    by (apply not_eq_sym, export_path_not_dir).
  by rewrite !insert_insert_eq.
Qed.

(** X7.  Two calls of [json_speichern] whose clock readings have different
    time stamps write two files: after the second call the file of the first
    call still holds the first value, and the file of the second call holds
    the second. *)
Theorem json_speichern_keeps_earlier (daten1 daten2 : pyval) (w : World)
    (d d' : datetime) (encoded1 encoded2 : list byte) :
  (∀ content, files w !! export_dir ≠ Some (File content)) →
  localtime (tz w) (next_reading w) = Some d →
  files w !! export_path (strftime_Ymd_HMS d) ≠ Some Directory →
  localtime (tz w) (clock w (S (clock_reads w))) = Some d' →
  strftime_Ymd_HMS d' ≠ strftime_Ymd_HMS d →
  files w !! export_path (strftime_Ymd_HMS d') ≠ Some Directory →
  utf8_encode (json_dumps daten1) = Some encoded1 →
  utf8_encode (json_dumps daten2) = Some encoded2 →
  (json_speichern daten1 w).1 = Ok (export_path (strftime_Ymd_HMS d))
  ∧ (json_speichern daten2 (json_speichern daten1 w).2).1
    = Ok (export_path (strftime_Ymd_HMS d'))
  ∧ files (json_speichern daten2 (json_speichern daten1 w).2).2
    !! export_path (strftime_Ymd_HMS d) = Some (File encoded1)
  ∧ files (json_speichern daten2 (json_speichern daten1 w).2).2
    !! export_path (strftime_Ymd_HMS d') = Some (File encoded2).
Proof.
  intros Hdir Hd Hpath Hd' Hdiff Hpath' Henc1 Henc2.
  assert (export_path (strftime_Ymd_HMS d') ≠ export_path (strftime_Ymd_HMS d))
    as Hne by (by intros E%export_path_inj).
  destruct (json_speichern_next daten1 w d Hdir Hd Hpath)
    as (content1 & Hfiles1 & Hout1 & Hdir1 & Htz1 & Hnext1).
  destruct (Hout1 encoded1 Henc1) as [Hrun1 ->].
  set (w1 := (json_speichern daten1 w).2) in *.
  assert (localtime (tz w1) (next_reading w1) = Some d') as Hd1
    by (by rewrite Htz1, Hnext1).
  assert (files w1 !! export_path (strftime_Ymd_HMS d') ≠ Some Directory) as Hpath1.
  { rewrite Hfiles1, lookup_insert_ne by done.
    by rewrite lookup_insert_ne by (apply not_eq_sym, export_path_not_dir). }
  destruct (json_speichern_next daten2 w1 d' Hdir1 Hd1 Hpath1)
    as (content2 & Hfiles2 & Hout2 & _).
  destruct (Hout2 encoded2 Henc2) as [Hrun2 ->].
  rewrite Hrun2, Hfiles2, Hfiles1.
  split; [done|]. split; [done|]. split.
  - rewrite lookup_insert_ne by done.
    rewrite lookup_insert_ne by (apply not_eq_sym, export_path_not_dir).
    by rewrite lookup_insert_eq.
  - by rewrite lookup_insert_eq.
Qed.
End Calls.

Lemma json_speichern_overwrites_witness :
  let w := two_readings 1729989000000000 1729989000500000 in
  let first := json_speichern (H := repr_literal) (notes (lit "A") (lit "B")) w in
  let second := json_speichern (H := repr_literal) (notes (lit "X") (lit "Y")) first.2 in
  second.1 = Ok (lit "whiteboard_exports/lecture_notes_20241027_023000.json")
  ∧ files second.2
    = files (json_speichern (H := repr_literal) (notes (lit "X") (lit "Y")) w).2.
Proof.
  intros w first second.
  pose (d := {| year := 2024; month := 10; day := 27; hour := 2; minute := 30;
                second := 0; microsecond := 0 |}%Z).
  pose (d' := {| year := 2024; month := 10; day := 27; hour := 2; minute := 30;
                 second := 0; microsecond := 500000 |}%Z).
  assert (∀ content, files w !! export_dir ≠ Some (File content)) as Hdir
    by (intros content; vm_compute; discriminate).
  assert (localtime (tz w) (next_reading w) = Some d) as Hd
    by (vm_compute; reflexivity).
  assert (files w !! export_path (strftime_Ymd_HMS d) ≠ Some Directory) as Hpath
    by (vm_compute; discriminate).
  assert (localtime (tz w) (clock w (S (clock_reads w))) = Some d') as Hd'
    by (vm_compute; reflexivity).
  assert (strftime_Ymd_HMS d' = strftime_Ymd_HMS d) as Hsame
    by (vm_compute; reflexivity).
  assert (utf8_encode (json_dumps (H := repr_literal) (notes (lit "X") (lit "Y")))
          = Some (default [] (utf8_encode
                                (json_dumps (H := repr_literal)
                                   (notes (lit "X") (lit "Y")))))) as Henc
    by (vm_compute; reflexivity).
  destruct (json_speichern_overwrites (H := repr_literal) (notes (lit "A") (lit "B"))
              (notes (lit "X") (lit "Y")) w d d' _ Hdir Hd Hpath Hd' Hsame Henc)
    as (Hrun & _ & Hfiles).
  exact (conj Hrun Hfiles).
Defined.

Lemma json_speichern_keeps_earlier_witness :
  let w := two_readings 1729989000000000 1729989002500000 in
  let first := json_speichern (H := repr_literal) (notes (lit "A") (lit "B")) w in
  let second := json_speichern (H := repr_literal) (notes (lit "X") (lit "Y")) first.2 in
  first.1 = Ok (lit "whiteboard_exports/lecture_notes_20241027_023000.json")
  ∧ second.1 = Ok (lit "whiteboard_exports/lecture_notes_20241027_023002.json")
  ∧ is_Some (files second.2
             !! lit "whiteboard_exports/lecture_notes_20241027_023000.json").
Proof.
  intros w first second.
  pose (d := {| year := 2024; month := 10; day := 27; hour := 2; minute := 30;
                second := 0; microsecond := 0 |}%Z).
  pose (d' := {| year := 2024; month := 10; day := 27; hour := 2; minute := 30;
                 second := 2; microsecond := 500000 |}%Z).
  assert (∀ content, files w !! export_dir ≠ Some (File content)) as Hdir
    by (intros content; vm_compute; discriminate).
  assert (localtime (tz w) (next_reading w) = Some d) as Hd
    by (vm_compute; reflexivity).
  assert (files w !! export_path (strftime_Ymd_HMS d) ≠ Some Directory) as Hpath
    by (vm_compute; discriminate).
  assert (localtime (tz w) (clock w (S (clock_reads w))) = Some d') as Hd'
    by (vm_compute; reflexivity).
  assert (strftime_Ymd_HMS d' ≠ strftime_Ymd_HMS d) as Hdiff
    by (vm_compute; discriminate).
  assert (files w !! export_path (strftime_Ymd_HMS d') ≠ Some Directory) as Hpath'
    by (vm_compute; discriminate).
  assert (utf8_encode (json_dumps (H := repr_literal) (notes (lit "A") (lit "B")))
          = Some (default [] (utf8_encode
                                (json_dumps (H := repr_literal)
                                   (notes (lit "A") (lit "B")))))) as Henc1
    by (vm_compute; reflexivity).
  assert (utf8_encode (json_dumps (H := repr_literal) (notes (lit "X") (lit "Y")))
          = Some (default [] (utf8_encode
                                (json_dumps (H := repr_literal)
                                   (notes (lit "X") (lit "Y")))))) as Henc2
    by (vm_compute; reflexivity).
  destruct (json_speichern_keeps_earlier (H := repr_literal) (notes (lit "A") (lit "B"))
              (notes (lit "X") (lit "Y")) w d d' _ _
              Hdir Hd Hpath Hd' Hdiff Hpath' Henc1 Henc2)
    as (Hrun1 & Hrun2 & Hfile1 & _).
  exact (conj Hrun1 (conj Hrun2 (ex_intro _ _ Hfile1))).
Defined.

(** ** Storing: what reaches the file *)

Section Written.
Context `{FloatRepr}.

(** When the text cannot be encoded, what was written is the encoding of the
    chunks before the first one that cannot be encoded. *)
Lemma write_chunks_partial (pfad : str) (chunks : list str) (w : World)
    (old : list byte) :
  files w !! pfad = Some (File old) →
  utf8_encode (concat chunks) = None →
  ∃ written rest bytes,
    concat chunks = written ++ rest
    ∧ utf8_encode written = Some bytes
    ∧ utf8_encode rest = None
    ∧ files (write_chunks pfad chunks w).2 = <[pfad := File (old ++ bytes)]> (files w).
Proof.
  revert w old. induction chunks as [|chunk chunks IH]; intros w old Hf Henc; [done|].
  cbn [concat] in Henc. rewrite utf8_encode_app in Henc.
  cbn [write_chunks concat]. rewrite bind_eq. unfold write. cbn [files log].
  destruct (utf8_encode chunk) as [b1|] eqn:Hb1.
  - rewrite Hf. set (w1 := set_files _ _).
    destruct (utf8_encode (concat chunks)) as [?|] eqn:Hrest; [done|].
    destruct (IH w1 (old ++ b1)) as (written & rest & bytes & E & Hw & Hr & Hfiles).
    { subst w1. cbn. apply lookup_insert_eq. }
    { done. }
    exists (chunk ++ written), rest, (b1 ++ bytes).
    rewrite E, Hfiles, utf8_encode_app, Hb1, Hw. subst w1. cbn.
    by rewrite insert_insert_eq, <- !app_assoc.
  - exists [], (chunk ++ concat chunks), []. cbn [fst snd files log app].
    rewrite utf8_encode_app, Hb1, app_nil_r. by rewrite insert_id.
Qed.

(** The world in which the text is written: the directory is there and the
    export file is open and empty. *)
Lemma json_speichern_writes (daten : pyval) (w : World) (d : datetime) :
  (∀ content, files w !! export_dir ≠ Some (File content)) →
  localtime (tz w) (next_reading w) = Some d →
  files w !! export_path (strftime_Ymd_HMS d) ≠ Some Directory →
  ∃ w2,
    files w2 = <[export_path (strftime_Ymd_HMS d) := File []]>
                 (<[export_dir := Directory]> (files w))
    ∧ (json_speichern daten w).2
      = (write_chunks (export_path (strftime_Ymd_HMS d)) (iterencode 0 daten) w2).2.
Proof.
  intros Hdir Hd Hpath. set (pfad := export_path (strftime_Ymd_HMS d)) in *.
  assert (∃ w1, mkdir_exist_ok (lit "whiteboard_exports") w = (Ok (), w1)
                ∧ files w1 = <[export_dir := Directory]> (files w)
                ∧ clock w1 = clock w ∧ clock_reads w1 = clock_reads w
                ∧ tz w1 = tz w) as (w1 & Hmk & Hf1 & Hc1 & Hr1 & Hz1).
  { unfold mkdir_exist_ok. cbn [files log].
    destruct (files w !! lit "whiteboard_exports") as [[content|]|] eqn:E.
    - by destruct (Hdir content).
    - eexists. split; [reflexivity|]. cbn. by rewrite insert_id.
    - eexists. split; [reflexivity|]. done. }
  unfold json_speichern. rewrite bind_eq, Hmk. rewrite bind_eq.
  unfold zeitstempel. rewrite bind_eq. unfold datetime_now, next_reading in *.
  cbn [tz]. rewrite Hz1, Hc1, Hr1, Hd. rewrite mret_eq.
  fold export_dir. fold (export_path (strftime_Ymd_HMS d)). fold pfad.
  rewrite bind_eq. unfold open_write. cbn [files log]. rewrite Hf1.
  rewrite lookup_insert_ne by (symmetry; apply export_path_not_dir).
  destruct (files w !! pfad) as [[old|]|] eqn:Epf; [|done|].
  all: set (w2 := set_files _ _); exists w2.
  all: split; [subst w2; by cbn|].
  all: rewrite bind_eq; unfold json_dump.
  all: by destruct (write_chunks pfad (iterencode 0 daten) w2) as [[[]|e] w3].
Qed.

(** X8.  When the text of the value cannot be encoded as UTF-8, which is
    when it holds a surrogate, [json_speichern] raises [UnicodeEncodeError]
    and leaves the export file behind: the file holds the encoding of a
    beginning of the text, and the rest of the text, which is not empty, is
    missing. *)
Theorem json_speichern_partial_file (daten : pyval) (w : World) (d : datetime) :
  (∀ content, files w !! export_dir ≠ Some (File content)) →
  localtime (tz w) (next_reading w) = Some d →
  files w !! export_path (strftime_Ymd_HMS d) ≠ Some Directory →
  forallb is_scalar (json_dumps daten) = false →
  (json_speichern daten w).1 = Raise UnicodeEncodeError
  ∧ ∃ written rest bytes,
      json_dumps daten = written ++ rest
      ∧ rest ≠ []
      ∧ utf8_encode written = Some bytes
      ∧ files (json_speichern daten w).2 !! export_path (strftime_Ymd_HMS d)
        = Some (File bytes).
Proof.
  intros Hdir Hd Hpath Hsur.
  assert (utf8_encode (json_dumps daten) = None) as Henc.
  { destruct (utf8_encode (json_dumps daten)) as [encoded|] eqn:E; [|done].
    apply utf8_encode_some_scalar in E. congruence. }
  destruct (json_speichern_run daten w d Hdir Hd Hpath) as (content & _ & _ & Hout).
  rewrite Henc in Hout. split; [done|].
  destruct (json_speichern_writes daten w d Hdir Hd Hpath) as (w2 & Hf2 & ->).
  destruct (write_chunks_partial (export_path (strftime_Ymd_HMS d)) (iterencode 0 daten)
              w2 []) as (written & rest & bytes & E & Hw & Hr & Hfiles).
  { rewrite Hf2. apply lookup_insert_eq. }
  { exact Henc. }
  exists written, rest, bytes. split; [exact E|]. split; [by intros ->|].
  split; [done|]. rewrite Hfiles. apply lookup_insert_eq.
Qed.

(** *** Keys that are not strings *)

Lemma json_dumps_keys_as_text (dct : list (pykey * pyval)) :
  json_dumps (PyDict (keys_as_text dct)) = json_dumps (PyDict dct).
Proof.
  rewrite !json_dumps_text. destruct dct as [|[key value] dct]; [done|].
  unfold keys_as_text. cbn [map fst snd]. rewrite !json_text_dict_cons. cbn [key_text].
  rewrite flat_map_concat_map, map_map, <- flat_map_concat_map. done.
Qed.

End Written.

Lemma json_speichern_partial_file_witness :
  let daten := PyDict [(KStr (lit "topic"), PyStr [0xD800])] in
  let run := json_speichern (H := repr_literal) daten (tafel_world []) in
  run.1 = Raise UnicodeEncodeError
  ∧ ∃ written rest bytes,
      json_dumps (H := repr_literal) daten = written ++ rest ∧ rest ≠ []
      ∧ utf8_encode written = Some bytes
      ∧ files run.2 !! export_path (lit "20241027_023000") = Some (File bytes).
Proof.
  intros daten run.
  pose (d := {| year := 2024; month := 10; day := 27; hour := 2; minute := 30;
                second := 0; microsecond := 0 |}%Z).
  apply (json_speichern_partial_file (H := repr_literal) daten (tafel_world []) d).
  - intros content. vm_compute. discriminate.
  - vm_compute. reflexivity.
  - vm_compute. discriminate.
  - vm_compute. reflexivity.
Defined.


(** ** The cleaning step: what it keeps *)

Lemma lstrip_nonspace (c : codepoint) (s : str) :
  isspace c = false → lstrip (c :: s) = c :: s.
Proof. intros Hc. cbn [lstrip]. by rewrite Hc. Qed.

Lemma rstrip_nonspace (s : str) (e : codepoint) :
  isspace e = false → rstrip (s ++ [e]) = s ++ [e].
Proof.
  intros He. unfold rstrip. rewrite rev_app_distr. cbn [rev app].
  rewrite lstrip_nonspace by done. cbn [rev]. by rewrite rev_involutive.
Qed.

Lemma lstrip_idem (s : str) : lstrip (lstrip s) = lstrip s.
Proof.
  induction s as [|c s IH]; [done|]. cbn [lstrip].
  destruct (isspace c) eqn:Hc; [done|]. by apply lstrip_nonspace.
Qed.

Lemma rstrip_idem (s : str) : rstrip (rstrip s) = rstrip s.
Proof. unfold rstrip. by rewrite rev_involutive, lstrip_idem. Qed.

(** What [lstrip] returns is empty or begins with a character that is not
    whitespace. *)
Lemma lstrip_head (s : str) :
  lstrip s = [] ∨ ∃ c t, lstrip s = c :: t ∧ isspace c = false.
Proof.
  induction s as [|c s IH]; [by left|]. cbn [lstrip].
  destruct (isspace c) eqn:Hc; [done|]. right. by exists c, s.
Qed.

Lemma lstrip_rstrip (s : str) : lstrip (rstrip (lstrip s)) = rstrip (lstrip s).
Proof.
  destruct (lstrip_head s) as [E | (c & t & E & Hc)]; rewrite E; [done|].
  destruct (rstrip_prefix (c :: t)) as [b Eb].
  destruct (rstrip (c :: t)) as [|c' t'] eqn:Er; [done|].
  injection Eb as <- _. by apply lstrip_nonspace.
Qed.

Lemma strip_idem (s : str) : strip (strip s) = strip s.
Proof. unfold strip. by rewrite lstrip_rstrip, rstrip_idem. Qed.

(** A text whose first and last characters are not whitespace is left as it
    is. *)
Lemma strip_trimmed (c e : codepoint) (t t' : str) :
  isspace c = false → isspace e = false → c :: t = t' ++ [e] → strip (c :: t) = c :: t.
Proof.
  intros Hc He E. unfold strip. rewrite lstrip_nonspace by done.
  rewrite E. by apply rstrip_nonspace.
Qed.

Lemma replace_from_sublist (old : str) (skip : nat) (s : str) :
  sublist (replace_from old [] skip s) s.
Proof.
  revert skip. induction s as [|c s IH]; intros skip; [done|].
  cbn [replace_from]. destruct skip as [|k]; [|apply sublist_cons, IH].
  destruct (startswith old (c :: s)); [apply sublist_cons, IH|apply sublist_skip, IH].
Qed.

Lemma strip_sublist (s : str) : sublist (strip s) s.
Proof.
  destruct (strip_infix s) as (a & b & E). rewrite E at 2.
  apply sublist_inserts_l, sublist_inserts_r. done.
Qed.

(** X10.  The cleaning step only deletes: the cleaned text is the reply with
    some characters left out, the others in their order; it is never longer
    than the reply. *)
Theorem bereinigt_only_deletes (rohtext : str) :
  sublist (bereinigt rohtext) rohtext
  ∧ (length (bereinigt rohtext) ≤ length rohtext)%nat.
Proof.
  assert (sublist (bereinigt rohtext) rohtext) as Hsub.
  { rewrite bereinigt_eq.
    etransitivity; [apply strip_sublist|].
    etransitivity; apply replace_from_sublist. }
  split; [done|]. by apply sublist_length.
Qed.

(** X11.  Cleaning a cleaned text changes nothing. *)
Theorem bereinigt_idempotent (rohtext : str) :
  bereinigt (bereinigt rohtext) = bereinigt rohtext.
Proof.
  pose proof (bereinigt_no_fence rohtext) as Hno.
  rewrite (bereinigt_eq (bereinigt rohtext)).
  rewrite (replace_from_absent fence_json).
  - rewrite (replace_from_absent fence) by done.
    rewrite bereinigt_eq. apply strip_idem.
  - intros (a & b & E). apply Hno. exists a, (lit "json" ++ b).
    rewrite E, fence_json_eq. by rewrite <- app_assoc.
Qed.

(** ** The encoder's text, cleaned *)

Lemma int_repr_last (z : Z) : ∃ t e, int_repr z = t ++ [e] ∧ is_digit e = true.
Proof.
  assert (∀ p, ∃ t e, uint_chars (Pos.to_uint p) = t ++ [e] ∧ is_digit e = true) as Hp.
  { intros p. pose proof (uint_chars_digits (Pos.to_uint p)) as Hd.
    pose proof (DecimalPos.Unsigned.to_uint_nonnil p) as Hn.
    destruct (uint_chars (Pos.to_uint p)) as [|e t _] eqn:E using rev_ind.
    - destruct (Pos.to_uint p); done.
    - exists t, e. split; [done|]. rewrite forallb_app in Hd. cbn [forallb] in Hd.
      apply andb_true_iff in Hd as [_ Hd]. by apply andb_true_iff in Hd as [? _]. }
  destruct z as [|p|p]; cbn [int_repr].
  - by exists [], 0x30.
  - apply Hp.
  - destruct (Hp p) as (t & e & -> & He). exists (lit "-" ++ t), e.
    by rewrite <- app_assoc.
Qed.

Lemma is_digit_not_space (c : codepoint) : is_digit c = true → isspace c = false.
Proof.
  unfold is_digit. intros Hc. N_bools.
  assert (In c (map N.of_nat (seq 48 10))) as Hin.
  { apply in_map_iff. exists (N.to_nat c). split; [lia|]. apply in_seq. lia. }
  cbn [seq map] in Hin.
  repeat (destruct Hin as [<-|Hin]; [reflexivity|]). done.
Qed.

Section Cleaned.
Context `{FloatRepr}.

(** The text of a value begins and ends with a character that is not
    whitespace. *)
Lemma json_text_ends (level : nat) (o : pyval) :
  json_native o = true →
  ∃ c t t' e, json_text level o = c :: t ∧ c :: t = t' ++ [e]
              ∧ isspace c = false ∧ isspace e = false.
Proof.
  intros Hn. destruct o as [|[]|z| |s|[|value lst]| |[|[key value] dct]]; try done.
  - by exists 0x6E, (lit "ull"), (lit "nul"), 0x6C.
  - by exists 0x74, (lit "rue"), (lit "tru"), 0x65.
  - by exists 0x66, (lit "alse"), (lit "fals"), 0x65.
  - rewrite (json_text_atom level (PyInt z) (int_repr z)) by done.
    destruct (int_repr_head z) as (c & t & E & Hc).
    destruct (int_repr_last z) as (t' & e & E' & He).
    exists c, t, t', e. split; [done|]. split; [congruence|].
    split; [|by apply is_digit_not_space].
    destruct Hc as [Hc | ->]; [by apply is_digit_not_space|done].
  - rewrite (json_text_atom level (PyStr s) (encode_basestring s)) by done.
    eexists 0x22, _, ([0x22] ++ flat_map escape_char s), 0x22.
    split; [reflexivity|]. split; [|done]. by rewrite <- app_assoc.
  - by exists 0x5B, (lit "]"), (lit "["), 0x5D.
  - rewrite json_text_list_cons.
    eexists 0x5B, _, (0x5B :: _), 0x5D. split; [reflexivity|]. split; [|done].
    cbn [app]. f_equal. change (lit "]") with [0x5D]. rewrite !app_assoc. reflexivity.
  - by exists 0x7B, (lit "}"), (lit "{"), 0x7D.
  - rewrite json_text_dict_cons.
    eexists 0x7B, _, (0x7B :: _), 0x7D. split; [reflexivity|]. split; [|done].
    cbn [app]. f_equal. change (lit "}") with [0x7D]. rewrite !app_assoc. reflexivity.
Qed.

Lemma strip_json_dumps (o : pyval) :
  json_native o = true → strip (json_dumps o) = json_dumps o.
Proof.
  intros Hn. rewrite json_dumps_text.
  destruct (json_text_ends 0 o Hn) as (c & t & t' & e & -> & E & Hc & He).
  by apply (strip_trimmed c e t t').
Qed.

(** The cleaning step on the text of a value without backticks, fenced or
    as it is. *)
Lemma bereinigt_json_dumps (o : pyval) :
  json_native o = true →
  Forall (λ c, c ≠ backtick) (json_dumps o) →
  bereinigt (json_dumps o) = json_dumps o
  ∧ bereinigt (fenced (json_dumps o)) = json_dumps o.
Proof.
  intros Hn Hticks. rewrite !bereinigt_eq. split.
  - rewrite (replace_from_clean fence_json [] backtick (tl fence_json)) by done.
    rewrite (replace_from_clean fence [] backtick (tl fence)) by done.
    by apply strip_json_dumps.
  - unfold fenced.
    assert (Forall (λ c, c ≠ backtick) ([0x0A] ++ json_dumps o ++ [0x0A])) as Hbody.
    { apply Forall_app. split; [by repeat constructor|].
      apply Forall_app. split; [done|by repeat constructor]. }
    replace (fence_json ++ [0x0A] ++ json_dumps o ++ [0x0A] ++ fence)
      with (fence_json ++ ([0x0A] ++ json_dumps o ++ [0x0A]) ++ fence ++ [])
      by (by rewrite app_nil_r, <- !app_assoc).
    rewrite delete_json_head.
    rewrite (delete_json_tail _ fence []) by (done || by right).
    rewrite (delete_fence_tail _ fence []) by (done || by right).
    rewrite app_nil_r.
    rewrite (strip_spaces [0x0A] (json_dumps o) [0x0A]) by done.
    by apply strip_json_dumps.
Qed.


End Cleaned.


(** ** What the parser returns *)

Lemma match_number_value (s rest : str) (number : pyval) :
  match_number s = Some (number, rest) → json_value number = true.
Proof.
  unfold match_number. intros Hm. repeat case_match; by simplify_eq.
Qed.

Lemma dict_set_keys (key : str) (value : pyval) (items : list (pykey * pyval))
    (x : pykey) :
  x ∈ map fst (dict_set key value items) → x ∈ map fst items ∨ x = KStr key.
Proof.
  induction items as [|[k v] items IH].
  - cbn [dict_set map fst]. intros ->%list_elem_of_singleton. by right.
  - assert (x ∈ map fst ((k, v) :: dict_set key value items) →
            x ∈ map fst ((k, v) :: items) ∨ x = KStr key) as Hskip.
    { cbn [map fst]. rewrite !elem_of_cons. intros [->|Hx]; [by left; left|].
      destruct (IH Hx) as [?|?]; [left; by right|by right]. }
    cbn [dict_set]. destruct k as [s| | | |]; try exact Hskip.
    destruct (bool_decide (s = key)); [|exact Hskip].
    cbn [map fst]. intros Hx. by left.
Qed.

Lemma dict_set_value (key : str) (value : pyval) (items : list (pykey * pyval)) :
  json_value (PyDict items) = true → json_value value = true →
  json_value (PyDict (dict_set key value items)) = true.
Proof.
  intros Hitems Hvalue. induction items as [|[k v] items IH].
  - cbn. rewrite Hvalue. cbn. apply bool_decide_eq_true. apply NoDup_singleton.
  - cbn [json_value forallb map fst] in Hitems.
    apply andb_true_iff in Hitems as [Hall Hnd]. apply andb_true_iff in Hall as [Hk Hall].
    apply bool_decide_eq_true in Hnd. apply NoDup_cons in Hnd as [Hfresh Hnd].
    destruct k as [s| | | |]; try done.
    assert (json_value (PyDict items) = true) as Hrest.
    { cbn [json_value]. rewrite Hall. by apply bool_decide_eq_true. }
    specialize (IH Hrest). cbn [dict_set].
    destruct (bool_decide (s = key)) eqn:Es.
    + cbn [json_value forallb map fst]. rewrite Hvalue, Hall. cbn [andb].
      apply bool_decide_eq_true. by apply NoDup_cons.
    + apply bool_decide_eq_false in Es.
      cbn [json_value] in IH. apply andb_true_iff in IH as [IHall IHnd].
      apply bool_decide_eq_true in IHnd.
      cbn [json_value forallb map fst]. rewrite Hk, IHall. cbn [andb].
      apply bool_decide_eq_true. apply NoDup_cons. split; [|done].
      intros [Hin|[=]]%dict_set_keys; [done|congruence].
Qed.

Lemma dict_of_pairs_value (pairs : list (str * pyval)) :
  Forall (λ kv, json_value kv.2 = true) pairs →
  json_value (PyDict (dict_of_pairs pairs)) = true.
Proof.
  unfold dict_of_pairs.
  assert (∀ items, json_value (PyDict items) = true →
                   Forall (λ kv : str * pyval, json_value kv.2 = true) pairs →
                   json_value (PyDict (fold_left (λ items kv, dict_set kv.1 kv.2 items)
                                         pairs items)) = true) as Hfold.
  { induction pairs as [|[k v] pairs IH]; intros items Hitems Hpairs; [done|].
    apply Forall_cons in Hpairs as [Hv Hpairs]. cbn [fold_left fst snd] in *.
    apply IH; [|done]. by apply dict_set_value. }
  intros Hpairs. apply Hfold; [by cbn|done].
Qed.

Lemma forallb_rev_cons {A} (f : A → bool) (x : A) (l : list A) :
  f x = true → Forall (λ y, f y = true) l → forallb f (rev (x :: l)) = true.
Proof.
  intros Hx Hl. apply forallb_forall. intros y Hy.
  apply (proj2 (in_rev (x :: l) y)) in Hy. destruct Hy as [<-|Hy]; [done|].
  rewrite Forall_forall in Hl. by apply Hl, list_elem_of_In.
Qed.

(** What a scan returns is a value of JSON. *)
Lemma scan_value (fuel : nat) :
  (∀ s v rest, scan_once fuel s = Scanned v rest → json_value v = true)
  ∧ (∀ values s v rest,
       Forall (λ x, json_value x = true) values →
       array_items fuel values s = Scanned v rest → json_value v = true)
  ∧ (∀ pairs s v rest,
       Forall (λ kv : str * pyval, json_value kv.2 = true) pairs →
       object_items fuel pairs s = Scanned v rest → json_value v = true).
Proof.
  induction fuel as [|fuel (IHs & IHa & IHo)]; [done|].
  split; [|split].
  - intros s v rest Hs. cbn [scan_once] in Hs. destruct s as [|c s']; [done|].
    repeat case_match; simplify_eq; try done.
    + by eapply IHo.
    + by eapply IHa.
    + by eapply match_number_value.
  - intros values s v rest Hvalues Hs. cbn [array_items] in Hs.
    destruct (scan_once fuel s) as [value rest1| |] eqn:Es; [|done..].
    apply IHs in Es.
    repeat case_match; simplify_eq.
    + cbn [json_value]. by apply forallb_rev_cons.
    + eapply IHa; [|done]. by constructor.
  - intros pairs s v rest Hpairs Hs. cbn [object_items] in Hs.
    destruct (scanstring s) as [[key s1]|]; [|done].
    destruct (skip_ws s1) as [|colon s2]; [done|].
    destruct (colon =? 0x3A); [|done].
    destruct (scan_once fuel (skip_ws s2)) as [value rest1| |] eqn:Es; [|done..].
    apply IHs in Es.
    repeat case_match; simplify_eq.
    + apply dict_of_pairs_value. apply Forall_forall. intros kv Hkv.
      apply list_elem_of_In in Hkv. apply (proj2 (in_rev ((key, value) :: pairs) kv)) in Hkv.
      destruct Hkv as [<-|Hkv]; [done|].
      rewrite Forall_forall in Hpairs. by apply Hpairs, list_elem_of_In.
    + eapply IHo; [|done]. by constructor.
Qed.

Lemma json_loads_value (s : str) (o : pyval) :
  json_loads s = Some o → json_value o = true.
Proof.
  unfold json_loads. intros Hl.
  destruct (startswith _ _); [done|].
  destruct (scan_once _ _) as [obj rest| |] eqn:Es; [|done..].
  destruct (skip_ws rest); [|done]. injection Hl as <-.
  exact (proj1 (scan_value _) _ _ _ Es).
Qed.

(** A value of JSON without floats and surrogates is stored as it is. *)
Lemma json_value_plain (o : pyval) :
  json_value o = true → plain o = true → json_native o = true.
Proof.
  induction o as [|b|z|literal|s|lst IH|lst IH|dct IH] using pyval_ind';
    intros Hv Hp; try done.
  - cbn [json_value plain json_native] in *.
    apply forallb_forall. intros x Hx.
    rewrite forallb_forall in Hv, Hp. rewrite Forall_forall in IH.
    apply IH; [by apply list_elem_of_In|by apply Hv|by apply Hp].
  - cbn [json_value plain json_native] in *.
    apply andb_true_iff in Hv as [Hv Hnd]. rewrite Hnd, andb_true_r.
    apply forallb_forall. intros [k v] Hx.
    rewrite forallb_forall in Hv, Hp. rewrite Forall_forall in IH.
    specialize (Hv _ Hx). specialize (Hp _ Hx). cbn in Hv, Hp.
    destruct k as [s| | | |]; try done.
    apply andb_true_iff in Hp as [Hs Hp]. rewrite Hs. cbn [andb].
    apply list_elem_of_In in Hx. by apply (IH _ Hx).
Qed.

Section Returned.
Context `{FloatRepr}.

Lemma analysiere_whiteboard_value (self : WhiteboardAssistent) (bild_base64 : str)
    (w : World) (ergebnis : pyval) :
  (analysiere_whiteboard self bild_base64 w).1 = Ok ergebnis →
  json_value ergebnis = true.
Proof.
  intros Hrun. unfold analysiere_whiteboard in Hrun. rewrite bind_eq in Hrun.
  destruct (messages_create _ _ w) as [[[|[text|] more]|e] w1]; try done.
  rewrite bind_eq in Hrun. cbn [first_text] in Hrun. rewrite mret_eq in Hrun.
  destruct (json_loads (bereinigt text)) as [o|] eqn:El; [|done].
  injection Hrun as <-. by apply (json_loads_value _ _ El).
Qed.

End Returned.


(** ** The callback as a whole *)

Lemma stores_ret {A} (a : A) : stores (mret a : M A).
Proof. intros w. exists []. by rewrite app_nil_r. Qed.

Lemma stores_bind {A B} (m : M A) (k : A → M B) :
  stores m → (∀ a, stores (k a)) → stores (m ≫= k).
Proof.
  intros Hm Hk w. rewrite bind_eq. destruct (Hm w) as (t & Ht & Hs).
  destruct (m w) as [[a|e] w1]; cbn [snd] in *.
  - destruct (Hk a w1) as (t' & Ht' & Hs'). exists (t ++ t').
    rewrite Ht', Ht, app_assoc, forallb_app, Hs, Hs'. done.
  - by exists t.
Qed.

Lemma stores_mkdir_exist_ok (pfad : str) : stores (mkdir_exist_ok pfad).
Proof.
  intros w. exists [EvMkdir pfad]. unfold mkdir_exist_ok.
  by destruct (files (log _ w) !! pfad) as [[|]|].
Qed.

Lemma stores_zeitstempel : stores zeitstempel.
Proof.
  apply stores_bind; [|intros; apply stores_ret].
  intros w. exists [EvClock]. unfold datetime_now. cbn [tz].
  by destruct (localtime _ _).
Qed.

Lemma stores_open_write (pfad : str) : stores (open_write pfad).
Proof.
  intros w. exists [EvOpenWrite pfad]. unfold open_write.
  by destruct (files (log _ w) !! pfad) as [[|]|].
Qed.

Lemma stores_write (pfad chunk : str) : stores (write pfad chunk).
Proof.
  intros w. exists [EvWrite pfad chunk]. unfold write.
  destruct (utf8_encode chunk); [|done].
  by destruct (files (log _ w) !! pfad) as [[|]|].
Qed.

Section Callback.
Context `{FloatRepr}.

Lemma stores_write_chunks (pfad : str) (chunks : list str) :
  stores (write_chunks pfad chunks).
Proof.
  induction chunks as [|chunk chunks IH]; [apply stores_ret|].
  cbn [write_chunks]. apply stores_bind; [apply stores_write | done].
Qed.

Lemma stores_json_speichern (daten : pyval) : stores (json_speichern daten).
Proof.
  apply stores_bind; [apply stores_mkdir_exist_ok|]. intros _.
  apply stores_bind; [apply stores_zeitstempel|]. intros stempel.
  apply stores_bind; [apply stores_open_write|]. intros _.
  apply stores_bind; [apply stores_write_chunks|]. intros _. apply stores_ret.
Qed.

Lemma bild_als_base64_world (pfad : str) (w : World) :
  (bild_als_base64 pfad w).2 = log (EvOpenRead pfad) w.
Proof.
  unfold bild_als_base64. rewrite bind_eq. unfold read_binary.
  by destruct (files (log _ w) !! pfad) as [[|]|].
Qed.

(** The callback, stage by stage. *)
Lemma verarbeite_whiteboard_eq (bild_datei : str) (w : World) :
  verarbeite_whiteboard bild_datei w
  = match bild_als_base64 bild_datei w with
    | (Raise e, w1) => (Raise e, w1)
    | (Ok b64, w1) =>
        match analysiere_whiteboard {| client := hosted_model w |} b64 w1 with
        | (Raise e, w2) => (Raise e, w2)
        | (Ok ergebnis, w2) =>
            match json_speichern ergebnis w2 with
            | (Raise e, w3) => (Raise e, w3)
            | (Ok speicherort, w3) =>
                (Ok (ergebnis, lit "Gespeichert unter: " ++ speicherort), w3)
            end
        end
    end.
Proof.
  unfold verarbeite_whiteboard. rewrite bind_eq. cbn [WhiteboardAssistent_init].
  rewrite bind_eq. destruct (bild_als_base64 bild_datei w) as [[b64|e] w1]; [|done].
  rewrite bind_eq. destruct (analysiere_whiteboard _ b64 w1) as [[erg|e] w2]; [|done].
  rewrite bind_eq. by destruct (json_speichern erg w2) as [[ort|e] w3].
Qed.

(** X14.  When the callback returns, the file named in the status text holds
    what was returned: read back, it gives what the returned result gives
    when written as JSON and parsed again, and that is the returned result
    itself when it holds no float and no surrogate. *)
Theorem verarbeite_whiteboard_stores_result (bild_datei : str) (w : World)
    (ergebnis : pyval) (status : str) :
  (verarbeite_whiteboard bild_datei w).1 = Ok (ergebnis, status) →
  ∃ pfad,
    status = lit "Gespeichert unter: " ++ pfad
    ∧ is_file (verarbeite_whiteboard bild_datei w).2 pfad
    ∧ read_json (verarbeite_whiteboard bild_datei w).2 pfad
      = json_loads (json_dumps ergebnis)
    ∧ (plain ergebnis = true →
       read_json (verarbeite_whiteboard bild_datei w).2 pfad = Some ergebnis).
Proof.
  rewrite verarbeite_whiteboard_eq.
  destruct (bild_als_base64 bild_datei w) as [[b64|e] w1]; [|done].
  pose proof (analysiere_whiteboard_value {| client := hosted_model w |} b64 w1) as Hv.
  destruct (analysiere_whiteboard _ b64 w1) as [[erg|e] w2]; [|done].
  specialize (Hv erg eq_refl).
  pose proof (json_speichern_ok erg w2) as Hok.
  destruct (json_speichern erg w2) as [[ort|e] w3]; [|done].
  cbn [fst snd] in *. intros [= -> <-].
  destruct (Hok ort eq_refl) as (d & encoded & _ & _ & Henc & Hfiles).
  exists ort. split; [done|].
  assert (read_json w3 ort = json_loads (json_dumps ergebnis)) as Hread.
  { unfold read_json. rewrite Hfiles, lookup_insert_eq.
    by rewrite (utf8_decode_encode _ _ Henc). }
  split; [|split; [done|]].
  - exists encoded. rewrite Hfiles. apply lookup_insert_eq.
  - intros Hp. rewrite Hread. by apply json_loads_dumps, json_value_plain.
Qed.

(** X15.  When the callback ends with [FileNotFoundError], with the error of
    a failed call of the model, with [IndexError], [AttributeError] or
    [JSONDecodeError], nothing has been stored: the files are as before, the
    clock has not been read, and all that was asked of the environment is to
    open the image and, unless that failed, one request. *)
Theorem verarbeite_whiteboard_fails_before_storing (bild_datei : str) (w : World)
    (e : exception) :
  (verarbeite_whiteboard bild_datei w).1 = Raise e →
  raised_before_storing e = true →
  files (verarbeite_whiteboard bild_datei w).2 = files w
  ∧ clock_reads (verarbeite_whiteboard bild_datei w).2 = clock_reads w
  ∧ (trace (verarbeite_whiteboard bild_datei w).2 = trace w ++ [EvOpenRead bild_datei]
     ∨ ∃ req, trace (verarbeite_whiteboard bild_datei w).2
              = trace w ++ [EvOpenRead bild_datei; EvRequest req]).
Proof.
  rewrite verarbeite_whiteboard_eq.
  pose proof (bild_als_base64_world bild_datei w) as H1.
  destruct (bild_als_base64 bild_datei w) as [[b64|e1] w1]; cbn [snd] in H1; subst w1.
  2: { cbn [fst snd]. intros _ _. split; [done|]. split; [done|]. by left. }
  pose proof (analysiere_whiteboard_trace {| client := hosted_model w |} b64
                (log (EvOpenRead bild_datei) w)) as H2.
  destruct (analysiere_whiteboard _ b64 _) as [[erg|e2] w2]; cbn [snd] in H2; subst w2.
  2: { cbn [fst snd]. intros _ _. split; [done|]. split; [done|]. right.
       exists (anfrage b64). cbn. by rewrite <- app_assoc. }
  set (w2 := log _ _).
  destruct (json_speichern_result erg w2)
    as [(content & _ & E)
       | (_ & [(_ & E & _) | (d & _ & [(_ & E & _) | (_ & content & _ & Hout)])])].
  - rewrite E. cbn [fst]. by intros [= <-].
  - destruct (json_speichern erg w2) as [[ort|e3] w3]; cbn [fst] in *; [done|].
    injection E as ->. by intros [= <-].
  - destruct (json_speichern erg w2) as [[ort|e3] w3]; cbn [fst] in *; [done|].
    injection E as ->. by intros [= <-].
  - destruct (json_speichern erg w2) as [[ort|e3] w3]; cbn [fst] in *; [done|].
    destruct (utf8_encode (json_dumps erg)); [by destruct Hout|].
    injection Hout as ->. by intros [= <-].
Qed.


(** X17.  When the image is there, the callback asks the hosted model once,
    right after opening the image, and the request carries the image: the
    data of its image block decode to the bytes of the file.  Nothing else is
    opened for reading. *)
Theorem verarbeite_whiteboard_sends_image (bild_datei : str) (data : list byte)
    (w : World) :
  files w !! bild_datei = Some (File data) →
  ∃ b64 text rest,
    trace (verarbeite_whiteboard bild_datei w).2
    = trace w ++ [EvOpenRead bild_datei; EvRequest (anfrage b64)] ++ rest
    ∧ messages (anfrage b64)
      = [ {| role := lit "user";
             content := [TextContent text;
                         ImageContent (lit "base64") (lit "image/jpeg") b64] |} ]
    ∧ b64decode b64 = Some data
    ∧ forallb is_store_event rest = true.
Proof.
  intros Hf.
  assert (∃ rest,
            trace (verarbeite_whiteboard bild_datei w).2
            = trace w ++ [EvOpenRead bild_datei; EvRequest (anfrage (b64encode data))]
              ++ rest
            ∧ forallb is_store_event rest = true) as (rest & Ht & Hs).
  { rewrite verarbeite_whiteboard_eq, (bild_als_base64_eq _ _ _ Hf).
    pose proof (analysiere_whiteboard_trace {| client := hosted_model w |}
                  (b64encode data) (log (EvOpenRead bild_datei) w)) as H2.
    destruct (analysiere_whiteboard _ _ _) as [[erg|e2] w2]; cbn [snd] in H2; subst w2.
    - destruct (stores_json_speichern erg
                  (log (EvRequest (anfrage (b64encode data)))
                     (log (EvOpenRead bild_datei) w))) as (t & Ht & Hs).
      exists t. split; [|done].
      destruct (json_speichern erg _) as [[ort|e3] w3]; cbn [snd] in *.
      all: rewrite Ht; cbn [trace log]; by rewrite <- !app_assoc.
    - exists []. split; [|done]. cbn [snd trace log]. by rewrite <- !app_assoc. }
  eexists (b64encode data), _, rest.
  split; [exact Ht|]. split; [reflexivity|]. split; [apply b64decode_b64encode|done].
Qed.
End Callback.

Lemma verarbeite_whiteboard_stores_result_witness :
  let w := tafel_world fenced_reply in
  let run := verarbeite_whiteboard (H := repr_literal) (lit "tafel.jpg") w in
  ∃ pfad,
    pfad = export_path (lit "20241027_023000")
    ∧ read_json run.2 pfad = Some (notes (lit "X") (lit "Y")).
Proof.
  intros w run.
  destruct (verarbeite_whiteboard_stores_result (H := repr_literal) (lit "tafel.jpg") w
              (notes (lit "X") (lit "Y"))
              (lit "Gespeichert unter: " ++ export_path (lit "20241027_023000")))
    as (pfad & Es & _ & _ & Hread).
  - vm_compute. reflexivity.
  - apply app_inv_head in Es as <-. exists (export_path (lit "20241027_023000")).
    split; [reflexivity|]. apply Hread. vm_compute. reflexivity.
Defined.

Lemma verarbeite_whiteboard_fails_before_storing_witness :
  let w := demo_world ∅ [] fenced_reply in
  let run := verarbeite_whiteboard (H := repr_literal) (lit "tafel.jpg") w in
  run.1 = Raise FileNotFoundError ∧ files run.2 = files w.
Proof.
  intros w run.
  assert (run.1 = Raise FileNotFoundError) as Hrun by (vm_compute; reflexivity).
  destruct (verarbeite_whiteboard_fails_before_storing (H := repr_literal)
              (lit "tafel.jpg") w FileNotFoundError Hrun eq_refl) as (Hfiles & _).
  exact (conj Hrun Hfiles).
Defined.


Lemma verarbeite_whiteboard_sends_image_witness :
  let w := tafel_world fenced_reply in
  ∃ b64 rest,
    trace (verarbeite_whiteboard (H := repr_literal) (lit "tafel.jpg") w).2
    = trace w ++ [EvOpenRead (lit "tafel.jpg"); EvRequest (anfrage (H := repr_literal) b64)]
      ++ rest
    ∧ b64decode b64 = Some tafel_jpg.
Proof.
  intros w.
  destruct (verarbeite_whiteboard_sends_image (H := repr_literal) (lit "tafel.jpg")
              tafel_jpg w) as (b64 & text & rest & Ht & _ & Hdec & _).
  - vm_compute. reflexivity.
  - exists b64, rest. exact (conj Ht Hdec).
Defined.


(** ** Time stamps in order *)

Lemma str_le_refl (a : str) : str_le a a = true.
Proof.
  induction a as [|x a IH]; [done|]. cbn [str_le].
  by rewrite N.eqb_refl, IH, orb_true_r.
Qed.

Lemma str_le_head (p a b : str) : str_le (p ++ a) (p ++ b) = str_le a b.
Proof.
  induction p as [|x p IH]; [done|]. cbn [app str_le].
  by rewrite N.ltb_irrefl, N.eqb_refl, IH.
Qed.

Lemma str_le_tail (a b q : str) :
  length a = length b → str_le a b = true → str_le (a ++ q) (b ++ q) = true.
Proof.
  revert b. induction a as [|x a IH]; intros [|y b] Hl; try done.
  - intros _. apply str_le_refl.
  - cbn [app str_le]. intros [Hlt|[He Hle]%andb_true_iff]%orb_true_iff.
    + by rewrite Hlt.
    + rewrite He, IH; [by rewrite orb_true_r|by injection Hl|done].
Qed.

Section Order.
Local Open Scope Z_scope.

Lemma digit_ltb (x y : Z) : (digit x <? digit y)%N = (x mod 10 <? y mod 10).
Proof.
  unfold digit. destruct (Z.ltb_spec (x mod 10) (y mod 10)).
  - apply N.ltb_lt. lia.
  - apply N.ltb_ge. lia.
Qed.

Lemma digit_eqb (x y : Z) : (digit x =? digit y)%N = (x mod 10 =? y mod 10).
Proof.
  unfold digit. destruct (Z.eqb_spec (x mod 10) (y mod 10)).
  - apply N.eqb_eq. lia.
  - apply N.eqb_neq. lia.
Qed.

(** Two digits in front: the order of the numbers decides, then the rest. *)
Lemma str_le_fmt2 (a b : Z) (s t : str) :
  0 ≤ a < 100 → 0 ≤ b < 100 →
  str_le (fmt2 a ++ s) (fmt2 b ++ t) = (a <? b) || ((a =? b) && str_le s t).
Proof.
  intros Ha Hb. unfold fmt2. cbn [app str_le].
  rewrite !digit_ltb, !digit_eqb.
  destruct (str_le s t);
    repeat match goal with
           | |- context [(?x <? ?y)] => destruct (Z.ltb_spec x y)
           | |- context [(?x =? ?y)] => destruct (Z.eqb_spec x y)
           end; cbn; try reflexivity; lia.
Qed.

(** Four digits in front. *)
Lemma digit_congr (x y : Z) : x mod 10 = y mod 10 → digit x = digit y.
Proof. unfold digit. by intros ->. Qed.

Lemma fmtY_fmt2 (a : Z) : 1000 ≤ a → fmtY a = fmt2 (a / 100) ++ fmt2 (a mod 100).
Proof.
  intros Ha. rewrite fmtY_four by done. unfold fmt2. cbn [app].
  repeat (apply (f_equal2 (@cons N)); [apply digit_congr; lia|]). reflexivity.
Qed.

Lemma str_le_fmtY (a b : Z) (s t : str) :
  1000 ≤ a ≤ 9999 → 1000 ≤ b ≤ 9999 →
  str_le (fmtY a ++ s) (fmtY b ++ t) = (a <? b) || ((a =? b) && str_le s t).
Proof.
  intros Ha Hb. rewrite !fmtY_fmt2 by lia. rewrite <- !app_assoc.
  rewrite !str_le_fmt2 by lia.
  destruct (str_le s t);
    repeat match goal with
           | |- context [(?x <? ?y)] => destruct (Z.ltb_spec x y)
           | |- context [(?x =? ?y)] => destruct (Z.eqb_spec x y)
           end; cbn; try reflexivity; lia.
Qed.

(** The order of two time stamps is the order of their fields, the year
    first. *)
Lemma str_le_strftime (a b : datetime) :
  1000 ≤ year a ≤ 9999 → 1000 ≤ year b ≤ 9999 →
  0 ≤ month a < 100 → 0 ≤ month b < 100 →
  0 ≤ day a < 100 → 0 ≤ day b < 100 →
  0 ≤ hour a < 100 → 0 ≤ hour b < 100 →
  0 ≤ minute a < 100 → 0 ≤ minute b < 100 →
  0 ≤ second a < 100 → 0 ≤ second b < 100 →
  str_le (strftime_Ymd_HMS a) (strftime_Ymd_HMS b)
  = (year a <? year b)
    || ((year a =? year b)
        && ((month a <? month b)
            || ((month a =? month b)
                && ((day a <? day b)
                    || ((day a =? day b)
                        && ((hour a <? hour b)
                            || ((hour a =? hour b)
                                && ((minute a <? minute b)
                                    || ((minute a =? minute b)
                                        && (second a <=? second b)))))))))).
Proof.
  intros Hya Hyb Hma Hmb Hda Hdb Hha Hhb Hia Hib Hsa Hsb.
  unfold strftime_Ymd_HMS.
  rewrite <- (app_nil_r (fmt2 (second a))), <- (app_nil_r (fmt2 (second b))).
  rewrite str_le_fmtY, !str_le_fmt2 by done.
  rewrite (str_le_head (lit "_")), !str_le_fmt2 by done.
  cbn [str_le]. rewrite andb_true_r.
  do 5 f_equal. f_equal. f_equal. f_equal. f_equal. f_equal.
  destruct (Z.ltb_spec (second a) (second b)), (Z.eqb_spec (second a) (second b)),
    (Z.leb_spec (second a) (second b)); cbn; try reflexivity; lia.
Qed.

(** Of two instants under the same UTC offset the later one has the later
    local date, or the same date and a time of day that is not earlier. *)
Lemma localtime_le (zone zone' : timezone) (t t' : Z) (d d' : datetime) :
  localtime zone t = Some d →
  localtime zone' t' = Some d' →
  zone (t / 1000000) = zone' (t' / 1000000) →
  t ≤ t' →
  date_lt (year d, month d, day d) (year d', month d', day d')
  ∨ (year d = year d' ∧ month d = month d' ∧ day d = day d'
     ∧ hour d * 3600 + minute d * 60 + second d
       ≤ hour d' * 3600 + minute d' * 60 + second d').
Proof.
  intros Hd Hd' Hoff Hle. unfold localtime in Hd, Hd'. rewrite <- Hoff in Hd'.
  set (off := zone (t / 1000000)) in *.
  set (wall := t / 1000000 + off + epoch_offset) in *.
  set (wall' := t' / 1000000 + off + epoch_offset) in *.
  assert (wall ≤ wall') as Hwall by (subst wall wall'; lia).
  destruct (wall <? 0) eqn:Hw; [done|].
  destruct (wall' <? 0) eqn:Hw'; [done|].
  destruct (Z.eq_dec (wall / 86400) (wall' / 86400)) as [Hdays|Hdays].
  - right. rewrite <- Hdays in Hd'.
    destruct (date_of_days (wall / 86400)) as [[y m] dd].
    destruct (9999 <? y); [done|].
    injection Hd as <-. injection Hd' as <-. cbn. lia.
  - left. assert (Z.to_nat (wall / 86400) < Z.to_nat (wall' / 86400))%nat as Hlt by lia.
    apply date_iter_lt in Hlt. rewrite <- !date_of_days_iter in Hlt.
    destruct (date_of_days (wall / 86400)) as [[y m] dd].
    destruct (date_of_days (wall' / 86400)) as [[y' m'] dd'].
    destruct (9999 <? y); [done|]. destruct (9999 <? y'); [done|].
    injection Hd as <-. by injection Hd' as <-.
Qed.

(** X20.  Time stamps sort as the clock runs.  Of two calls of [zeitstempel]
    under the same UTC offset, the one with the later clock reading returns a
    string that is not before the other in the order of strings, and so it
    is with the paths of the export files made from them; this holds from
    the year 1000 on. *)
Theorem zeitstempel_in_order (w w' : World) (d d' : datetime) :
  localtime (tz w) (next_reading w) = Some d →
  localtime (tz w') (next_reading w') = Some d' →
  1000 ≤ year d →
  tz w (next_reading w / 1000000) = tz w' (next_reading w' / 1000000) →
  next_reading w ≤ next_reading w' →
  (zeitstempel w).1 = Ok (strftime_Ymd_HMS d)
  ∧ (zeitstempel w').1 = Ok (strftime_Ymd_HMS d')
  ∧ str_le (strftime_Ymd_HMS d) (strftime_Ymd_HMS d') = true
  ∧ str_le (export_path (strftime_Ymd_HMS d)) (export_path (strftime_Ymd_HMS d'))
    = true.
Proof.
  intros Hd Hd' Hy Hoff Hle.
  split; [by apply zeitstempel_eq|]. split; [by apply zeitstempel_eq|].
  pose proof (localtime_range _ _ _ Hd) as R.
  pose proof (localtime_range _ _ _ Hd') as R'.
  pose proof (localtime_le _ _ _ _ _ _ Hd Hd' Hoff Hle) as Horder.
  assert (1000 ≤ year d') as Hy' by (unfold date_lt in Horder; lia).
  assert (str_le (strftime_Ymd_HMS d) (strftime_Ymd_HMS d') = true) as Hs.
  { rewrite str_le_strftime by lia. unfold date_lt in Horder.
    destruct Horder as [[Hlt|[-> [Hlt|[-> Hlt]]]]|(-> & -> & -> & Htime)].
    - by rewrite (proj2 (Z.ltb_lt _ _) Hlt).
    - by rewrite Z.eqb_refl, (proj2 (Z.ltb_lt _ _) Hlt), orb_true_r.
    - by rewrite !Z.eqb_refl, (proj2 (Z.ltb_lt _ _) Hlt), !orb_true_r.
    - rewrite !Z.eqb_refl, !Z.ltb_irrefl. cbn [orb andb].
      repeat match goal with
             | |- context [(?x <? ?y)] => destruct (Z.ltb_spec x y)
             | |- context [(?x =? ?y)] => destruct (Z.eqb_spec x y)
             | |- context [(?x <=? ?y)] => destruct (Z.leb_spec x y)
             end; cbn; try reflexivity; lia. }
  split; [done|]. unfold export_path.
  rewrite !str_le_head. apply str_le_tail; [|done].
  by rewrite !strftime_length.
Qed.
End Order.

Lemma zeitstempel_in_order_witness :
  let w := two_readings 1729989000000000 1729989002500000 in
  let first := zeitstempel w in
  let second := zeitstempel first.2 in
  first.1 = Ok (lit "20241027_023000")
  ∧ second.1 = Ok (lit "20241027_023002")
  ∧ str_le (lit "20241027_023000") (lit "20241027_023002") = true.
Proof.
  intros w first second.
  pose (d1 := {| year := 2024; month := 10; day := 27; hour := 2; minute := 30;
                 second := 0; microsecond := 0 |}%Z).
  pose (d2 := {| year := 2024; month := 10; day := 27; hour := 2; minute := 30;
                 second := 2; microsecond := 500000 |}%Z).
  assert (localtime (tz w) (next_reading w) = Some d1) as L1
    by (vm_compute; reflexivity).
  assert (localtime (tz first.2) (next_reading first.2) = Some d2) as L2
    by (vm_compute; reflexivity).
  assert (1000 ≤ year d1)%Z as Y1 by (cbn; lia).
  assert (tz w (next_reading w / 1000000)%Z
          = tz first.2 (next_reading first.2 / 1000000)%Z) as O
    by (vm_compute; reflexivity).
  assert (next_reading w ≤ next_reading first.2)%Z as Hle
    by (vm_compute; discriminate).
  destruct (zeitstempel_in_order w first.2 d1 d2 L1 L2 Y1 O Hle) as (H1 & H2 & Hs & _).
  exact (conj H1 (conj H2 Hs)).
Defined.

(** ** Replies with prose around the JSON text *)

(** The first character decides what the scanner reads. *)
Lemma scan_once_head (fuel : nat) (c : codepoint) (s : str) :
  scan_once (S fuel) (c :: s)
  = if c =? 0x22 then
      match scanstring s with
      | Some (content, rest) => Scanned (PyStr content) rest
      | None => Malformed
      end
    else if c =? 0x7B then
      match skip_ws s with
      | c1 :: s2 =>
          if c1 =? 0x7D then Scanned (PyDict []) s2
          else if c1 =? 0x22 then object_items fuel [] s2
          else Malformed
      | [] => Malformed
      end
    else if c =? 0x5B then
      match skip_ws s with
      | c1 :: s2 =>
          if c1 =? 0x5D then Scanned (PyList []) s2
          else array_items fuel [] (c1 :: s2)
      | [] => Malformed
      end
    else if c =? 0x6E then
      if startswith (lit "ull") s then Scanned PyNone (drop 3 s) else Malformed
    else if c =? 0x74 then
      if startswith (lit "rue") s then Scanned (PyBool true) (drop 3 s) else Malformed
    else if c =? 0x66 then
      if startswith (lit "alse") s then Scanned (PyBool false) (drop 4 s) else Malformed
    else if c =? 0x4E then
      if startswith (lit "aN") s then Scanned (PyFloat (lit "NaN")) (drop 2 s)
      else Malformed
    else if c =? 0x49 then
      if startswith (lit "nfinity") s then Scanned (PyFloat (lit "Infinity")) (drop 7 s)
      else Malformed
    else
      match match_number (c :: s) with
      | Some (number, rest) => Scanned number rest
      | None =>
          if (c =? 0x2D) && startswith (lit "Infinity") s
          then Scanned (PyFloat (lit "-Infinity")) (drop 8 s)
          else Malformed
      end.
Proof.
  cbn [scan_once].
  destruct (c =? 0x22) eqn:E1; [done|]. destruct (c =? 0x7B) eqn:E2; [done|].
  destruct (c =? 0x5B) eqn:E3; [by destruct (skip_ws s)|].
  change (lit "null") with (0x6E :: lit "ull").
  change (lit "true") with (0x74 :: lit "rue").
  change (lit "false") with (0x66 :: lit "alse").
  change (lit "NaN") with (0x4E :: lit "aN").
  change (lit "Infinity") with (0x49 :: lit "nfinity") at 1 2.
  change (lit "-Infinity") with (0x2D :: lit "Infinity") at 1.
  rewrite !startswith_cons.
  rewrite (N.eqb_sym 0x6E c), (N.eqb_sym 0x74 c), (N.eqb_sym 0x66 c),
    (N.eqb_sym 0x4E c), (N.eqb_sym 0x49 c), (N.eqb_sym 0x2D c).
  destruct (c =? 0x6E) eqn:E4.
  { apply N.eqb_eq in E4 as ->. cbn [andb].
    destruct (startswith (lit "ull") s); reflexivity. }
  destruct (c =? 0x74) eqn:E5.
  { apply N.eqb_eq in E5 as ->. cbn [andb].
    destruct (startswith (lit "rue") s); reflexivity. }
  destruct (c =? 0x66) eqn:E6.
  { apply N.eqb_eq in E6 as ->. cbn [andb].
    destruct (startswith (lit "alse") s); reflexivity. }
  destruct (c =? 0x4E) eqn:E7.
  { apply N.eqb_eq in E7 as ->. cbn [andb].
    destruct (startswith (lit "aN") s); reflexivity. }
  destruct (c =? 0x49) eqn:E8.
  { apply N.eqb_eq in E8 as ->. cbn [andb].
    destruct (startswith (lit "nfinity") s); reflexivity. }
  cbn [andb]. reflexivity.
Qed.

Lemma match_number_start (c : codepoint) (s : str) :
  (c =? 0x2D) = false → is_digit c = false → match_number (c :: s) = None.
Proof.
  intros Hm Hd. unfold match_number. rewrite Hm.
  destruct (c =? 0x30) eqn:E0; [apply N.eqb_eq in E0 as ->; done|].
  by rewrite Hd.
Qed.

(** A text that is empty or begins with a character no JSON text begins with
    is refused. *)
Lemma json_loads_bad_start (text : str) :
  match skip_ws text with
  | [] => True
  | c :: _ => json_start c = false
  end →
  json_loads text = None.
Proof.
  intros Hstart. unfold json_loads. destruct (startswith _ text); [done|].
  destruct (skip_ws text) as [|c s]; [done|].
  rewrite scan_once_head. unfold json_start in Hstart.
  repeat (apply orb_false_iff in Hstart as [Hstart ?]).
  repeat match goal with H : _ = false |- _ => rewrite H end.
  by rewrite match_number_start.
Qed.

Section Prose.
Context `{FloatRepr}.

(** X22.  A reply whose cleaned text is empty, or begins with a character
    that no JSON text begins with, a letter of prose for one, makes
    [analysiere_whiteboard] raise [JSONDecodeError]: a JSON text begins with
    a quote, a bracket, a minus sign, a digit or the first letter of [null],
    [true], [false], [NaN] or [Infinity]. *)
Theorem analysiere_whiteboard_rejects_prose (self : WhiteboardAssistent)
    (bild_base64 reply : str) (more : list reply_block) (w : World) :
  client self (anfrage bild_base64) = Some (TextBlock reply :: more) →
  match skip_ws (bereinigt reply) with
  | [] => True
  | c :: _ => json_start c = false
  end →
  (analysiere_whiteboard self bild_base64 w).1 = Raise JSONDecodeError.
Proof.
  intros Hc Hstart. rewrite (analysiere_whiteboard_eq _ _ _ _ _ Hc).
  by rewrite json_loads_bad_start.
Qed.
End Prose.

Lemma analysiere_whiteboard_rejects_prose_witness :
  let reply := lit "Here are the notes: " ++ plain_reply in
  (analysiere_whiteboard (H := repr_literal) (stub_assistent reply)
     (b64encode tafel_jpg) (tafel_world reply)).1 = Raise JSONDecodeError.
Proof.
  intros reply.
  apply (analysiere_whiteboard_rejects_prose (H := repr_literal) (stub_assistent reply)
           (b64encode tafel_jpg) reply []).
  - reflexivity.
  - vm_compute. reflexivity.
Defined.

(** ** Text behind the JSON text *)

Lemma skip_ws_app_stop (s x : str) (c : codepoint) (r : str) :
  skip_ws s = c :: r → skip_ws (s ++ x) = c :: r ++ x.
Proof.
  induction s as [|a s IH]; [done|]. cbn [skip_ws app].
  destruct (is_json_ws a); [done|]. by intros [= <- <-].
Qed.

Lemma skip_ws_app_all (s x : str) : skip_ws s = [] → skip_ws (s ++ x) = skip_ws x.
Proof.
  induction s as [|a s IH]; [done|]. cbn [skip_ws app].
  by destruct (is_json_ws a).
Qed.

Lemma span_digits_stop (s x ds : str) (c : codepoint) (r : str) :
  span_digits s = (ds, c :: r) → span_digits (s ++ x) = (ds, c :: r ++ x).
Proof.
  revert ds. induction s as [|a s IH]; intros ds; [done|]. cbn [span_digits app].
  destruct (is_digit a); [|by intros [= <- <- <-]].
  destruct (span_digits s) as [ds' rest'] eqn:E. intros [= <- ->].
  by rewrite (IH ds').
Qed.

Lemma startswith_app_l (pre s x : str) :
  startswith pre s = true → startswith pre (s ++ x) = true.
Proof.
  revert s. induction pre as [|p pre IH]; intros [|c s]; try done.
  cbn [startswith app]. intros [-> Hs]%andb_true_iff. by rewrite IH.
Qed.

Lemma drop_app_startswith (pre s x : str) :
  startswith pre s = true → drop (length pre) (s ++ x) = drop (length pre) s ++ x.
Proof.
  revert s. induction pre as [|p pre IH]; intros [|c s]; try done.
  cbn [startswith app length drop]. intros [_ Hs]%andb_true_iff. by apply IH.
Qed.

Ltac case_hyp :=
  match goal with
  | H : context [match ?x with _ => _ end] |- _ => destruct x eqn:?
  end.

Lemma scanstring_one (b : codepoint) (content rest : str) :
  scanstring [b] = Some (content, rest) → b = 0x22 ∧ content = [] ∧ rest = [].
Proof.
  cbn [scanstring]. destruct (b =? 0x22) eqn:E.
  - apply N.eqb_eq in E. by intros [= <- <-].
  - destruct (b =? 0x5C); [done|]. by destruct (b <? 0x20).
Qed.

(** A string that is read is read alike with more text behind it. *)
Lemma scanstring_app (s content rest x : str) :
  scanstring s = Some (content, rest) → scanstring (s ++ x) = Some (content, rest ++ x).
Proof.
  remember (length s) as n eqn:Hn. revert s content rest Hn.
  induction n as [n IH] using lt_wf_ind. intros s content rest -> Hs.
  destruct s as [|c s1]; [done|]. cbn [scanstring app] in Hs |- *.
  repeat (case_hyp; simplify_eq; cbn [app] in * ).
  all: repeat match goal with
       | E : scanstring ?t = Some (?a, ?b) |- _ =>
           let E' := fresh "E" in
           pose proof (IH (length t) ltac:(cbn [length]; lia) t a b eq_refl E) as E';
           cbn [app] in E'; rewrite ?E'; revert E
       end.
  all: try done.
  intros (-> & -> & ->)%scanstring_one. by destruct x.
Qed.

(** A number that is read is read alike with more text behind it, when the
    text behind the number begins with a character that no number goes on
    with. *)
Lemma match_number_app (s x : str) (number : pyval) (rest : str) :
  match_number s = Some (number, rest) → stops rest →
  match_number (s ++ x) = Some (number, rest ++ x).
Proof.
  unfold match_number. intros Hs Hstop.
  repeat (case_hyp; simplify_eq; cbn [app] in *;
          repeat match goal with
                 | E : span_digits ?t = (_, ?r) |- _ => is_var r; destruct r
                 | E : span_digits ?t = (?ds, ?c :: ?r)
                   |- context [span_digits (?t ++ ?y)] =>
                     rewrite (span_digits_stop t y ds c r E)
                 | E : ?b = true |- context [?b] => rewrite E
                 | E : ?b = false |- context [?b] => rewrite E
                 end).
  all: try match goal with
           | Hr : stops ?r |- _ => is_var r; destruct r
           end.
  all: cbn [stops] in Hstop; try done.
  all: destruct Hstop as (Hd & Hdot & He & HE).
  all: try (exfalso;
            repeat match goal with
                   | E : (_ || _) = true |- _ => apply orb_true_iff in E as [E|E]
                   | E : (_ =? _) = true |- _ => apply N.eqb_eq in E
                   end; congruence).
  all: repeat (cbn [app];
               match goal with
               | E : span_digits ?t = (?ds, ?c :: ?r)
                 |- context [span_digits (?t ++ ?y)] =>
                   rewrite (span_digits_stop t y ds c r E)
               | E : ?b = true |- context [?b] => rewrite E
               | E : ?b = false |- context [?b] => rewrite E
               end).
  all: try done.
  all: repeat match goal with
       | E : span_digits ?t = (?ds, ?c :: ?r) |- _ =>
           let E' := fresh "E" in
           pose proof (λ y, span_digits_stop t y ds c r E) as E';
           cbn [app] in E'; rewrite ?E'; clear E'; revert E
       end; intros.
  all: try done.
Qed.

Lemma match_number_is_number (s rest : str) (number : pyval) :
  match_number s = Some (number, rest) → is_number number = true.
Proof.
  unfold match_number. intros Hm. repeat case_match; by simplify_eq.
Qed.

(** Behind a value in a list or a dict stands whitespace, a comma or a
    closing bracket: nothing a number goes on with. *)
Lemma skip_ws_stops (rest : str) (c : codepoint) (r : str) :
  skip_ws rest = c :: r → c = 0x5D ∨ c = 0x2C ∨ c = 0x7D → stops rest.
Proof.
  destruct rest as [|a rest']; [done|]. cbn [skip_ws stops]. intros Hs Hc.
  destruct (is_json_ws a) eqn:Ea.
  - unfold is_json_ws in Ea.
    repeat (apply orb_true_iff in Ea as [Ea|Ea]); apply N.eqb_eq in Ea as ->; done.
  - injection Hs as -> _. by destruct Hc as [->|[->| ->]].
Qed.

(** What the scanner reads, it reads alike with more text behind it. *)
Lemma scan_app (fuel : nat) (x : str) :
  (∀ s v rest,
     scan_once fuel s = Scanned v rest → is_number v = false ∨ stops rest →
     scan_once fuel (s ++ x) = Scanned v (rest ++ x))
  ∧ (∀ values s v rest,
       array_items fuel values s = Scanned v rest →
       array_items fuel values (s ++ x) = Scanned v (rest ++ x))
  ∧ (∀ pairs s v rest,
       object_items fuel pairs s = Scanned v rest →
       object_items fuel pairs (s ++ x) = Scanned v (rest ++ x)).
Proof.
  induction fuel as [|fuel (IHs & IHa & IHo)]; [done|].
  split; [|split].
  - intros s v rest Hs Hv. destruct s as [|c s]; [done|].
    cbn [app]. rewrite scan_once_head in Hs |- *.
    destruct (c =? 0x22).
    { destruct (scanstring s) as [[content r]|] eqn:E; [|done].
      injection Hs as <- <-. by rewrite (scanstring_app _ _ _ x E). }
    destruct (c =? 0x7B).
    { destruct (skip_ws s) as [|c1 s2] eqn:E; [done|].
      rewrite (skip_ws_app_stop _ x _ _ E).
      destruct (c1 =? 0x7D); [by injection Hs as <- <-|].
      destruct (c1 =? 0x22); [|done]. by apply IHo. }
    destruct (c =? 0x5B).
    { destruct (skip_ws s) as [|c1 s2] eqn:E; [done|].
      rewrite (skip_ws_app_stop _ x _ _ E).
      destruct (c1 =? 0x5D); [by injection Hs as <- <-|].
      by apply (IHa [] (c1 :: s2)). }
    destruct (c =? 0x6E).
    { destruct (startswith (lit "ull") s) eqn:E; [|done].
      rewrite (startswith_app_l _ _ x E). injection Hs as <- <-.
      f_equal. exact (drop_app_startswith (lit "ull") s x E). }
    destruct (c =? 0x74).
    { destruct (startswith (lit "rue") s) eqn:E; [|done].
      rewrite (startswith_app_l _ _ x E). injection Hs as <- <-.
      f_equal. exact (drop_app_startswith (lit "rue") s x E). }
    destruct (c =? 0x66).
    { destruct (startswith (lit "alse") s) eqn:E; [|done].
      rewrite (startswith_app_l _ _ x E). injection Hs as <- <-.
      f_equal. exact (drop_app_startswith (lit "alse") s x E). }
    destruct (c =? 0x4E).
    { destruct (startswith (lit "aN") s) eqn:E; [|done].
      rewrite (startswith_app_l _ _ x E). injection Hs as <- <-.
      f_equal. exact (drop_app_startswith (lit "aN") s x E). }
    destruct (c =? 0x49).
    { destruct (startswith (lit "nfinity") s) eqn:E; [|done].
      rewrite (startswith_app_l _ _ x E). injection Hs as <- <-.
      f_equal. exact (drop_app_startswith (lit "nfinity") s x E). }
    destruct (match_number (c :: s)) as [[number r]|] eqn:E.
    + injection Hs as <- <-. destruct Hv as [Hn|Hstop].
      * by rewrite (match_number_is_number _ _ _ E) in Hn.
      * change (c :: s ++ x) with ((c :: s) ++ x).
        by rewrite (match_number_app _ x _ _ E Hstop).
    + destruct (c =? 0x2D) eqn:Ec; [|done]. cbn [andb] in Hs |- *.
      destruct (startswith (lit "Infinity") s) eqn:Ei; [|done].
      rewrite (startswith_app_l _ _ x Ei). injection Hs as <- <-.
      rewrite (drop_app_startswith (lit "Infinity") s x Ei
               : drop 8 (s ++ x) = drop 8 s ++ x).
      apply N.eqb_eq in Ec as ->. destruct s as [|c2 s2]; [done|].
      change (lit "Infinity") with (0x49 :: lit "nfinity") in Ei.
      rewrite startswith_cons in Ei. apply andb_true_iff in Ei as [Ei _].
      apply N.eqb_eq in Ei as <-. reflexivity.
  - intros values s v rest Hs. cbn [array_items] in Hs |- *.
    destruct (scan_once fuel s) as [value rest1| |] eqn:Es; [|done..].
    destruct (skip_ws rest1) as [|c s1] eqn:E1; [done|].
    assert (c = 0x5D ∨ c = 0x2C ∨ c = 0x7D) as Hc.
    { destruct (c =? 0x5D) eqn:Ec; [apply N.eqb_eq in Ec; by left|].
      destruct (c =? 0x2C) eqn:Ec'; [apply N.eqb_eq in Ec'; by right; left|done]. }
    rewrite (IHs _ _ _ Es) by (right; by eapply skip_ws_stops).
    rewrite (skip_ws_app_stop _ x _ _ E1).
    destruct (c =? 0x5D); [by injection Hs as <- <-|].
    destruct (c =? 0x2C); [|done].
    destruct (skip_ws s1) as [|c2 s2] eqn:E2;
      [by destruct fuel as [|[|fuel]]; cbn [array_items scan_once] in Hs|].
    rewrite (skip_ws_app_stop _ x _ _ E2). by apply (IHa _ (c2 :: s2)).
  - intros pairs s v rest Hs. cbn [object_items] in Hs |- *.
    destruct (scanstring s) as [[key s1]|] eqn:Ek; [|done].
    rewrite (scanstring_app _ _ _ x Ek).
    destruct (skip_ws s1) as [|colon s2] eqn:E1; [done|].
    rewrite (skip_ws_app_stop _ x _ _ E1).
    destruct (colon =? 0x3A); [|done].
    destruct (skip_ws s2) as [|c0 s0] eqn:E0;
      [by destruct fuel; cbn [scan_once] in Hs|].
    rewrite (skip_ws_app_stop _ x _ _ E0).
    destruct (scan_once fuel (c0 :: s0)) as [value rest1| |] eqn:Es; [|done..].
    destruct (skip_ws rest1) as [|c s3] eqn:E3; [done|].
    assert (c = 0x5D ∨ c = 0x2C ∨ c = 0x7D) as Hc.
    { destruct (c =? 0x7D) eqn:Ec; [apply N.eqb_eq in Ec; by right; right|].
      destruct (c =? 0x2C) eqn:Ec'; [apply N.eqb_eq in Ec'; by right; left|done]. }
    pose proof (IHs (c0 :: s0) _ _ Es (or_intror (skip_ws_stops _ _ _ E3 Hc))) as Es'.
    cbn [app] in Es'. rewrite Es'.
    rewrite (skip_ws_app_stop _ x _ _ E3).
    destruct (c =? 0x7D); [by injection Hs as <- <-|].
    destruct (c =? 0x2C); [|done].
    destruct (skip_ws s3) as [|q s4] eqn:E4; [done|].
    rewrite (skip_ws_app_stop _ x _ _ E4).
    destruct (q =? 0x22); [|done]. by apply IHo.
Qed.

(** A JSON text that is not a number, with more than whitespace behind it,
    is refused. *)
Lemma json_loads_extra_data (text extra : str) (v : pyval) :
  json_loads text = Some v → is_number v = false → skip_ws extra ≠ [] →
  json_loads (text ++ extra) = None.
Proof.
  unfold json_loads. intros Hl Hv Hextra.
  destruct text as [|c0 text0]; [done|]. cbn [app].
  rewrite startswith_one in Hl |- *. destruct (0xFEFF =? c0); [done|].
  change (c0 :: text0 ++ extra) with ((c0 :: text0) ++ extra).
  destruct (skip_ws (c0 :: text0)) as [|c s] eqn:E1; [done|].
  rewrite (skip_ws_app_stop _ extra _ _ E1).
  destruct (scan_once (S (length (c :: s))) (c :: s)) as [obj rest| |] eqn:Es; [|done..].
  destruct (skip_ws rest) eqn:Er; [|done]. injection Hl as ->.
  pose proof (proj1 (scan_app _ extra) _ _ _ Es (or_introl Hv)) as Es'.
  change (c :: s ++ extra) with ((c :: s) ++ extra).
  rewrite (scan_once_fuel _ _ _ _ Es').
  rewrite (skip_ws_app_all _ _ Er). by destruct (skip_ws extra).
Qed.

Section ExtraData.
Context `{FloatRepr}.

(** X23.  A reply whose cleaned text is a JSON text, one that is not a
    number, with more than whitespace behind it, a closing remark for one,
    makes [analysiere_whiteboard] raise [JSONDecodeError]: nothing may
    follow the value. *)
Theorem analysiere_whiteboard_extra_data (self : WhiteboardAssistent)
    (bild_base64 reply : str) (more : list reply_block) (w : World)
    (text extra : str) (v : pyval) :
  client self (anfrage bild_base64) = Some (TextBlock reply :: more) →
  bereinigt reply = text ++ extra →
  json_loads text = Some v →
  is_number v = false →
  skip_ws extra ≠ [] →
  (analysiere_whiteboard self bild_base64 w).1 = Raise JSONDecodeError.
Proof.
  intros Hc Hclean Hl Hv Hextra. rewrite (analysiere_whiteboard_eq _ _ _ _ _ Hc).
  by rewrite Hclean, (json_loads_extra_data _ _ _ Hl Hv Hextra).
Qed.
End ExtraData.

Lemma analysiere_whiteboard_extra_data_witness :
  let reply := fenced_reply ++ [0x0A] ++ lit "I hope this helps!" in
  (analysiere_whiteboard (H := repr_literal) (stub_assistent reply)
     (b64encode tafel_jpg) (tafel_world reply)).1 = Raise JSONDecodeError.
Proof.
  intros reply.
  apply (analysiere_whiteboard_extra_data (H := repr_literal) (stub_assistent reply)
           (b64encode tafel_jpg) reply [] (tafel_world reply)
           (qlit "{'topic':'X','sections':[],'flashcards':[],'summary':'Y'}")
           ([0x0A; 0x0A] ++ lit "I hope this helps!") (notes (lit "X") (lit "Y"))).
  - reflexivity.
  - vm_compute. reflexivity.
  - vm_compute. reflexivity.
  - reflexivity.
  - vm_compute. discriminate.
Defined.

(** ** A successful call, effect by effect *)

Section Effects.
Context `{FloatRepr}.

Lemma write_chunks_ok_trace (pfad : str) (chunks : list str) (w : World) :
  (write_chunks pfad chunks w).1 = Ok () →
  trace (write_chunks pfad chunks w).2 = trace w ++ map (EvWrite pfad) chunks
  ∧ clock_reads (write_chunks pfad chunks w).2 = clock_reads w.
Proof.
  revert w. induction chunks as [|chunk chunks IH]; intros w.
  - intros _. cbn. by rewrite app_nil_r.
  - cbn [write_chunks map]. rewrite bind_eq.
    assert (trace (write pfad chunk w).2 = trace w ++ [EvWrite pfad chunk]
            ∧ clock_reads (write pfad chunk w).2 = clock_reads w) as [Ht Hr].
    { unfold write. destruct (utf8_encode chunk); [|done].
      by destruct (files (log _ w) !! pfad) as [[|]|]. }
    destruct (write pfad chunk w) as [[[]|e] w1]; [|done]. cbn [snd] in Ht, Hr.
    intros Hok. destruct (IH w1 Hok) as [-> ->]. rewrite Ht, Hr.
    by rewrite <- app_assoc.
Qed.

(** What a call of [json_speichern] that returns has asked of the
    environment. *)
Lemma json_speichern_ok_trace (daten : pyval) (w : World) (pfad : str) :
  (json_speichern daten w).1 = Ok pfad →
  trace (json_speichern daten w).2
  = trace w ++ [EvMkdir export_dir; EvClock; EvOpenWrite pfad]
    ++ map (EvWrite pfad) (iterencode 0 daten)
  ∧ clock_reads (json_speichern daten w).2 = S (clock_reads w).
Proof.
  unfold json_speichern. rewrite bind_eq. fold export_dir.
  assert (trace (mkdir_exist_ok export_dir w).2 = trace w ++ [EvMkdir export_dir]
          ∧ clock_reads (mkdir_exist_ok export_dir w).2 = clock_reads w) as [Ht1 Hr1].
  { unfold mkdir_exist_ok. by destruct (files (log _ w) !! export_dir) as [[|]|]. }
  destruct (mkdir_exist_ok export_dir w) as [[[]|e] w1]; [|done]. cbn [snd] in Ht1, Hr1.
  rewrite bind_eq. unfold zeitstempel. rewrite bind_eq.
  assert (trace (datetime_now w1).2 = trace w1 ++ [EvClock]
          ∧ clock_reads (datetime_now w1).2 = S (clock_reads w1)) as [Ht2 Hr2].
  { unfold datetime_now. cbn [tz]. by destruct (localtime _ _). }
  destruct (datetime_now w1) as [[now|e] w2]; [|done]. cbn [snd] in Ht2, Hr2.
  rewrite mret_eq. fold (export_path (strftime_Ymd_HMS now)).
  set (p := export_path (strftime_Ymd_HMS now)).
  rewrite bind_eq.
  assert (trace (open_write p w2).2 = trace w2 ++ [EvOpenWrite p]
          ∧ clock_reads (open_write p w2).2 = clock_reads w2) as [Ht3 Hr3].
  { unfold open_write. by destruct (files (log _ w2) !! p) as [[|]|]. }
  destruct (open_write p w2) as [[[]|e] w3]; [|done]. cbn [snd] in Ht3, Hr3.
  rewrite bind_eq. unfold json_dump.
  pose proof (write_chunks_ok_trace p (iterencode 0 daten) w3) as Ht4.
  destruct (write_chunks p (iterencode 0 daten) w3) as [[[]|e] w4]; [|done].
  rewrite mret_eq. cbn [fst snd] in *. intros [= <-].
  destruct (Ht4 eq_refl) as [-> ->]. rewrite Ht3, Ht2, Ht1, Hr3, Hr2, Hr1.
  by rewrite <- !app_assoc.
Qed.

Lemma analysiere_whiteboard_ok (self : WhiteboardAssistent) (bild_base64 : str)
    (w : World) (ergebnis : pyval) :
  (analysiere_whiteboard self bild_base64 w).1 = Ok ergebnis →
  ∃ reply more,
    client self (anfrage bild_base64) = Some (TextBlock reply :: more)
    ∧ json_loads (bereinigt reply) = Some ergebnis.
Proof.
  unfold analysiere_whiteboard. rewrite bind_eq. unfold messages_create.
  destruct (client self _) as [[|[text|] more]|]; try done.
  rewrite bind_eq. cbn [first_text]. rewrite mret_eq.
  destruct (json_loads (bereinigt text)) as [o|] eqn:El; [|done].
  intros [= <-]. by exists text, more.
Qed.

(** X24.  What the callback returns is what the hosted model said about the
    image: when the callback returns a result, the image was there, the
    model was asked with the base64 text of its bytes, and the result is what
    the cleaned text of the first block of the reply parses to. *)
Theorem verarbeite_whiteboard_returns_reply (bild_datei : str) (w : World)
    (ergebnis : pyval) (status : str) :
  (verarbeite_whiteboard bild_datei w).1 = Ok (ergebnis, status) →
  ∃ data reply more,
    files w !! bild_datei = Some (File data)
    ∧ hosted_model w (anfrage (b64encode data)) = Some (TextBlock reply :: more)
    ∧ json_loads (bereinigt reply) = Some ergebnis.
Proof.
  rewrite verarbeite_whiteboard_eq.
  destruct (files w !! bild_datei) as [[data|]|] eqn:Hf.
  - rewrite (bild_als_base64_eq _ _ _ Hf).
    pose proof (analysiere_whiteboard_ok {| client := hosted_model w |} (b64encode data)
                  (log (EvOpenRead bild_datei) w)) as Hok.
    destruct (analysiere_whiteboard _ _ _) as [[erg|e] w2]; [|done].
    destruct (Hok erg eq_refl) as (reply & more & Hm & Hl).
    destruct (json_speichern erg w2) as [[ort|e] w3]; [|done].
    cbn [fst]. intros [= -> _]. by exists data, reply, more.
  - unfold bild_als_base64. rewrite bind_eq. unfold read_binary. cbn [files log].
    by rewrite Hf.
  - unfold bild_als_base64. rewrite bind_eq. unfold read_binary. cbn [files log].
    by rewrite Hf.
Qed.

(** X25.  Everything a successful callback asks of its environment, in
    order: it opens the image for reading, sends one request, makes the
    export directory, reads the clock once, opens the export file for
    writing and writes to it; the chunks written, put together, are the JSON
    text of the result.  Nothing else is opened, asked or written. *)
Theorem verarbeite_whiteboard_effects (bild_datei : str) (w : World)
    (ergebnis : pyval) (status : str) :
  (verarbeite_whiteboard bild_datei w).1 = Ok (ergebnis, status) →
  ∃ b64 pfad chunks,
    trace (verarbeite_whiteboard bild_datei w).2
    = trace w ++ [EvOpenRead bild_datei; EvRequest (anfrage b64);
                  EvMkdir export_dir; EvClock; EvOpenWrite pfad]
      ++ map (EvWrite pfad) chunks
    ∧ concat chunks = json_dumps ergebnis
    ∧ status = lit "Gespeichert unter: " ++ pfad
    ∧ clock_reads (verarbeite_whiteboard bild_datei w).2 = S (clock_reads w).
Proof.
  rewrite verarbeite_whiteboard_eq.
  pose proof (bild_als_base64_world bild_datei w) as H1.
  destruct (bild_als_base64 bild_datei w) as [[b64|e1] w1]; cbn [snd] in H1; subst w1;
    [|done].
  pose proof (analysiere_whiteboard_trace {| client := hosted_model w |} b64
                (log (EvOpenRead bild_datei) w)) as H2.
  destruct (analysiere_whiteboard _ b64 _) as [[erg|e2] w2]; cbn [snd] in H2; subst w2;
    [|done].
  set (w2 := log _ _).
  pose proof (json_speichern_ok_trace erg w2) as Ht.
  destruct (json_speichern erg w2) as [[ort|e3] w3]; [|done].
  cbn [fst snd] in *. intros [= -> <-].
  exists b64, ort, (iterencode 0 ergebnis).
  destruct (Ht ort eq_refl) as [-> ->]. subst w2. cbn [trace log clock_reads].
  split; [by rewrite <- !app_assoc|]. done.
Qed.
End Effects.

Lemma verarbeite_whiteboard_returns_reply_witness :
  ∃ data reply more,
    files (tafel_world fenced_reply) !! lit "tafel.jpg" = Some (File data)
    ∧ hosted_model (tafel_world fenced_reply)
        (anfrage (H := repr_literal) (b64encode data))
      = Some (TextBlock reply :: more)
    ∧ json_loads (bereinigt reply) = Some (notes (lit "X") (lit "Y")).
Proof.
  apply (verarbeite_whiteboard_returns_reply (H := repr_literal) (lit "tafel.jpg")
           (tafel_world fenced_reply) (notes (lit "X") (lit "Y"))
           (lit "Gespeichert unter: " ++ export_path (lit "20241027_023000"))).
  vm_compute. reflexivity.
Defined.

Lemma verarbeite_whiteboard_effects_witness :
  let w := tafel_world fenced_reply in
  let run := verarbeite_whiteboard (H := repr_literal) (lit "tafel.jpg") w in
  ∃ b64 chunks,
    trace run.2
    = trace w ++ [EvOpenRead (lit "tafel.jpg"); EvRequest (anfrage (H := repr_literal) b64);
                  EvMkdir export_dir; EvClock;
                  EvOpenWrite (export_path (lit "20241027_023000"))]
      ++ map (EvWrite (export_path (lit "20241027_023000"))) chunks
    ∧ concat chunks = json_dumps (H := repr_literal) (notes (lit "X") (lit "Y")).
Proof.
  intros w run.
  destruct (verarbeite_whiteboard_effects (H := repr_literal) (lit "tafel.jpg") w
              (notes (lit "X") (lit "Y"))
              (lit "Gespeichert unter: " ++ export_path (lit "20241027_023000")))
    as (b64 & pfad & chunks & Ht & Hc & Es & _).
  - vm_compute. reflexivity.
  - apply app_inv_head in Es as <-. exists b64, chunks. exact (conj Ht Hc).
Defined.
